(** * NordicForests mask editor: history, coordinate mapping, compositor

    A shallow embedding of the [ImageEditor] React component
    (src/unnamed/part_001), of the two [removeObject] clients
    (src/services/geminiService.ts and src/unnamed/part_000) and of the
    application shell (src/App.tsx), with the properties of the editor's
    design document stated against them.  Line numbers in the editor's
    sections refer to src/unnamed/part_001. *)

From Stdlib Require Import ZArith QArith Qround List String Ascii Bool Lia.
From Stdlib Require Import Floats.
Import ListNotations.
Local Open Scope Z_scope.

(** ** JavaScript numbers

    The source computes with JS Numbers, which are IEEE binary64.  The
    functions below are written once against the operations they use.  The
    instance [Binary64] is the arithmetic of the code: the downscale policy
    is stated and proved there.  The instance [ExactNumber] reads the same
    operations over the rationals; it serves the algebra of the coordinate
    mapper and the worked examples of the editor, whose canvas sizes are the
    same in both. *)

Class Number (num : Type) := {
  of_Z : Z -> num;                 (* an integer-valued Number *)
  nsub : num -> num -> num;        (* a - b *)
  nmul : num -> num -> num;        (* a * b *)
  ndiv : num -> num -> num;        (* a / b *)
  ngtb : num -> num -> bool;       (* a > b *)
  Math_round : num -> Z;           (* nearest integer, ties towards +infinity *)
  to_long : num -> Z               (* WebIDL integer conversion of a non-negative value: truncation *)
}.

(** Rational arithmetic, without rounding.  [Qround.Qfloor] rounds towards
    minus infinity, so [Math.round x] is [floor (x + 1/2)]. *)
#[export] Instance ExactNumber : Number Q := {
  of_Z := inject_Z;
  nsub := Qminus;
  nmul := Qmult;
  ndiv := Qdiv;
  ngtb := fun a b => negb (Qle_bool a b);
  Math_round := fun x => Qfloor (x + (1 # 2));
  to_long := fun x => Z.quot (Qnum x) (Zpos (Qden x))
}.

(** IEEE binary64.  The value of a finite float is [m * 2^e]; [float_round]
    is the floor of [(2 * v + 1) / 2] computed on that representation, which is
    [Math.round v] without an intermediate rounding. *)
Definition float_of_Z (z : Z) : float :=
  if z <? 0 then PrimFloat.opp (PrimFloat.of_uint63 (Uint63.of_Z (- z)))
  else PrimFloat.of_uint63 (Uint63.of_Z z).

Definition signed_mantissa (s : bool) (m : positive) : Z :=
  if s then Z.neg m else Z.pos m.

Definition float_round (x : float) : Z :=
  match Prim2SF x with
  | S754_finite s m e =>
      let n := signed_mantissa s m in
      if 0 <=? e then n * 2 ^ e
      else (2 * n + 2 ^ (- e)) / 2 ^ (- e + 1)
  | _ => 0
  end.

Definition float_trunc (x : float) : Z :=
  match Prim2SF x with
  | S754_finite s m e =>
      let n := signed_mantissa s m in
      if 0 <=? e then n * 2 ^ e else Z.quot n (2 ^ (- e))
  | _ => 0
  end.

#[export] Instance Binary64 : Number float := {
  of_Z := float_of_Z;
  nsub := PrimFloat.sub;
  nmul := PrimFloat.mul;
  ndiv := PrimFloat.div;
  ngtb := fun a b => PrimFloat.ltb b a;
  Math_round := float_round;
  to_long := float_trunc
}.

(** ** Mask compositor: downscale policy (handleProcessImage, lines 200-213) *)

Definition MAX_DIMENSION : Z := 1024.

Definition targetSize {num} `{Number num} (naturalWidth naturalHeight : Z) : Z * Z :=
  let width := naturalWidth in
  let height := naturalHeight in
  if (width >? MAX_DIMENSION) || (height >? MAX_DIMENSION) then
    let ratio := ndiv (of_Z width) (of_Z height) in
    if width >? height then
      (MAX_DIMENSION, Math_round (ndiv (of_Z MAX_DIMENSION) ratio))
    else
      (Math_round (nmul (of_Z MAX_DIMENSION) ratio), MAX_DIMENSION)
  else (width, height).

(** ** Strings as the source uses them *)

Fixpoint includes_from (needle hay : string) : bool :=
  if String.prefix needle hay then true
  else match hay with
       | EmptyString => false
       | String _ rest => includes_from needle rest
       end.

(** [hay.includes(needle)] *)
Definition includes (hay needle : string) : bool := includes_from needle hay.

(** [s.split(',')] *)
Fixpoint split_comma (s : string) : list string :=
  match s with
  | EmptyString => [EmptyString]
  | String c rest =>
      if Ascii.eqb c ","%char then EmptyString :: split_comma rest
      else match split_comma rest with
           | [] => [String c EmptyString]
           | hd :: tl => String c hd :: tl
           end
  end.

(** A value interpolated in a template literal: [undefined] prints as such. *)
Definition interpolate (v : option string) : string :=
  match v with Some s => s | None => "undefined"%string end.

(** ** Arrays as the source uses them: [l.slice(0, e)] and [l[i]] *)

Definition slice0 {A} (l : list A) (e : Z) : list A :=
  if e <? 0 then firstn (Z.to_nat (Z.max (Z.of_nat (List.length l) + e) 0)) l
  else firstn (Z.to_nat e) l.

Definition at_index {A} (l : list A) (i : Z) : option A :=
  if i <? 0 then None else nth_error l (Z.to_nat i).

(** ** The remote edit clients *)

(** What a rejected promise or a [throw] carries: an [Error] with its
    message, or any other value. *)
Inductive Thrown :=
| ErrorObject (message : string)
| OtherValue.

Inductive Settled (A : Type) :=
| Resolved (a : A)
| Rejected (t : Thrown).
Arguments Resolved {A} a.
Arguments Rejected {A} t.

Record Blob := { blob_data : option string; blob_mimeType : option string }.

(** A response part.  [part_inlineData] is [None] when the object has no
    [inlineData] key, [Some None] when the key is there with a nullish value. *)
Record Part := { part_text : option string; part_inlineData : option (option Blob) }.
Record Content := { parts : option (list Part) }.
Record Candidate := { content : option Content }.
Record Response := { candidates : option (list Candidate) }.

Inductive RequestPart :=
| TextPart (text : string)
| InlineDataPart (data : option string) (mimeType : string).

Record Request := { model : string; request_parts : list RequestPart }.

(** [response.candidates?.[0]?.content?.parts?.[0]] *)
Definition firstPart (response : Response) : option Part :=
  match candidates response with
  | Some (c :: _) =>
      match content c with
      | Some ct => match parts ct with Some (p :: _) => Some p | _ => None end
      | None => None
      end
  | _ => None
  end.

(** [firstPart && 'inlineData' in firstPart && firstPart.inlineData] *)
Definition inlineImage (response : Response) : option Blob :=
  match firstPart response with
  | Some p => match part_inlineData p with Some (Some b) => Some b | _ => None end
  | None => None
  end.

Definition dataUrl (b : Blob) : string :=
  ("data:" ++ interpolate (blob_mimeType b) ++ ";base64," ++ interpolate (blob_data b))%string.

Definition refusal_message : string :=
  "The API did not return an image. It might be due to a safety policy violation or an unexpected response format.".

(** What [new GoogleGenAI({ apiKey })] gives: the constructor throws, or
    returns a client whose [models.generateContent] is [generateContent].
    Both [removeObject] functions construct the client before their [try]
    block, so what the constructor throws leaves them as it is. *)
Inductive GoogleGenAI :=
| ConstructorThrows (t : Thrown)
| Client (generateContent : Request -> Settled Response).

(** src/services/geminiService.ts, [removeObject(markedImageBase64, mimeType)]:
    the module the editor imports, with the two arguments the editor passes
    (lines 4-9 [fileToBase64], lines 11-53 [removeObject]). *)
Module GeminiService.

Definition fileToBase64 (fileData : string) : option string :=
  if includes fileData "," then nth_error (split_comma fileData) 1
  else Some fileData.

Definition textPart : RequestPart :=
  TextPart "The provided image has an area marked with red brush strokes. Remove the object covered by the red strokes and fill the area with a realistic background that blends seamlessly with the surroundings. The result should be the clean image without any red marks.".

Definition request (markedImageBase64 mimeType : string) : Request :=
  {| model := "gemini-2.5-flash-image";
     request_parts := [textPart; InlineDataPart (fileToBase64 markedImageBase64) mimeType] |}.

(** The body of the [try] block (lines 28-47). *)
Definition attempt (generateContent : Request -> Settled Response)
    (markedImageBase64 mimeType : string) : Settled string :=
  match generateContent (request markedImageBase64 mimeType) with
  | Rejected t => Rejected t
  | Resolved response =>
      match inlineImage response with
      | Some b => Resolved (dataUrl b)
      | None => Rejected (ErrorObject refusal_message)
      end
  end.

(** [ai] is the outcome of the constructor call of line 15, which is not
    inside the [try]; the [catch] of lines 48-52 wraps what the [try] throws. *)
Definition removeObject (ai : GoogleGenAI)
    (markedImageBase64 mimeType : string) : Settled string :=
  match ai with
  | ConstructorThrows t => Rejected t
  | Client generateContent =>
      match attempt generateContent markedImageBase64 mimeType with
      | Resolved url => Resolved url
      | Rejected error =>
          let errorMessage :=
            match error with ErrorObject m => m | OtherValue => "Unknown error"%string end in
          Rejected (ErrorObject ("Failed to process the image: " ++ errorMessage)%string)
      end
  end.

End GeminiService.

(** src/unnamed/part_000,
    [removeObject(originalImageBase64, maskImageBase64, mimeType)]: the
    client that sends the image and the mask as two parts (lines 3-5
    [fileToBase64], lines 7-56 [removeObject]).  The editor calls
    [removeObject] with two arguments (src/unnamed/part_001, line 232), so
    the client it uses is the one above. *)
Module Part000.

Definition fileToBase64 (fileData : string) : option string :=
  nth_error (split_comma fileData) 1.

Definition textPart : RequestPart :=
  TextPart "You are an expert at image inpainting. The user has provided a main image and a second mask image. The red area in the mask image indicates the object to be removed from the main image. Please remove the object and replace it with a realistic background that seamlessly blends with the surroundings. Output only the modified main image.".

Definition request (originalImageBase64 maskImageBase64 mimeType : string) : Request :=
  {| model := "gemini-2.5-flash-image";
     request_parts := [textPart;
                       InlineDataPart (fileToBase64 originalImageBase64) mimeType;
                       InlineDataPart (fileToBase64 maskImageBase64) "image/png"] |}.

Definition missing_key_message : string :=
  "VERCEL_PUBLIC_API_KEY environment variable is not set. Please add it to your Vercel project settings.".

Definition generic_message : string :=
  "Failed to process the image with the AI model. Please try again.".

(** [!process.env.VERCEL_PUBLIC_API_KEY] *)
Definition key_missing (apiKey : option string) : bool :=
  match apiKey with
  | None => true
  | Some EmptyString => true
  | Some _ => false
  end.

(** The body of the [try] block (lines 32-51). *)
Definition attempt (generateContent : Request -> Settled Response)
    (originalImageBase64 maskImageBase64 mimeType : string) : Settled string :=
  match generateContent (request originalImageBase64 maskImageBase64 mimeType) with
  | Rejected t => Rejected t
  | Resolved response =>
      match inlineImage response with
      | Some b => Resolved (dataUrl b)
      | None => Rejected (ErrorObject refusal_message)
      end
  end.

(** [apiKey] is [process.env.VERCEL_PUBLIC_API_KEY]; [ai] is the outcome of
    the constructor call of line 12, after the key check and before the
    [try]; the [catch] of lines 52-55 replaces whatever the [try] throws. *)
Definition removeObject (apiKey : option string) (ai : GoogleGenAI)
    (originalImageBase64 maskImageBase64 mimeType : string) : Settled string :=
  if key_missing apiKey then Rejected (ErrorObject missing_key_message)
  else
    match ai with
    | ConstructorThrows t => Rejected t
    | Client generateContent =>
        match attempt generateContent originalImageBase64 maskImageBase64 mimeType with
        | Resolved url => Resolved url
        | Rejected _ => Rejected (ErrorObject generic_message)
        end
    end.

End Part000.

(** ** The canvas

    The bitmap type and the browser's rendering primitives are parameters:
    nothing below depends on how a stroke is rasterised. *)

Inductive PathCmd (num : Type) :=
| MoveTo (x y : num)
| LineTo (x y : num)
| ClosePath.
Arguments MoveTo {num} x y.
Arguments LineTo {num} x y.
Arguments ClosePath {num}.

Record Ctx2D (num : Type) := {
  strokeStyle : string;
  lineWidth : Z;
  lineCap : string;
  lineJoin : string;
  path : list (PathCmd num)
}.
Arguments strokeStyle {num} _.
Arguments lineWidth {num} _.
Arguments lineCap {num} _.
Arguments lineJoin {num} _.
Arguments path {num} _.

(** An [ImageData] object: a captured rectangle of pixels. *)
Record ImageData (Pixels : Type) := {
  id_width : Z;
  id_height : Z;
  id_data : Pixels
}.
Arguments id_width {Pixels} _.
Arguments id_height {Pixels} _.
Arguments id_data {Pixels} _.

Class Raster (num Pixels : Type) := {
  (* the bitmap of a canvas right after its width or height is assigned *)
  transparent : Z -> Z -> Pixels;
  (* ctx.stroke(): the current path painted with the current style *)
  strokePath : Ctx2D num -> Pixels -> Pixels;
  (* ctx.putImageData(d, 0, 0) on a bitmap of another size than d *)
  putClipped : ImageData Pixels -> Z -> Z -> Pixels -> Pixels;
  (* ctx.drawImage(src, 0, 0, w, h): src, its size, w, h, destination *)
  drawScaled : Pixels -> Z -> Z -> Z -> Z -> Pixels -> Pixels;
  (* canvas.toDataURL(mimeType, 0.9): bitmap, its size, mimeType *)
  toDataURL : Pixels -> Z -> Z -> string -> string
}.

Section Editor.

Context {num Pixels : Type} `{Number num} `{Raster num Pixels}.

Record Canvas := {
  cv_width : Z;
  cv_height : Z;
  bitmap : Pixels;
  ctx : Ctx2D num          (* the state of getContext('2d') *)
}.

Definition defaultCtx : Ctx2D num :=
  {| strokeStyle := "#000000"; lineWidth := 1; lineCap := "butt";
     lineJoin := "miter"; path := [] |}.

(** A canvas element as it is created, and after [width]/[height] are set. *)
Definition sizedCanvas (w h : Z) : Canvas :=
  {| cv_width := w; cv_height := h; bitmap := transparent w h; ctx := defaultCtx |}.

Definition newCanvas : Canvas := sizedCanvas 300 150.

(** The capture of a whole canvas. *)
Definition snapshot (cv : Canvas) : ImageData Pixels :=
  {| id_width := cv_width cv; id_height := cv_height cv; id_data := bitmap cv |}.

(** [ctx.getImageData(0, 0, canvas.width, canvas.height)]; a zero-sized
    rectangle raises IndexSizeError ([None]). *)
Definition getImageData (cv : Canvas) : option (ImageData Pixels) :=
  if (cv_width cv =? 0) || (cv_height cv =? 0) then None
  else Some (snapshot cv).

(** [ctx.putImageData(d, 0, 0)]: a capture of the canvas's own size replaces
    the bitmap. *)
Definition putImageData (d : ImageData Pixels) (cv : Canvas) : Canvas :=
  {| cv_width := cv_width cv; cv_height := cv_height cv;
     bitmap := if (id_width d =? cv_width cv) && (id_height d =? cv_height cv)
               then id_data d
               else putClipped d (cv_width cv) (cv_height cv) (bitmap cv);
     ctx := ctx cv |}.

Definition with_ctx (k : Ctx2D num) (cv : Canvas) : Canvas :=
  {| cv_width := cv_width cv; cv_height := cv_height cv; bitmap := bitmap cv; ctx := k |}.

Definition with_path (p : list (PathCmd num)) (k : Ctx2D num) : Ctx2D num :=
  {| strokeStyle := strokeStyle k; lineWidth := lineWidth k; lineCap := lineCap k;
     lineJoin := lineJoin k; path := p |}.

(** [ctx.stroke()] *)
Definition stroke (cv : Canvas) : Canvas :=
  {| cv_width := cv_width cv; cv_height := cv_height cv;
     bitmap := strokePath (ctx cv) (bitmap cv); ctx := ctx cv |}.

(** ** Coordinate mapper (getCoordinates, lines 86-101) *)

Record DOMRect := { left : num; top : num; width : num; height : num }.

(** A mouse event, or a touch event with its first touch point. *)
Inductive PointerEvt :=
| MouseEvt (clientX clientY : num)
| TouchEvt (touch0X touch0Y : num).

Definition clientX_of (e : PointerEvt) : num :=
  match e with MouseEvt x _ => x | TouchEvt x _ => x end.
Definition clientY_of (e : PointerEvt) : num :=
  match e with MouseEvt _ y => y | TouchEvt _ y => y end.

Definition getCoordinates (canvas : option Canvas) (rect : DOMRect) (e : PointerEvt)
  : option (num * num) :=
  match canvas with
  | None => None
  | Some canvas =>
      let clientX := clientX_of e in
      let clientY := clientY_of e in
      let scaleX := ndiv (of_Z (cv_width canvas)) (width rect) in
      let scaleY := ndiv (of_Z (cv_height canvas)) (height rect) in
      Some (nmul (nsub clientX (left rect)) scaleX,
            nmul (nsub clientY (top rect)) scaleY)
  end.

(** ** Component state

    The [useState] values and the canvas behind [drawingCanvasRef].  The
    container and the two canvases are mounted and unmounted together, so
    one optional canvas stands for the three refs. *)
Record Component := {
  isDrawing : bool;
  isLoading : bool;
  error : option string;
  brushSize : Z;
  history : list (ImageData Pixels);
  historyIndex : Z;
  drawingCanvas : option Canvas
}.

Definition setIsDrawing (v : bool) (c : Component) : Component :=
  {| isDrawing := v; isLoading := isLoading c; error := error c; brushSize := brushSize c;
     history := history c; historyIndex := historyIndex c; drawingCanvas := drawingCanvas c |}.
Definition setIsLoading (v : bool) (c : Component) : Component :=
  {| isDrawing := isDrawing c; isLoading := v; error := error c; brushSize := brushSize c;
     history := history c; historyIndex := historyIndex c; drawingCanvas := drawingCanvas c |}.
Definition setError (v : option string) (c : Component) : Component :=
  {| isDrawing := isDrawing c; isLoading := isLoading c; error := v; brushSize := brushSize c;
     history := history c; historyIndex := historyIndex c; drawingCanvas := drawingCanvas c |}.
Definition setBrushSize (v : Z) (c : Component) : Component :=
  {| isDrawing := isDrawing c; isLoading := isLoading c; error := error c; brushSize := v;
     history := history c; historyIndex := historyIndex c; drawingCanvas := drawingCanvas c |}.
Definition setHistory (v : list (ImageData Pixels)) (c : Component) : Component :=
  {| isDrawing := isDrawing c; isLoading := isLoading c; error := error c; brushSize := brushSize c;
     history := v; historyIndex := historyIndex c; drawingCanvas := drawingCanvas c |}.
Definition setHistoryIndex (v : Z) (c : Component) : Component :=
  {| isDrawing := isDrawing c; isLoading := isLoading c; error := error c; brushSize := brushSize c;
     history := history c; historyIndex := v; drawingCanvas := drawingCanvas c |}.
(** A write through [drawingCanvasRef.current], or the ref itself changing. *)
Definition withCanvas (v : option Canvas) (c : Component) : Component :=
  {| isDrawing := isDrawing c; isLoading := isLoading c; error := error c; brushSize := brushSize c;
     history := history c; historyIndex := historyIndex c; drawingCanvas := v |}.

(** The component after its first render. *)
Definition mounted : Component :=
  {| isDrawing := false; isLoading := false; error := None; brushSize := 40;
     history := []; historyIndex := -1; drawingCanvas := Some newCanvas |}.

(** ** Event handlers

    A handler created by a render reads the [useState] values of that
    render ([r] below) for as long as it runs: a [setX] call only
    schedules the value of the next render ([c], the pending component),
    and the last call for a state variable wins.  The canvas is reached
    through a ref and changes at once, so it is read from [c]. *)

(** saveToHistory, lines 74-84 *)
Definition saveToHistory (r c : Component) : Component :=
  match drawingCanvas c with
  | None => c
  | Some drawingCanvas =>
      let newHistory := slice0 (history r) (historyIndex r + 1) in
      match getImageData drawingCanvas with
      | None => c
      | Some newImageData =>
          setHistoryIndex (Z.of_nat (List.length newHistory))
            (setHistory (newHistory ++ [newImageData]) c)
      end
  end.

Definition marking_color : string := "rgba(239, 68, 68, 1.0)".

(** startDrawing, lines 103-118: style, [beginPath], [moveTo]. *)
Definition startDrawing (rect : DOMRect) (e : PointerEvt) (r c : Component) : Component :=
  match getCoordinates (drawingCanvas c) rect e, drawingCanvas c with
  | Some (x, y), Some cv =>
      (* the lineWidth setter ignores a value that is not positive *)
      let k := {| strokeStyle := marking_color;
                  lineWidth := if 0 <? brushSize r then brushSize r else lineWidth (ctx cv);
                  lineCap := "round"; lineJoin := "round";
                  path := [MoveTo x y] |} in
      setIsDrawing true (withCanvas (Some (with_ctx k cv)) c)
  | _, _ => c
  end.

(** draw, lines 120-129: [lineTo], then [stroke] paints the path so far. *)
Definition draw (rect : DOMRect) (e : PointerEvt) (r c : Component) : Component :=
  if negb (isDrawing r) then c
  else
    match getCoordinates (drawingCanvas c) rect e, drawingCanvas c with
    | Some (x, y), Some cv =>
        let k := with_path (path (ctx cv) ++ [LineTo x y]) (ctx cv) in
        withCanvas (Some (stroke (with_ctx k cv))) c
    | _, _ => c
    end.

(** stopDrawing, lines 131-138 *)
Definition stopDrawing (r c : Component) : Component :=
  if negb (isDrawing r) then c
  else
    match drawingCanvas c with
    | None => c
    | Some cv =>
        let k := with_path (path (ctx cv) ++ [ClosePath]) (ctx cv) in
        saveToHistory r (setIsDrawing false (withCanvas (Some (with_ctx k cv)) c))
    end.

(** handleUndo, lines 140-150 *)
Definition handleUndo (r c : Component) : Component :=
  if historyIndex r >? 0 then
    let newIndex := historyIndex r - 1 in
    match drawingCanvas c, at_index (history r) newIndex with
    | Some cv, Some d =>
        setHistoryIndex newIndex (withCanvas (Some (putImageData d cv)) c)
    | _, _ => c
    end
  else c.

(** handleRedo, lines 152-162 *)
Definition handleRedo (r c : Component) : Component :=
  if historyIndex r <? Z.of_nat (List.length (history r)) - 1 then
    let newIndex := historyIndex r + 1 in
    match drawingCanvas c, at_index (history r) newIndex with
    | Some cv, Some d =>
        setHistoryIndex newIndex (withCanvas (Some (putImageData d cv)) c)
    | _, _ => c
    end
  else c.

(** handleClear, lines 164-174.  [saveToHistory] is the closure of the same
    render, so it is given [r], not the values scheduled just before it. *)
Definition handleClear (r c : Component) : Component :=
  match drawingCanvas c with
  | None => c
  | Some canvas =>
      match history r with
      | [] => c
      | h0 :: _ =>
          let c1 := withCanvas (Some (putImageData h0 canvas)) c in
          let c2 := setHistory [h0] c1 in
          let c3 := setHistoryIndex 0 c2 in
          saveToHistory r c3
      end
  end.

(** The [image.onload] callback of drawImage, lines 28-63: display
    geometry, both canvases resized (which clears them), history reset.
    [maxHeight] is [window.innerHeight * 0.6]. *)
Definition displaySize (imageWidth imageHeight clientWidth innerHeight : Z) : num * num :=
  let maxWidth := of_Z clientWidth in
  let maxHeight := nmul (of_Z innerHeight) (ndiv (of_Z 6) (of_Z 10)) in
  let width := of_Z imageWidth in
  let height := of_Z imageHeight in
  let ratio := ndiv width height in
  let '(width, height) :=
    if ngtb width maxWidth then (maxWidth, ndiv maxWidth ratio) else (width, height) in
  if ngtb height maxHeight then (nmul maxHeight ratio, maxHeight) else (width, height).

Definition onload (imageWidth imageHeight clientWidth innerHeight : Z) (c : Component)
  : Component :=
  match drawingCanvas c with
  | None => c
  | Some _ =>
      let '(width, height) := displaySize imageWidth imageHeight clientWidth innerHeight in
      let drawingCanvas := sizedCanvas (to_long width) (to_long height) in
      let c1 := withCanvas (Some drawingCanvas) c in
      match getImageData drawingCanvas with
      | None => c1
      | Some initialImageData => setHistoryIndex 0 (setHistory [initialImageData] c1)
      end
  end.

(** ** Rendering

    The JSX (lines 253-299) renders the spinner while [isLoading] and the
    container with both canvases otherwise.  The two branches are elements
    of different types, so a change of [isLoading] unmounts one subtree and
    mounts the other: the refs are cleared when the spinner appears, and
    point to newly created canvas elements when the editor comes back. *)
Definition commit (prev next : Component) : Component :=
  if isLoading next then withCanvas None next
  else if isLoading prev then withCanvas (Some newCanvas) next
  else next.

(** ** Submission (handleProcessImage, lines 177-249) *)

Record HTMLImage := { naturalWidth : Z; naturalHeight : Z; image_pixels : Pixels }.

(** What a submission finds around it: the [imageFile] prop and the
    outcome of each operation it awaits or that may fail. *)
Record SubmitEnv := {
  imageFile_type : string;
  loadImage : option HTMLImage;            (* onload with the image, or onerror *)
  compositeContext : bool;                 (* compositeCanvas.getContext('2d') is non-null *)
  invalidState : Thrown;                   (* raised by drawImage for a zero-sized source canvas *)
  ai : GoogleGenAI                         (* new GoogleGenAI({ apiKey: process.env.API_KEY }) *)
}.

Inductive Effect :=
| Alert (message : string)
| RemoteCall (markedImageBase64 mimeType : string)   (* removeObject is called *)
| OnComplete (editedImageUrl : string)
| OnAuthError
| ConsoleError.

Definition validation_message : string := "Please select an area to remove first.".

(** Lines 196-230: the composite and its encoding. *)
Definition composite (env : SubmitEnv) (drawingCanvas : Canvas) : Settled (string * string) :=
  match loadImage env with
  | None => Rejected (ErrorObject "Failed to load image for processing.")
  | Some originalImage =>
      let '(width, height) :=
        targetSize (naturalWidth originalImage) (naturalHeight originalImage) in
      if negb (compositeContext env)
      then Rejected (ErrorObject "Could not get composite canvas context")
      else
        let b1 := drawScaled (image_pixels originalImage) (naturalWidth originalImage)
                    (naturalHeight originalImage) width height (transparent width height) in
        if (cv_width drawingCanvas =? 0) || (cv_height drawingCanvas =? 0)
        then Rejected (invalidState env)
        else
          let b2 := drawScaled (bitmap drawingCanvas) (cv_width drawingCanvas)
                      (cv_height drawingCanvas) width height b1 in
          let mimeType :=
            if String.eqb (imageFile_type env) "image/png"
            then "image/png"%string else "image/jpeg"%string in
          Resolved (toDataURL b2 width height mimeType, mimeType)
  end.

(** The [try] block: the outcome and the effects on the way. *)
Definition submitAttempt (env : SubmitEnv) (drawingCanvas : Canvas)
  : Settled string * list Effect :=
  match composite env drawingCanvas with
  | Rejected t => (Rejected t, [])
  | Resolved (markedImageBase64, mimeType) =>
      (GeminiService.removeObject (ai env) markedImageBase64 mimeType,
       [RemoteCall markedImageBase64 mimeType])
  end.

(** [err instanceof Error ? err.message : 'An unknown error occurred.'] *)
Definition messageOf (err : Thrown) : string :=
  match err with
  | ErrorObject m => m
  | OtherValue => "An unknown error occurred."%string
  end.

Definition is_auth_error (errorMessage : string) : bool :=
  includes errorMessage "Requested entity was not found"
  || includes errorMessage "API key"
  || includes errorMessage "403".

Definition handleProcessImage (env : SubmitEnv) (r : Component) : Component * list Effect :=
  match drawingCanvas r with
  | None => (r, [Alert validation_message])
  | Some drawingCanvas =>
      if historyIndex r =? 0 then (r, [Alert validation_message])
      else
        (* the spinner is rendered; [drawingCanvas] still names the old element *)
        let c1 := commit r (setError None (setIsLoading true r)) in
        match submitAttempt env drawingCanvas with
        | (Resolved resultBase64, fx) =>
            (commit c1 (setIsLoading false c1), fx ++ [OnComplete resultBase64])
        | (Rejected err, fx) =>
            let errorMessage := messageOf err in
            let c2 := setError (Some errorMessage) c1 in
            (commit c1 (setIsLoading false c2),
             fx ++ (if is_auth_error errorMessage then [OnAuthError] else []) ++ [ConsoleError])
        end
  end.

(** ** The component as a transition system *)

Inductive Event :=
| ImageLoaded (imageWidth imageHeight clientWidth innerHeight : Z)
| PointerDown (rect : DOMRect) (e : PointerEvt)   (* onMouseDown, onTouchStart *)
| PointerMove (rect : DOMRect) (e : PointerEvt)   (* onMouseMove, onTouchMove *)
| PointerEnd                                      (* onMouseUp, onMouseLeave, onTouchEnd *)
| BrushChange (value : Z)
| Undo
| Redo
| Clear
| Submit (env : SubmitEnv).

(** One event: the handler of the current render runs, then React renders. *)
Definition dispatch (handler : Component -> Component -> Component) (s : Component)
  : Component :=
  commit s (handler s s).

Definition step (s : Component) (ev : Event) : Component :=
  match ev with
  | ImageLoaded iw ih cw wh => dispatch (fun _ => onload iw ih cw wh) s
  | PointerDown rect e => dispatch (startDrawing rect e) s
  | PointerMove rect e => dispatch (draw rect e) s
  | PointerEnd => dispatch stopDrawing s
  | BrushChange v => dispatch (fun _ => setBrushSize v) s
  | Undo => dispatch handleUndo s
  | Redo => dispatch handleRedo s
  | Clear => dispatch handleClear s
  | Submit env => fst (handleProcessImage env s)
  end.

Definition run (s : Component) (evs : list Event) : Component := fold_left step evs s.

(** A completed stroke: pointer down, any number of moves, pointer up. *)
Record Stroke := {
  stroke_rect : DOMRect;
  stroke_start : PointerEvt;
  stroke_moves : list PointerEvt
}.

Definition strokeEvents (st : Stroke) : list Event :=
  PointerDown (stroke_rect st) (stroke_start st)
    :: map (PointerMove (stroke_rect st)) (stroke_moves st) ++ [PointerEnd].

(** A load: the first one, or the reload that a window resize triggers. *)
Definition is_load (ev : Event) : bool :=
  match ev with
  | ImageLoaded _ _ _ _ => true
  | _ => false
  end.

(** The events that edit the mask: everything but a reload and a submission. *)
Definition editing (ev : Event) : bool :=
  match ev with
  | ImageLoaded _ _ _ _ | Submit _ => false
  | _ => true
  end.

(** ** Editing sessions *)

(** The size the canvases get from a load. *)
Definition canvasSize (imageWidth imageHeight clientWidth innerHeight : Z) : Z * Z :=
  let '(width, height) := displaySize imageWidth imageHeight clientWidth innerHeight in
  (to_long width, to_long height).

(** The initial snapshot of a [w] by [h] canvas: the empty mask. *)
Definition baseline (w h : Z) : ImageData Pixels :=
  {| id_width := w; id_height := h; id_data := transparent w h |}.

(** [Load w h s]: [s] is the component right after an image was loaded
    into the visible editor, giving a canvas of [w] by [h] pixels. *)
Inductive Load (w h : Z) : Component -> Prop :=
| load_intro s iw ih cw wh :
    isLoading s = false ->
    drawingCanvas s <> None ->
    canvasSize iw ih cw wh = (w, h) ->
    0 < w -> 0 < h ->
    Load w h (step s (ImageLoaded iw ih cw wh)).

(** [Session w h s]: [s] is reached from such a load by editing events. *)
Inductive Session (w h : Z) : Component -> Prop :=
| session_load s : Load w h s -> Session w h s
| session_step s ev : Session w h s -> editing ev = true -> Session w h (step s ev).

(** The invariant behind the session properties. *)
Record Loaded (w h : Z) (s : Component) (cv : Canvas) : Prop := {
  loaded_canvas : drawingCanvas s = Some cv;
  loaded_visible : isLoading s = false;
  loaded_width : cv_width cv = w;
  loaded_height : cv_height cv = h;
  loaded_pos : 0 < w /\ 0 < h;
  loaded_index : 0 <= historyIndex s < Z.of_nat (List.length (history s));
  loaded_baseline : hd_error (history s) = Some (baseline w h);
  loaded_fits : Forall (fun d => id_width d = w /\ id_height d = h) (history s);
  loaded_synced : isDrawing s = false ->
                  at_index (history s) (historyIndex s) = getImageData cv
}.

End Editor.

(** ** A recording rasteriser

    For closed examples: a bitmap is represented by the list of paint
    operations applied to a transparent canvas, newest first. *)
Inductive Paint :=
| Stroked (k : Ctx2D Q)
| Put (w h : Z)
| Drawn (sw sh dw dh : Z).

#[export] Instance Recording : Raster Q (list Paint) := {
  transparent := fun _ _ => [];
  strokePath := fun k px => Stroked k :: px;
  putClipped := fun d _ _ px => Put (id_width d) (id_height d) :: px;
  drawScaled := fun _ sw sh dw dh dest => Drawn sw sh dw dh :: dest;
  toDataURL := fun _ _ _ mime => ("data:" ++ mime ++ ";base64,AAAA")%string
}.

Module Demo.

Definition rect : DOMRect (num := Q) :=
  {| left := 10; top := 20; width := 540; height := 540 |}%Q.

(** A 1000 by 1000 image in an 800 pixel wide container, 900 pixel high window. *)
Definition loaded : Component (num := Q) (Pixels := list Paint) :=
  step mounted (ImageLoaded 1000 1000 800 900).

(** One stroke from (100,100) to (200,200). *)
Definition diagonal : Stroke (num := Q) :=
  {| stroke_rect := rect; stroke_start := MouseEvt 110%Q 120%Q;
     stroke_moves := [MouseEvt 210%Q 220%Q] |}.

Definition tap : Stroke (num := Q) :=
  {| stroke_rect := rect; stroke_start := TouchEvt 110%Q 120%Q; stroke_moves := [] |}.

Definition refusal : Response :=
  {| candidates := Some [ {| content := Some {| parts := Some
       [ {| part_text := Some "I cannot edit this image."%string;
            part_inlineData := None |} ] |} |} ] |}.

Definition refusing : SubmitEnv (Pixels := list Paint) :=
  {| imageFile_type := "image/png";
     loadImage := Some {| naturalWidth := 1000; naturalHeight := 1000; image_pixels := [] |};
     compositeContext := true;
     invalidState := ErrorObject "The image argument is a canvas element with a width or height of 0.";
     ai := Client (fun _ => Resolved refusal) |}.

Definition five_strokes : list (Event (num := Q) (Pixels := list Paint)) :=
  List.concat (map strokeEvents [diagonal; tap; diagonal; tap; diagonal]).

End Demo.

(** ** The editor's controls (JSX, lines 289-296)

    The [disabled] props of the four buttons. *)

Section Controls.

Context {num Pixels : Type}.

Definition undoDisabled (s : @Component num Pixels) : bool :=
  historyIndex s <=? 0.

Definition redoDisabled (s : @Component num Pixels) : bool :=
  historyIndex s >=? Z.of_nat (List.length (history s)) - 1.

Definition clearDisabled (s : @Component num Pixels) : bool :=
  historyIndex s <=? 0.

Definition submitDisabled (s : @Component num Pixels) : bool :=
  historyIndex s <=? 0.

End Controls.

(** ** The application shell (App.tsx) *)

Module App.

(** Modelled from the spec: the [AppStep] enum is declared in [./types],
    which is not among the sources; these are the three members App.tsx
    names, in the order of the step indicator (upload, select, download). *)
Inductive AppStep := UPLOAD | EDIT | RESULT.

Definition AppStep_eqb (a b : AppStep) : bool :=
  match a, b with
  | UPLOAD, UPLOAD | EDIT, EDIT | RESULT, RESULT => true
  | _, _ => false
  end.

(** *** StepIndicator, lines 28-67 *)

Definition steps : list (AppStep * string) :=
  [(UPLOAD, "Upload"%string); (EDIT, "Select Object"%string); (RESULT, "Download"%string)].

(** [steps.findIndex(s => s.id === step)] *)
Fixpoint findIndex_from (i : Z) (l : list (AppStep * string)) (step : AppStep) : Z :=
  match l with
  | [] => -1
  | (id, _) :: rest => if AppStep_eqb id step then i else findIndex_from (i + 1) rest step
  end.

Definition getStepIndex (step : AppStep) : Z := findIndex_from 0 steps step.

Definition getStepClass (currentStep step : AppStep) : string :=
  if AppStep_eqb step currentStep then "bg-brand-primary text-white"%string
  else "bg-gray-200 text-gray-500"%string.

(** The connector drawn after the step at [index]: absent after the last
    step, otherwise highlighted or grey. *)
Definition connector (currentStep : AppStep) (index : Z) : option string :=
  if index <? Z.of_nat (List.length steps) - 1 then
    Some (if getStepIndex currentStep >? index then "bg-brand-primary"%string
          else "bg-gray-200"%string)
  else None.

(** *** App, lines 106-202 *)

Section Shell.

Variable File : Type.

Record AppState := {
  hasKey : bool;
  checkingKey : bool;
  step : AppStep;
  originalImage : option File;
  editedImage : option string
}.

Definition initial : AppState :=
  {| hasKey := false; checkingKey := true; step := UPLOAD;
     originalImage := None; editedImage := None |}.

(** What [window.aistudio] answers to [hasSelectedApiKey()], when it exists. *)
Inductive KeyCheck :=
| NoStudio
| Selected (has : bool)
| CheckThrows.

(** checkKey, lines 115-128 *)
Definition checkKey (k : KeyCheck) (s : AppState) : AppState :=
  match k with
  | NoStudio =>
      {| hasKey := true; checkingKey := false; step := step s;
         originalImage := originalImage s; editedImage := editedImage s |}
  | Selected has =>
      {| hasKey := has; checkingKey := false; step := step s;
         originalImage := originalImage s; editedImage := editedImage s |}
  | CheckThrows => s
  end.

(** onKeySelected, line 185 *)
Definition onKeySelected (s : AppState) : AppState :=
  {| hasKey := true; checkingKey := checkingKey s; step := step s;
     originalImage := originalImage s; editedImage := editedImage s |}.

(** The outcome of [aistudio.openSelectKey()], when [window.aistudio] exists. *)
Inductive KeyDialog :=
| NoDialog
| DialogClosed
| DialogThrows.

(** handleSelectKey, lines 72-85, as far as it reaches the App. *)
Definition handleSelectKey (d : KeyDialog) (s : AppState) : AppState :=
  match d with
  | DialogClosed => onKeySelected s
  | NoDialog | DialogThrows => s
  end.

(** handleImageUpload, lines 131-134 *)
Definition handleImageUpload (file : File) (s : AppState) : AppState :=
  {| hasKey := hasKey s; checkingKey := checkingKey s; step := EDIT;
     originalImage := Some file; editedImage := editedImage s |}.

(** handleProcessingComplete, lines 136-139 *)
Definition handleProcessingComplete (originalImageUrl editedImageUrl : string)
    (s : AppState) : AppState :=
  {| hasKey := hasKey s; checkingKey := checkingKey s; step := RESULT;
     originalImage := originalImage s; editedImage := Some editedImageUrl |}.

(** handleStartOver, lines 141-145 *)
Definition handleStartOver (s : AppState) : AppState :=
  {| hasKey := hasKey s; checkingKey := checkingKey s; step := UPLOAD;
     originalImage := None; editedImage := None |}.

(** handleAuthError, lines 147-153; [aistudio] tells whether
    [window.aistudio] exists. *)
Definition handleAuthError (aistudio : bool) (s : AppState) : AppState :=
  if aistudio then
    {| hasKey := false; checkingKey := checkingKey s; step := step s;
       originalImage := originalImage s; editedImage := editedImage s |}
  else s.

(** What the App shows.  [StartOverFallback] is the branch of renderStep
    that calls handleStartOver and renders nothing. *)
Inductive View :=
| SpinnerView
| KeyScreenView
| UploadView
| EditorView (imageFile : File)
| DownloadView (originalImage : File) (editedImage : string)
| StartOverFallback.

(** renderStep, lines 155-174 *)
Definition renderStep (s : AppState) : View :=
  match step s with
  | UPLOAD => UploadView
  | EDIT =>
      match originalImage s with
      | None => StartOverFallback
      | Some file => EditorView file
      end
  | RESULT =>
      match originalImage s, editedImage s with
      | Some file, Some edited => DownloadView file edited
      | _, _ => StartOverFallback
      end
  end.

(** Lines 176-201 *)
Definition render (s : AppState) : View :=
  if checkingKey s then SpinnerView
  else if negb (hasKey s) then KeyScreenView
  else renderStep s.

(** The callbacks the App hands out, with what they are called with. *)
Inductive AppEvent :=
| KeyChecked (k : KeyCheck)
| SelectKey (d : KeyDialog)
| ImageUpload (file : File)
| ProcessingComplete (originalImageUrl editedImageUrl : string)
| AuthError (aistudio : bool)
| StartOver.

Definition app_step (s : AppState) (ev : AppEvent) : AppState :=
  match ev with
  | KeyChecked k => checkKey k s
  | SelectKey d => handleSelectKey d s
  | ImageUpload file => handleImageUpload file s
  | ProcessingComplete o e => handleProcessingComplete o e s
  | AuthError a => handleAuthError a s
  | StartOver => handleStartOver s
  end.

(** A callback is called from the screen it was handed to: the key check
    runs while the spinner is up, [onKeySelected] comes from the key screen,
    [onImageUpload] from FileUpload, [onComplete] and [onAuthError] from
    ImageEditor, [onStartOver] from DownloadScreen. *)
Definition offered (v : View) (ev : AppEvent) : bool :=
  match v, ev with
  | SpinnerView, KeyChecked _ => true
  | KeyScreenView, SelectKey _ => true
  | UploadView, ImageUpload _ => true
  | EditorView _, ProcessingComplete _ _ => true
  | EditorView _, AuthError _ => true
  | DownloadView _ _, StartOver => true
  | _, _ => false
  end.

Inductive Reachable : AppState -> Prop :=
| reach_initial : Reachable initial
| reach_step s ev : Reachable s -> offered (render s) ev = true -> Reachable (app_step s ev).

End Shell.

End App.

(** ** More scenario data *)

Module Scenario.

(** A service that answers with one PNG. *)
Definition picture : Blob :=
  {| blob_data := Some "iVBORw0KGgo="%string; blob_mimeType := Some "image/png"%string |}.

Definition answer : Response :=
  {| candidates := Some [ {| content := Some {| parts := Some
       [ {| part_text := None; part_inlineData := Some (Some picture) |} ] |} |} ] |}.

(** A response whose image comes second, after a text part. *)
Definition image_second : Response :=
  {| candidates := Some [ {| content := Some {| parts := Some
       [ {| part_text := Some "Here is the edited image."%string; part_inlineData := None |};
         {| part_text := None; part_inlineData := Some (Some picture) |} ] |} |} ] |}.

Definition serving : SubmitEnv (Pixels := list Paint) :=
  {| imageFile_type := "image/webp";
     loadImage := Some {| naturalWidth := 4000; naturalHeight := 2000; image_pixels := [] |};
     compositeContext := true;
     invalidState := ErrorObject "The image argument is a canvas element with a width or height of 0.";
     ai := Client (fun _ => Resolved answer) |}.

(** The image cannot be decoded. *)
Definition undecodable : SubmitEnv (Pixels := list Paint) :=
  {| imageFile_type := "image/png";
     loadImage := None;
     compositeContext := true;
     invalidState := OtherValue;
     ai := Client (fun _ => Resolved answer) |}.

(** The service rejects the key. *)
Definition unauthorized : SubmitEnv (Pixels := list Paint) :=
  {| imageFile_type := "image/png";
     loadImage := Some {| naturalWidth := 800; naturalHeight := 600; image_pixels := [] |};
     compositeContext := true;
     invalidState := OtherValue;
     ai := Client (fun _ =>
       Rejected (ErrorObject "API key not valid. Please pass a valid API key.")) |}.

(** A 10000 by 1 image in a 500 pixel wide container: the display height
    is 0.05 and the canvas 500 by 0. *)
Definition sliver : Component (num := Q) (Pixels := list Paint) :=
  step mounted (ImageLoaded 10000 1 500 900).

(** A 3000 by 2 strip in a 1600 pixel wide container: a canvas of 1600
    by 1. *)
Definition strip : Component (num := Q) (Pixels := list Paint) :=
  step mounted (ImageLoaded 3000 2 1600 900).

(** Five strokes on the strip, two of them undone; then the window is
    narrowed to 800 pixels and the reload makes a canvas of 800 by 0. *)
Definition narrowed : Component (num := Q) (Pixels := list Paint) :=
  step (run strip (Demo.five_strokes ++ [Undo; Undo])) (ImageLoaded 3000 2 800 900).

(** Two strokes, one undone (index 1 of 3 entries), then a submission that
    the service answers without an image. *)
Definition refused : Component (num := Q) (Pixels := list Paint) :=
  step (run Demo.loaded (strokeEvents Demo.diagonal ++ strokeEvents Demo.diagonal ++ [Undo]))
       (Submit Demo.refusing).

End Scenario.

(** * Properties *)

(** ** Arrays *)

Lemma slice0_firstn {A} (l : list A) (e : Z) :
  0 <= e -> slice0 l e = firstn (Z.to_nat e) l.
Proof.
  intros He. unfold slice0.
  destruct (e <? 0) eqn:E; [apply Z.ltb_lt in E; lia | reflexivity].
Qed.

Lemma at_index_nth {A} (l : list A) (i : Z) :
  0 <= i -> at_index l i = nth_error l (Z.to_nat i).
Proof.
  intros Hi. unfold at_index.
  destruct (i <? 0) eqn:E; [apply Z.ltb_lt in E; lia | reflexivity].
Qed.

Lemma at_index_in_range {A} (l : list A) (i : Z) :
  0 <= i < Z.of_nat (List.length l) -> exists a, at_index l i = Some a.
Proof.
  intros Hi. rewrite at_index_nth by lia.
  destruct (nth_error l (Z.to_nat i)) eqn:E; [eauto|].
  apply nth_error_None in E. lia.
Qed.

Lemma at_index_last {A} (l : list A) (a : A) :
  at_index (l ++ [a]) (Z.of_nat (List.length l)) = Some a.
Proof.
  rewrite at_index_nth by lia. rewrite Nat2Z.id.
  rewrite nth_error_app2 by lia. now rewrite Nat.sub_diag.
Qed.

Lemma at_index_prefix {A} (l : list A) (n : nat) (a : A) (i : Z) :
  0 <= i < Z.of_nat n -> (n <= List.length l)%nat ->
  at_index (firstn n l ++ [a]) i = at_index l i.
Proof.
  intros Hi Hn. rewrite !at_index_nth by lia.
  rewrite nth_error_app1 by (rewrite length_firstn; lia).
  rewrite nth_error_firstn.
  destruct (Nat.ltb_spec (Z.to_nat i) n); [reflexivity | lia].
Qed.

Lemma hd_error_prefix {A} (l : list A) (n : nat) (a : A) :
  (0 < n)%nat -> l <> [] -> hd_error (firstn n l ++ [a]) = hd_error l.
Proof.
  intros Hn Hl. destruct l as [|x l]; [congruence|].
  destruct n; [lia|]. reflexivity.
Qed.

(** ** The editor *)

Section EditorFacts.

Context {num Pixels : Type} `{Number num} `{Raster num Pixels}.

Lemma getImageData_snapshot (cv : @Canvas num Pixels) :
  0 < cv_width cv -> 0 < cv_height cv -> getImageData cv = Some (snapshot cv).
Proof.
  intros Hw Hh. unfold getImageData.
  destruct (cv_width cv =? 0) eqn:E1; [apply Z.eqb_eq in E1; lia|].
  destruct (cv_height cv =? 0) eqn:E2; [apply Z.eqb_eq in E2; lia|].
  reflexivity.
Qed.

Lemma putImageData_fits (d : ImageData Pixels) (cv : @Canvas num Pixels) :
  id_width d = cv_width cv -> id_height d = cv_height cv ->
  putImageData d cv =
  {| cv_width := cv_width cv; cv_height := cv_height cv; bitmap := id_data d; ctx := ctx cv |}.
Proof.
  intros Hw Hh. unfold putImageData. now rewrite Hw, Hh, !Z.eqb_refl.
Qed.

Lemma commit_visible (prev next : @Component num Pixels) :
  isLoading prev = false -> isLoading next = false -> commit prev next = next.
Proof. intros Hp Hn. unfold commit. now rewrite Hn, Hp. Qed.

(** On a canvas with pixels, a snapshot keeps the entries up to the
    current index and appends the capture. *)
Lemma saveToHistory_appends (r c : @Component num Pixels) (cv : @Canvas num Pixels) :
  drawingCanvas c = Some cv ->
  0 < cv_width cv -> 0 < cv_height cv ->
  0 <= historyIndex r < Z.of_nat (List.length (history r)) ->
  saveToHistory r c =
  setHistoryIndex (historyIndex r + 1)
    (setHistory (firstn (Z.to_nat (historyIndex r + 1)) (history r) ++ [snapshot cv]) c).
Proof.
  intros Hcv Hw Hh Hi. unfold saveToHistory. rewrite Hcv.
  rewrite getImageData_snapshot by assumption.
  rewrite slice0_firstn by lia.
  rewrite length_firstn, Nat.min_l by lia.
  now rewrite Z2Nat.id by lia.
Qed.

(** *** What each event does in a loaded editor *)

Section LoadedSteps.

Variables (w h : Z) (s : @Component num Pixels) (cv : @Canvas num Pixels).
Hypothesis L : Loaded w h s cv.

Lemma Loaded_dims : 0 < cv_width cv /\ 0 < cv_height cv.
Proof. destruct L as [_ _ Hw Hh [? ?] _ _ _ _]. lia. Qed.

Lemma dispatch_visible (handler : @Component num Pixels -> @Component num Pixels -> @Component num Pixels) :
  isLoading (handler s s) = false -> dispatch handler s = handler s s.
Proof. intros Hn. apply commit_visible; [apply L | exact Hn]. Qed.

Lemma step_PointerDown rect e :
  exists k, step s (PointerDown rect e)
            = setIsDrawing true (withCanvas (Some (with_ctx k cv)) s).
Proof.
  simpl. unfold dispatch, startDrawing, getCoordinates.
  rewrite (loaded_canvas _ _ _ _ L). eexists.
  apply commit_visible; [apply L | simpl; apply L].
Qed.

Lemma step_PointerMove_drawing rect e :
  isDrawing s = true ->
  exists k, step s (PointerMove rect e) = withCanvas (Some (stroke (with_ctx k cv))) s.
Proof.
  intros D. simpl. unfold dispatch, draw, getCoordinates.
  rewrite D, (loaded_canvas _ _ _ _ L). simpl. eexists.
  apply commit_visible; [apply L | simpl; apply L].
Qed.

Lemma step_PointerMove_idle rect e :
  isDrawing s = false -> step s (PointerMove rect e) = s.
Proof.
  intros D. simpl. unfold dispatch, draw. rewrite D. simpl.
  apply commit_visible; apply L.
Qed.

Lemma step_PointerEnd_idle :
  isDrawing s = false -> step s PointerEnd = s.
Proof.
  intros D. simpl. unfold dispatch, stopDrawing. rewrite D. simpl.
  apply commit_visible; apply L.
Qed.

Lemma step_PointerEnd_drawing :
  isDrawing s = true ->
  step s PointerEnd =
  setHistoryIndex (historyIndex s + 1)
    (setHistory (firstn (Z.to_nat (historyIndex s + 1)) (history s) ++ [snapshot cv])
       (setIsDrawing false
          (withCanvas (Some (with_ctx (with_path (path (ctx cv) ++ [ClosePath]) (ctx cv)) cv)) s))).
Proof.
  intros D. destruct Loaded_dims as [Hw Hh].
  simpl. unfold dispatch, stopDrawing.
  rewrite D, (loaded_canvas _ _ _ _ L). simpl negb. cbv iota.
  erewrite saveToHistory_appends; [ | reflexivity | exact Hw | exact Hh | apply L].
  apply commit_visible; [apply L | simpl; apply L].
Qed.

Lemma step_Undo_some :
  0 < historyIndex s ->
  exists d, at_index (history s) (historyIndex s - 1) = Some d
            /\ step s Undo = setHistoryIndex (historyIndex s - 1)
                               (withCanvas (Some (putImageData d cv)) s).
Proof.
  intros Hi. pose proof (loaded_index _ _ _ _ L) as Hr.
  destruct (at_index_in_range (history s) (historyIndex s - 1)) as [d Hd]; [lia|].
  exists d. split; [exact Hd|].
  simpl. unfold dispatch, handleUndo.
  destruct (Z.gtb_spec (historyIndex s) 0); [|lia].
  rewrite (loaded_canvas _ _ _ _ L), Hd.
  apply commit_visible; [apply L | simpl; apply L].
Qed.

Lemma step_Undo_none :
  historyIndex s <= 0 -> step s Undo = s.
Proof.
  intros Hi. simpl. unfold dispatch, handleUndo.
  destruct (Z.gtb_spec (historyIndex s) 0); [lia|].
  apply commit_visible; apply L.
Qed.

Lemma step_Redo_some :
  historyIndex s < Z.of_nat (List.length (history s)) - 1 ->
  exists d, at_index (history s) (historyIndex s + 1) = Some d
            /\ step s Redo = setHistoryIndex (historyIndex s + 1)
                               (withCanvas (Some (putImageData d cv)) s).
Proof.
  intros Hi. pose proof (loaded_index _ _ _ _ L) as Hr.
  destruct (at_index_in_range (history s) (historyIndex s + 1)) as [d Hd]; [lia|].
  exists d. split; [exact Hd|].
  simpl. unfold dispatch, handleRedo.
  destruct (historyIndex s <? Z.of_nat (List.length (history s)) - 1) eqn:E;
    [|apply Z.ltb_ge in E; lia].
  rewrite (loaded_canvas _ _ _ _ L), Hd.
  apply commit_visible; [apply L | simpl; apply L].
Qed.

Lemma step_Redo_none :
  Z.of_nat (List.length (history s)) - 1 <= historyIndex s -> step s Redo = s.
Proof.
  intros Hi. simpl. unfold dispatch, handleRedo.
  destruct (historyIndex s <? Z.of_nat (List.length (history s)) - 1) eqn:E;
    [apply Z.ltb_lt in E; lia|].
  apply commit_visible; apply L.
Qed.

(** The snapshot taken by [handleClear] is computed from the history and
    the index of the render that created the handler: the two [set]
    calls before it are overwritten. *)
Lemma step_Clear :
  step s Clear =
  setHistoryIndex (historyIndex s + 1)
    (setHistory (firstn (Z.to_nat (historyIndex s + 1)) (history s)
                 ++ [snapshot (putImageData (baseline w h) cv)])
       (withCanvas (Some (putImageData (baseline w h) cv)) s)).
Proof.
  destruct Loaded_dims as [Hw Hh].
  pose proof (loaded_baseline _ _ _ _ L) as Hb.
  simpl. unfold dispatch, handleClear.
  rewrite (loaded_canvas _ _ _ _ L).
  destruct (history s) as [|h0 hs] eqn:Eh; [discriminate|].
  simpl in Hb. injection Hb as ->. cbv zeta.
  erewrite saveToHistory_appends;
    [ | reflexivity | exact Hw | exact Hh | apply L].
  rewrite commit_visible; [ | apply L | simpl; apply L].
  rewrite Eh. reflexivity.
Qed.

End LoadedSteps.

(** *** What each event does on a mounted canvas of any size *)

Lemma getImageData_nonzero (cv : @Canvas num Pixels) :
  cv_width cv <> 0 -> cv_height cv <> 0 -> getImageData cv = Some (snapshot cv).
Proof.
  intros Hw Hh. unfold getImageData.
  destruct (Z.eqb_spec (cv_width cv) 0); [contradiction|].
  destruct (Z.eqb_spec (cv_height cv) 0); [contradiction|]. reflexivity.
Qed.

Lemma getImageData_zero (cv : @Canvas num Pixels) :
  cv_width cv = 0 \/ cv_height cv = 0 -> getImageData cv = None.
Proof.
  intros [E|E]; unfold getImageData; rewrite E; [reflexivity|].
  now rewrite orb_true_r.
Qed.

Lemma commit_history (prev next : @Component num Pixels) :
  history (commit prev next) = history next
  /\ historyIndex (commit prev next) = historyIndex next.
Proof.
  unfold commit. destruct (isLoading next); [auto|]. destruct (isLoading prev); auto.
Qed.

Section MountedSteps.

Variables (s : @Component num Pixels) (cv : @Canvas num Pixels).
Hypothesis Hc : drawingCanvas s = Some cv.
Hypothesis Hv : isLoading s = false.

Lemma mounted_PointerDown rect e :
  exists k, step s (PointerDown rect e)
            = setIsDrawing true (withCanvas (Some (with_ctx k cv)) s).
Proof.
  simpl. unfold dispatch, startDrawing, getCoordinates. rewrite Hc. eexists.
  apply commit_visible; [exact Hv | exact Hv].
Qed.

Lemma mounted_PointerMove_drawing rect e :
  isDrawing s = true ->
  exists k, step s (PointerMove rect e) = withCanvas (Some (stroke (with_ctx k cv))) s.
Proof.
  intros D. simpl. unfold dispatch, draw, getCoordinates.
  rewrite D, Hc. simpl. eexists. apply commit_visible; [exact Hv | exact Hv].
Qed.

Lemma mounted_PointerMove_idle rect e :
  isDrawing s = false -> step s (PointerMove rect e) = s.
Proof.
  intros D. simpl. unfold dispatch, draw. rewrite D. simpl.
  apply commit_visible; exact Hv.
Qed.

Lemma mounted_PointerEnd_idle :
  isDrawing s = false -> step s PointerEnd = s.
Proof.
  intros D. simpl. unfold dispatch, stopDrawing. rewrite D. simpl.
  apply commit_visible; exact Hv.
Qed.

(** The capture of a canvas without pixels fails, and with it the rest of
    [saveToHistory]: the stroke ends and the history is not written. *)
Lemma mounted_PointerEnd_empty :
  isDrawing s = true -> cv_width cv = 0 \/ cv_height cv = 0 ->
  step s PointerEnd =
  setIsDrawing false
    (withCanvas (Some (with_ctx (with_path (path (ctx cv) ++ [ClosePath]) (ctx cv)) cv)) s).
Proof.
  intros D Hz. simpl. unfold dispatch, stopDrawing, saveToHistory.
  rewrite D, Hc. simpl negb. cbv iota.
  cbn [drawingCanvas setIsDrawing withCanvas].
  rewrite getImageData_zero by exact Hz.
  apply commit_visible; [exact Hv | exact Hv].
Qed.

Lemma mounted_PointerEnd_capture :
  isDrawing s = true -> cv_width cv <> 0 -> cv_height cv <> 0 ->
  step s PointerEnd =
  setHistoryIndex (Z.of_nat (List.length (slice0 (history s) (historyIndex s + 1))))
    (setHistory (slice0 (history s) (historyIndex s + 1)
                 ++ [{| id_width := cv_width cv; id_height := cv_height cv;
                        id_data := bitmap cv |}])
       (setIsDrawing false
          (withCanvas (Some (with_ctx (with_path (path (ctx cv) ++ [ClosePath]) (ctx cv)) cv)) s))).
Proof.
  intros D Hw Hh. simpl. unfold dispatch, stopDrawing, saveToHistory.
  rewrite D, Hc. simpl negb. cbv iota.
  cbn [drawingCanvas setIsDrawing withCanvas].
  rewrite getImageData_nonzero by assumption.
  apply commit_visible; [exact Hv | exact Hv].
Qed.

Lemma mounted_Undo d :
  0 < historyIndex s -> at_index (history s) (historyIndex s - 1) = Some d ->
  step s Undo = setHistoryIndex (historyIndex s - 1) (withCanvas (Some (putImageData d cv)) s).
Proof.
  intros Hi Hd. simpl. unfold dispatch, handleUndo.
  destruct (Z.gtb_spec (historyIndex s) 0); [|lia].
  rewrite Hc, Hd. apply commit_visible; [exact Hv | exact Hv].
Qed.

Lemma mounted_Undo_none :
  historyIndex s <= 0 -> step s Undo = s.
Proof.
  intros Hi. simpl. unfold dispatch, handleUndo.
  destruct (Z.gtb_spec (historyIndex s) 0); [lia|].
  apply commit_visible; exact Hv.
Qed.

Lemma mounted_Redo d :
  historyIndex s < Z.of_nat (List.length (history s)) - 1 ->
  at_index (history s) (historyIndex s + 1) = Some d ->
  step s Redo = setHistoryIndex (historyIndex s + 1) (withCanvas (Some (putImageData d cv)) s).
Proof.
  intros Hi Hd. simpl. unfold dispatch, handleRedo.
  destruct (Z.ltb_spec (historyIndex s) (Z.of_nat (List.length (history s)) - 1)); [|lia].
  rewrite Hc, Hd. apply commit_visible; [exact Hv | exact Hv].
Qed.

Lemma mounted_Redo_none :
  Z.of_nat (List.length (history s)) - 1 <= historyIndex s -> step s Redo = s.
Proof.
  intros Hi. simpl. unfold dispatch, handleRedo.
  destruct (Z.ltb_spec (historyIndex s) (Z.of_nat (List.length (history s)) - 1)); [lia|].
  apply commit_visible; exact Hv.
Qed.

Lemma mounted_Clear_empty :
  history s = [] -> step s Clear = s.
Proof.
  intros Hh. simpl. unfold dispatch, handleClear. rewrite Hc, Hh.
  apply commit_visible; exact Hv.
Qed.

Lemma mounted_BrushChange v :
  step s (BrushChange v) = setBrushSize v s.
Proof. simpl. unfold dispatch. apply commit_visible; exact Hv. Qed.

End MountedSteps.

(** *** The invariant is kept *)

Lemma Forall_prefix {A} (P : A -> Prop) (l : list A) (n : nat) :
  Forall P l -> Forall P (firstn n l).
Proof.
  intros Hl. rewrite <- (firstn_skipn n l) in Hl. now apply Forall_app in Hl.
Qed.

Lemma at_index_Forall {A} (P : A -> Prop) (l : list A) (i : Z) (a : A) :
  Forall P l -> at_index l i = Some a -> P a.
Proof.
  intros Hl Ha. unfold at_index in Ha. destruct (i <? 0); [discriminate|].
  apply nth_error_In in Ha. rewrite Forall_forall in Hl. auto.
Qed.

Lemma snapshot_restored (d : ImageData Pixels) (cv : @Canvas num Pixels) :
  id_width d = cv_width cv -> id_height d = cv_height cv ->
  snapshot (putImageData d cv) = d.
Proof.
  intros Hw Hh. rewrite putImageData_fits by assumption.
  destruct d; simpl in *; subst. reflexivity.
Qed.

(** A state whose history is a prefix of the old one followed by a capture
    of its canvas. *)
Lemma Loaded_appended w h (s s' : @Component num Pixels) (cv cv' : @Canvas num Pixels) :
  Loaded w h s cv ->
  drawingCanvas s' = Some cv' -> isLoading s' = false ->
  cv_width cv' = w -> cv_height cv' = h ->
  history s' = firstn (Z.to_nat (historyIndex s + 1)) (history s) ++ [snapshot cv'] ->
  historyIndex s' = historyIndex s + 1 ->
  Loaded w h s' cv'.
Proof.
  intros L Hc Hv Hw Hh Hhist Hidx.
  pose proof (loaded_index _ _ _ _ L) as Hr.
  pose proof (loaded_pos _ _ _ _ L) as Hp.
  assert (Hlen : List.length (firstn (Z.to_nat (historyIndex s + 1)) (history s))
                 = Z.to_nat (historyIndex s + 1))
    by (rewrite length_firstn; lia).
  constructor; try assumption.
  - rewrite Hhist, Hidx, length_app, Hlen. simpl. lia.
  - rewrite Hhist, hd_error_prefix; [apply L | lia | ].
    intros E. rewrite E in Hr. simpl in Hr. lia.
  - rewrite Hhist. apply Forall_app. split.
    + apply Forall_prefix, L.
    + constructor; [|constructor]. simpl. auto.
  - intros _. rewrite Hhist, Hidx.
    rewrite getImageData_snapshot by lia.
    replace (historyIndex s + 1) with
      (Z.of_nat (List.length (firstn (Z.to_nat (historyIndex s + 1)) (history s))))
      at 2 by (rewrite Hlen; lia).
    apply at_index_last.
Qed.

(** A state whose canvas was restored from the entry at its new index. *)
Lemma Loaded_restored w h (s s' : @Component num Pixels) (cv : @Canvas num Pixels) d :
  Loaded w h s cv ->
  at_index (history s) (historyIndex s') = Some d ->
  0 <= historyIndex s' ->
  drawingCanvas s' = Some (putImageData d cv) -> isLoading s' = false ->
  history s' = history s ->
  Loaded w h s' (putImageData d cv).
Proof.
  intros L Hd Hi Hc Hv Hhist.
  destruct (at_index_Forall _ _ _ _ (loaded_fits _ _ _ _ L) Hd) as [Hdw Hdh].
  pose proof (loaded_width _ _ _ _ L) as Hw.
  pose proof (loaded_height _ _ _ _ L) as Hh.
  pose proof (loaded_pos _ _ _ _ L) as Hp.
  constructor; try assumption; try (simpl; assumption).
  - rewrite Hhist. split; [assumption|].
    rewrite at_index_nth in Hd by assumption.
    assert (nth_error (history s) (Z.to_nat (historyIndex s')) <> None) as Hn by congruence.
    apply nth_error_Some in Hn. lia.
  - rewrite Hhist. apply L.
  - rewrite Hhist. apply L.
  - intros _. rewrite Hhist, Hd.
    rewrite getImageData_snapshot by (simpl; lia).
    now rewrite snapshot_restored by congruence.
Qed.

Lemma step_Loaded w h (s : @Component num Pixels) (cv : @Canvas num Pixels) ev :
  Loaded w h s cv -> editing ev = true ->
  exists cv', Loaded w h (step s ev) cv'.
Proof.
  intros L Hev.
  destruct ev as [? ? ? ?|rect e|rect e| |v| | | |env]; try discriminate.
  - destruct (step_PointerDown _ _ _ _ L rect e) as [k ->].
    exists (with_ctx k cv). destruct L. constructor; try assumption; try reflexivity.
    discriminate.
  - destruct (isDrawing s) eqn:D.
    + destruct (step_PointerMove_drawing _ _ _ _ L rect e D) as [k ->].
      exists (stroke (with_ctx k cv)).
      destruct L. constructor; try assumption; try reflexivity.
      simpl. congruence.
    + rewrite (step_PointerMove_idle _ _ _ _ L rect e D). eauto.
  - destruct (isDrawing s) eqn:D.
    + rewrite (step_PointerEnd_drawing _ _ _ _ L D).
      eexists. eapply Loaded_appended; try exact L; try reflexivity; apply L.
    + rewrite (step_PointerEnd_idle _ _ _ _ L D). eauto.
  - exists cv. simpl. rewrite dispatch_visible with (w := w) (h := h) (cv := cv);
      [ | exact L | apply L].
    destruct L. constructor; assumption.
  - destruct (Z_lt_le_dec 0 (historyIndex s)) as [Hi|Hi].
    + destruct (step_Undo_some _ _ _ _ L Hi) as (d & Hd & ->).
      eexists. eapply Loaded_restored; try exact L; try reflexivity;
        [exact Hd | simpl; lia | apply L].
    + rewrite (step_Undo_none _ _ _ _ L Hi). eauto.
  - destruct (Z_lt_le_dec (historyIndex s) (Z.of_nat (List.length (history s)) - 1))
      as [Hi|Hi].
    + destruct (step_Redo_some _ _ _ _ L Hi) as (d & Hd & ->).
      pose proof (loaded_index _ _ _ _ L).
      eexists. eapply Loaded_restored; try exact L; try reflexivity;
        [exact Hd | simpl; lia | apply L].
    + rewrite (step_Redo_none _ _ _ _ L Hi). eauto.
  - rewrite (step_Clear _ _ _ _ L).
    eexists. eapply Loaded_appended; try exact L; try reflexivity; apply L.
Qed.

Lemma Load_Loaded w h (s : @Component num Pixels) :
  Load w h s ->
  Loaded w h s (sizedCanvas w h) /\ history s = [baseline w h] /\ historyIndex s = 0.
Proof.
  intros [s0 iw ih cw wh Hv Hc Hsize Hw Hh].
  assert (E : step s0 (ImageLoaded iw ih cw wh)
              = setHistoryIndex 0 (setHistory [baseline w h]
                  (withCanvas (Some (sizedCanvas w h)) s0))).
  { simpl. unfold dispatch, onload.
    destruct (drawingCanvas s0) as [c0|]; [|congruence].
    unfold canvasSize in Hsize.
    destruct (displaySize iw ih cw wh) as [wd ht]. injection Hsize as -> ->.
    rewrite getImageData_snapshot by (simpl; lia).
    apply commit_visible; [exact Hv | exact Hv]. }
  rewrite E. split; [|split; reflexivity].
  constructor; try reflexivity; try assumption; simpl; try lia.
  - repeat constructor.
  - intros _. now rewrite getImageData_snapshot by (simpl; lia).
Qed.

Lemma Session_Loaded w h (s : @Component num Pixels) :
  Session w h s -> exists cv, Loaded w h s cv.
Proof.
  induction 1 as [s HL | s ev _ [cv L] Hev].
  - exists (sizedCanvas w h). now apply Load_Loaded.
  - eapply step_Loaded; eassumption.
Qed.

Lemma run_app (s : @Component num Pixels) (evs1 evs2 : list Event) :
  run s (evs1 ++ evs2) = run (run s evs1) evs2.
Proof. apply fold_left_app. Qed.

Lemma run_cons (s : @Component num Pixels) (ev : Event) (evs : list Event) :
  run s (ev :: evs) = run (step s ev) evs.
Proof. reflexivity. Qed.

Lemma Session_run w h (s : @Component num Pixels) (evs : list Event) :
  Session w h s -> forallb editing evs = true -> Session w h (run s evs).
Proof.
  revert s. induction evs as [|ev evs IH]; intros s S Hevs; [exact S|].
  simpl in Hevs. apply andb_prop in Hevs as [Hev Hevs].
  simpl. apply IH; [|exact Hevs]. now apply session_step.
Qed.

Lemma editing_strokeEvents (st : @Stroke num) :
  forallb (editing (Pixels := Pixels)) (strokeEvents st) = true.
Proof.
  unfold strokeEvents. simpl. rewrite forallb_app. simpl.
  rewrite andb_true_r. induction (stroke_moves st); [reflexivity | assumption].
Qed.

(** *** Strokes *)

Lemma moves_run w h rect (moves : list PointerEvt) :
  forall (s : @Component num Pixels) (cv : @Canvas num Pixels),
  Loaded w h s cv -> isDrawing s = true ->
  exists cv', Loaded w h (run s (map (PointerMove rect) moves)) cv'
              /\ isDrawing (run s (map (PointerMove rect) moves)) = true
              /\ history (run s (map (PointerMove rect) moves)) = history s
              /\ historyIndex (run s (map (PointerMove rect) moves)) = historyIndex s.
Proof.
  induction moves as [|e moves IH]; intros s cv L D.
  - exists cv. auto.
  - cbn [map]. rewrite run_cons.
    destruct (step_PointerMove_drawing _ _ _ _ L rect e D) as [k E].
    destruct (step_Loaded _ _ _ _ (PointerMove rect e) L eq_refl) as [cv1 L1].
    assert (D1 : isDrawing (step s (PointerMove rect e)) = true) by (rewrite E; exact D).
    destruct (IH _ _ L1 D1) as (cv' & L' & D' & Hh & Hi).
    exists cv'. split; [exact L'|split; [exact D'|split]].
    + rewrite Hh, E. reflexivity.
    + rewrite Hi, E. reflexivity.
Qed.

(** A completed stroke appends one capture after the entries up to the
    current index. *)
Lemma stroke_run w h (s : @Component num Pixels) (cv : @Canvas num Pixels) (st : Stroke) :
  Loaded w h s cv ->
  exists cv', Loaded w h (run s (strokeEvents st)) cv'
    /\ isDrawing (run s (strokeEvents st)) = false
    /\ history (run s (strokeEvents st))
       = firstn (Z.to_nat (historyIndex s + 1)) (history s) ++ [snapshot cv']
    /\ historyIndex (run s (strokeEvents st)) = historyIndex s + 1
    /\ (stroke_moves st = [] -> bitmap cv' = bitmap cv).
Proof.
  intros L. unfold strokeEvents. rewrite run_cons, run_app.
  destruct (step_PointerDown _ _ _ _ L (stroke_rect st) (stroke_start st)) as [k E].
  destruct (step_Loaded _ _ _ _ (PointerDown (stroke_rect st) (stroke_start st)) L eq_refl)
    as [cv1 L1].
  assert (D1 : isDrawing (step s (PointerDown (stroke_rect st) (stroke_start st))) = true)
    by (rewrite E; reflexivity).
  destruct (moves_run _ _ (stroke_rect st) (stroke_moves st) _ _ L1 D1)
    as (cv2 & L2 & D2 & Hh & Hi).
  assert (Htap : stroke_moves st = [] -> bitmap cv2 = bitmap cv).
  { intros Hm. rewrite Hm in L2. cbn [map run fold_left] in L2.
    pose proof (loaded_canvas _ _ _ _ L2) as C2. rewrite E in C2. simpl in C2.
    injection C2 as <-. reflexivity. }
  assert (Hh1 : history (step s (PointerDown (stroke_rect st) (stroke_start st)))
                = history s) by (rewrite E; reflexivity).
  assert (Hi1 : historyIndex (step s (PointerDown (stroke_rect st) (stroke_start st)))
                = historyIndex s) by (rewrite E; reflexivity).
  rewrite Hh1 in Hh. rewrite Hi1 in Hi.
  remember (run (step s (PointerDown (stroke_rect st) (stroke_start st)))
                (map (PointerMove (stroke_rect st)) (stroke_moves st))) as s2 eqn:Es2.
  clear Es2 E L1 D1 Hh1 Hi1.
  change (run s2 [PointerEnd]) with (step s2 PointerEnd).
  pose proof (step_PointerEnd_drawing _ _ _ _ L2 D2) as E2.
  exists (with_ctx (with_path (path (ctx cv2) ++ [ClosePath]) (ctx cv2)) cv2).
  split; [|split; [|split; [|split]]].
  - eapply Loaded_appended; [exact L2 | rewrite E2; reflexivity | rewrite E2; apply L2
                             | apply L2 | apply L2 | rewrite E2; reflexivity
                             | rewrite E2; reflexivity].
  - rewrite E2. reflexivity.
  - rewrite E2, <- Hh, <- Hi. reflexivity.
  - rewrite E2, <- Hi. reflexivity.
  - exact Htap.
Qed.

Lemma strokes_run w h (strokes : list Stroke) :
  forall (s : @Component num Pixels) (cv : @Canvas num Pixels),
  Loaded w h s cv ->
  historyIndex s = Z.of_nat (List.length (history s)) - 1 ->
  exists cv',
    Loaded w h (run s (List.concat (map strokeEvents strokes))) cv'
    /\ List.length (history (run s (List.concat (map strokeEvents strokes))))
       = (List.length (history s) + List.length strokes)%nat
    /\ historyIndex (run s (List.concat (map strokeEvents strokes)))
       = Z.of_nat (List.length (history s) + List.length strokes) - 1.
Proof.
  induction strokes as [|st strokes IH]; intros s cv L Hi.
  - exists cv. simpl. rewrite Nat.add_0_r. auto.
  - cbn [map List.concat]. rewrite run_app.
    destruct (stroke_run _ _ _ _ st L) as (cv1 & L1 & _ & Hh1 & Hi1 & _).
    pose proof (loaded_index _ _ _ _ L) as Hr.
    assert (Hlen : List.length (history (run s (strokeEvents st)))
                   = S (List.length (history s))).
    { rewrite Hh1, length_app, length_firstn. simpl. lia. }
    assert (Hlast : historyIndex (run s (strokeEvents st))
                    = Z.of_nat (List.length (history (run s (strokeEvents st)))) - 1)
      by (rewrite Hi1, Hlen; lia).
    destruct (IH _ _ L1 Hlast) as (cv' & L' & Hh' & Hi').
    exists cv'. split; [exact L'|]. rewrite Hh', Hi', Hlen. cbn [List.length]. split; lia.
Qed.

(** C1 (as the code behaves).  After a load and N completed strokes,
    [handleClear] leaves a history of N + 2 entries with the index at
    N + 1: the entries of the N strokes are kept and one capture of the
    emptied mask is appended.  The history has length 2 and index 1 only
    for N = 0. *)
Theorem clear_keeps_strokes w h (s0 : @Component num Pixels) (strokes : list Stroke) :
  Load w h s0 ->
  List.length (history (run s0 (List.concat (map strokeEvents strokes) ++ [Clear])))
  = (List.length strokes + 2)%nat
  /\ historyIndex (run s0 (List.concat (map strokeEvents strokes) ++ [Clear]))
     = Z.of_nat (List.length strokes) + 1.
Proof.
  intros HL. destruct (Load_Loaded _ _ _ HL) as (L0 & Hh0 & Hi0).
  assert (Hlast : historyIndex s0 = Z.of_nat (List.length (history s0)) - 1)
    by (rewrite Hh0, Hi0; reflexivity).
  destruct (strokes_run _ _ strokes _ _ L0 Hlast) as (cv & L & Hh & Hi).
  rewrite Hh0 in Hh, Hi. simpl List.length in Hh, Hi.
  rewrite run_app. cbn [run fold_left].
  change (fold_left step (List.concat (map strokeEvents strokes)) s0)
    with (run s0 (List.concat (map strokeEvents strokes))).
  rewrite (step_Clear _ _ _ _ L).
  cbn [history historyIndex setHistoryIndex setHistory].
  rewrite length_app, length_firstn, Hh, Hi. cbn [List.length]. split; lia.
Qed.

(** *** Strokes on a mounted canvas of any size *)

Lemma moves_mounted rect (moves : list PointerEvt) :
  forall (s : @Component num Pixels) (cv : @Canvas num Pixels),
  drawingCanvas s = Some cv -> isLoading s = false -> isDrawing s = true ->
  exists cv',
    drawingCanvas (run s (map (PointerMove rect) moves)) = Some cv'
    /\ isLoading (run s (map (PointerMove rect) moves)) = false
    /\ isDrawing (run s (map (PointerMove rect) moves)) = true
    /\ history (run s (map (PointerMove rect) moves)) = history s
    /\ historyIndex (run s (map (PointerMove rect) moves)) = historyIndex s
    /\ cv_width cv' = cv_width cv /\ cv_height cv' = cv_height cv
    /\ (moves = [] -> bitmap cv' = bitmap cv).
Proof.
  induction moves as [|e moves IH]; intros s cv Hc Hv D.
  - exists cv. cbn [map run fold_left]. auto 10.
  - cbn [map]. rewrite run_cons.
    destruct (mounted_PointerMove_drawing _ _ Hc Hv rect e D) as [k E].
    destruct (IH (step s (PointerMove rect e)) (stroke (with_ctx k cv)))
      as (cv' & Hc' & Hv' & D' & Hh & Hi & Hw & Hht & _);
      [rewrite E; reflexivity | rewrite E; exact Hv | rewrite E; exact D|].
    exists cv'. rewrite Hc', Hv', D', Hh, Hi, Hw, Hht, E.
    repeat (split; [reflexivity|]). discriminate.
Qed.

(** The state in which the pointer is released at the end of a stroke. *)
Lemma stroke_released (s : @Component num Pixels) (cv : @Canvas num Pixels) (st : Stroke) :
  drawingCanvas s = Some cv -> isLoading s = false ->
  exists s2 cv2,
    run s (strokeEvents st) = step s2 PointerEnd
    /\ drawingCanvas s2 = Some cv2 /\ isLoading s2 = false /\ isDrawing s2 = true
    /\ history s2 = history s /\ historyIndex s2 = historyIndex s
    /\ cv_width cv2 = cv_width cv /\ cv_height cv2 = cv_height cv
    /\ (stroke_moves st = [] -> bitmap cv2 = bitmap cv).
Proof.
  intros Hc Hv. unfold strokeEvents. rewrite run_cons, run_app.
  destruct (mounted_PointerDown _ _ Hc Hv (stroke_rect st) (stroke_start st)) as [k E].
  destruct (moves_mounted (stroke_rect st) (stroke_moves st)
              (step s (PointerDown (stroke_rect st) (stroke_start st))) (with_ctx k cv))
    as (cv2 & Hc2 & Hv2 & D2 & Hh & Hi & Hw & Hht & Hb);
    [rewrite E; reflexivity | rewrite E; exact Hv | rewrite E; reflexivity|].
  eexists. exists cv2. split; [reflexivity|].
  rewrite Hc2, Hv2, D2, Hh, Hi, Hw, Hht, E.
  repeat (split; [reflexivity|]). exact Hb.
Qed.

(** A completed stroke on a canvas without pixels leaves the history and
    the index as they were. *)
Lemma stroke_on_empty_canvas (s : @Component num Pixels) (cv : @Canvas num Pixels)
    (st : Stroke) :
  drawingCanvas s = Some cv -> isLoading s = false ->
  cv_width cv = 0 \/ cv_height cv = 0 ->
  history (run s (strokeEvents st)) = history s
  /\ historyIndex (run s (strokeEvents st)) = historyIndex s
  /\ isDrawing (run s (strokeEvents st)) = false
  /\ isLoading (run s (strokeEvents st)) = false
  /\ exists cv', drawingCanvas (run s (strokeEvents st)) = Some cv'
                 /\ cv_width cv' = cv_width cv /\ cv_height cv' = cv_height cv.
Proof.
  intros Hc Hv Hz.
  destruct (stroke_released s cv st Hc Hv)
    as (s2 & cv2 & E & Hc2 & Hv2 & D2 & Hh & Hi & Hw & Hht & _).
  rewrite E, (mounted_PointerEnd_empty _ _ Hc2 Hv2 D2) by (rewrite Hw, Hht; exact Hz).
  cbn [history historyIndex isDrawing isLoading drawingCanvas setIsDrawing withCanvas].
  repeat (split; [assumption || reflexivity|]).
  eexists. split; [reflexivity|]. cbn [cv_width cv_height with_ctx]. auto.
Qed.

(** C3 (as the code behaves on a canvas without pixels).  When the mask
    canvas has width or height 0, the capture inside [saveToHistory] fails
    (line 81) before either [set] call: the function changes nothing.  So a
    completed stroke drops no entry after the index, appends no snapshot
    and leaves the index where it was: the entry after the index, if there
    is one, is still the one from before the undo. *)
Theorem snapshot_on_empty_canvas_keeps_future (s : @Component num Pixels)
    (cv : @Canvas num Pixels) (st : Stroke) :
  cv_width cv = 0 \/ cv_height cv = 0 ->
  (forall r c, drawingCanvas c = Some cv -> saveToHistory r c = c)
  /\ (drawingCanvas s = Some cv -> isLoading s = false ->
      history (run s (strokeEvents st)) = history s
      /\ historyIndex (run s (strokeEvents st)) = historyIndex s
      /\ at_index (history (run s (strokeEvents st))) (historyIndex s + 1)
         = at_index (history s) (historyIndex s + 1)).
Proof.
  intros Hz. split.
  - intros r c Hc. unfold saveToHistory. rewrite Hc.
    now rewrite getImageData_zero by exact Hz.
  - intros Hc Hv.
    destruct (stroke_on_empty_canvas s cv st Hc Hv Hz) as (Hh & Hi & _).
    rewrite Hh. auto.
Qed.

(** C9 (as the code behaves on a canvas without pixels).  A stroke end with
    no stroke active changes nothing, as claimed.  But a completed stroke,
    with or without moves, on a mounted canvas of width or height 0 adds no
    history entry: history and index are what they were before the stroke. *)
Theorem stroke_on_empty_canvas_adds_no_entry (s : @Component num Pixels)
    (cv : @Canvas num Pixels) (st : Stroke) :
  drawingCanvas s = Some cv -> isLoading s = false ->
  cv_width cv = 0 \/ cv_height cv = 0 ->
  (isDrawing s = false -> step s PointerEnd = s)
  /\ history (run s (strokeEvents st)) = history s
  /\ historyIndex (run s (strokeEvents st)) = historyIndex s.
Proof.
  intros Hc Hv Hz. split; [apply (mounted_PointerEnd_idle _ Hv)|].
  destruct (stroke_on_empty_canvas s cv st Hc Hv Hz) as (Hh & Hi & _).
  split; assumption.
Qed.

Lemma undo_redo_identity w h (s : @Component num Pixels) :
  Session w h s -> isDrawing s = false -> 0 < historyIndex s ->
  run s [Undo; Redo] = s.
Proof.
  intros S D Hi. destruct (Session_Loaded _ _ _ S) as [cv L].
  pose proof (loaded_index _ _ _ _ L) as Hr.
  cbn [run fold_left].
  destruct (step_Undo_some _ _ _ _ L Hi) as (d1 & Hd1 & E1).
  destruct (step_Loaded _ _ _ _ Undo L eq_refl) as [cv1 L1].
  assert (C1 : cv1 = putImageData d1 cv).
  { pose proof (loaded_canvas _ _ _ _ L1) as C. rewrite E1 in C. simpl in C. congruence. }
  subst cv1.
  assert (Hbelow : historyIndex (step s Undo)
                   < Z.of_nat (List.length (history (step s Undo))) - 1)
    by (rewrite E1; simpl; lia).
  destruct (step_Redo_some _ _ _ _ L1 Hbelow) as (d2 & Hd2 & E2).
  rewrite E2. rewrite E1 in Hd2 |- *. simpl in Hd2 |- *.
  replace (historyIndex s - 1 + 1) with (historyIndex s) in * by lia.
  rewrite (loaded_synced _ _ _ _ L D) in Hd2.
  destruct (Loaded_dims _ _ _ _ L) as [Hw Hh].
  rewrite getImageData_snapshot in Hd2 by assumption. injection Hd2 as <-.
  destruct (at_index_Forall _ _ _ _ (loaded_fits _ _ _ _ L) Hd1) as [Hw1 Hh1].
  rewrite <- (loaded_width _ _ _ _ L) in Hw1. rewrite <- (loaded_height _ _ _ _ L) in Hh1.
  rewrite (putImageData_fits d1 cv) by assumption.
  rewrite putImageData_fits by reflexivity.
  pose proof (loaded_canvas _ _ _ _ L) as C.
  destruct s, cv. simpl in *. unfold setHistoryIndex, withCanvas. simpl.
  rewrite C. reflexivity.
Qed.

(** X31.  In a session (a load followed by editing events, without a
    submission) with no stroke in progress and the index strictly between 0
    and the last position, undo followed by redo leaves the pixels of the
    mask canvas, the index and the history as they were. *)
Theorem undo_redo_restores w h (s : @Component num Pixels) :
  Session w h s -> isDrawing s = false ->
  0 < historyIndex s < Z.of_nat (List.length (history s)) - 1 ->
  option_map bitmap (drawingCanvas (run s [Undo; Redo])) = option_map bitmap (drawingCanvas s)
  /\ historyIndex (run s [Undo; Redo]) = historyIndex s
  /\ history (run s [Undo; Redo]) = history s.
Proof.
  intros S D Hi. rewrite (undo_redo_identity _ _ _ S D) by lia. auto.
Qed.

(** *** The history after a load that captured nothing *)

Lemma empty_history_kept (s : @Component num Pixels) (ev : Event) :
  editing ev = true ->
  (history s = [] /\ historyIndex s = -1 /\ isLoading s = false
   /\ exists cv, drawingCanvas s = Some cv /\ (cv_width cv = 0 \/ cv_height cv = 0)) ->
  history (step s ev) = [] /\ historyIndex (step s ev) = -1
  /\ isLoading (step s ev) = false
  /\ exists cv, drawingCanvas (step s ev) = Some cv
                /\ (cv_width cv = 0 \/ cv_height cv = 0).
Proof.
  intros Hev (Hh & Hi & Hv & cv & Hc & Hz).
  destruct ev as [iw ih cw wh|rect e|rect e| |v| | | |env]; try discriminate.
  - destruct (mounted_PointerDown _ _ Hc Hv rect e) as [k ->].
    cbn [history historyIndex isLoading drawingCanvas setIsDrawing withCanvas].
    repeat (split; [assumption|]). eexists. split; [reflexivity|]. exact Hz.
  - destruct (isDrawing s) eqn:D.
    + destruct (mounted_PointerMove_drawing _ _ Hc Hv rect e D) as [k ->].
      cbn [history historyIndex isLoading drawingCanvas withCanvas].
      repeat (split; [assumption|]). eexists. split; [reflexivity|]. exact Hz.
    + rewrite (mounted_PointerMove_idle _ Hv rect e D). eauto 10.
  - destruct (isDrawing s) eqn:D.
    + rewrite (mounted_PointerEnd_empty _ _ Hc Hv D Hz).
      cbn [history historyIndex isLoading drawingCanvas setIsDrawing withCanvas].
      repeat (split; [assumption|]). eexists. split; [reflexivity|]. exact Hz.
    + rewrite (mounted_PointerEnd_idle _ Hv D). eauto 10.
  - rewrite (mounted_BrushChange _ Hv).
    cbn [history historyIndex isLoading drawingCanvas setBrushSize]. eauto 10.
  - rewrite (mounted_Undo_none _ Hv) by lia. eauto 10.
  - rewrite (mounted_Redo_none _ Hv) by (rewrite Hh, Hi; simpl; lia). eauto 10.
  - rewrite (mounted_Clear_empty _ _ Hc Hv Hh). eauto 10.
Qed.

(** C10 (as the code behaves when the load captures nothing).  When the
    display size computed for the first load truncates to a width or height
    of 0, the capture of line 59 fails and lines 60-61 are not reached: the
    history is empty and the index is -1, outside the claimed range, and
    there is no entry 0.  No stroke, undo, redo, clear or brush change
    afterwards changes that. *)
Theorem empty_load_leaves_no_baseline (iw ih cw wh : Z) (evs : list Event) :
  fst (canvasSize iw ih cw wh) = 0 \/ snd (canvasSize iw ih cw wh) = 0 ->
  forallb editing evs = true ->
  history (run (step (mounted (num := num) (Pixels := Pixels)) (ImageLoaded iw ih cw wh)) evs)
  = []
  /\ historyIndex (run (step (mounted (num := num) (Pixels := Pixels))
                         (ImageLoaded iw ih cw wh)) evs) = -1.
Proof.
  intros Hz Hevs.
  assert (Hstart : let s := step (mounted (num := num) (Pixels := Pixels))
                          (ImageLoaded iw ih cw wh) in
               history s = [] /\ historyIndex s = -1 /\ isLoading s = false
               /\ exists cv, drawingCanvas s = Some cv
                             /\ (cv_width cv = 0 \/ cv_height cv = 0)).
  { cbn [step]. unfold dispatch, onload. cbn [drawingCanvas mounted].
    unfold canvasSize in Hz.
    destruct (displaySize iw ih cw wh) as [dw dh]. cbn [fst snd] in Hz.
    rewrite getImageData_zero by exact Hz.
    rewrite commit_visible by reflexivity.
    cbn [history historyIndex isLoading drawingCanvas withCanvas mounted].
    repeat (split; [reflexivity|]). eexists. split; [reflexivity|]. exact Hz. }
  cbv zeta in Hstart.
  revert Hstart. generalize (step (mounted (num := num) (Pixels := Pixels))
                           (ImageLoaded iw ih cw wh)).
  induction evs as [|ev evs IH]; intros s Hs.
  - cbn [run fold_left]. destruct Hs as (Hh & Hi & _). auto.
  - rewrite run_cons. cbn [forallb] in Hevs. apply andb_prop in Hevs as [Hev Hevs].
    apply (IH Hevs). now apply empty_history_kept.
Qed.

(** *** Submission *)

(** C2.  With the history index at 0 a submission shows the validation
    message and does nothing else: the component is unchanged and the
    remote client is not called. *)
Theorem submit_requires_marks (env : SubmitEnv) (s : @Component num Pixels) :
  historyIndex s = 0 ->
  handleProcessImage env s = (s, [Alert validation_message])
  /\ step s (Submit env) = s
  /\ forall marked mime, ~ In (RemoteCall marked mime) (snd (handleProcessImage env s)).
Proof.
  intros Hi.
  assert (E : handleProcessImage env s = (s, [Alert validation_message])).
  { unfold handleProcessImage. destruct (drawingCanvas s); [|reflexivity].
    now rewrite Hi. }
  split; [exact E|]. split; [simpl; now rewrite E|].
  intros marked mime. rewrite E. simpl. intros [Hin|[]]. discriminate.
Qed.

(** A submission never writes the history or its index. *)
Lemma submit_keeps_history (env : SubmitEnv) (s : @Component num Pixels) :
  history (step s (Submit env)) = history s
  /\ historyIndex (step s (Submit env)) = historyIndex s.
Proof.
  simpl. unfold handleProcessImage.
  destruct (drawingCanvas s) as [cv|]; [|auto].
  destruct (historyIndex s =? 0); [auto|].
  destruct (submitAttempt env cv) as [[url|err] fx]; simpl; auto.
Qed.

(** C7 (as the code behaves).  When compositing or the remote call fails,
    the failure becomes the displayed error message and the history and
    its index are untouched; the mask canvas, however, was unmounted with
    the editor while the spinner was shown, and the editor comes back with
    a newly created canvas: 300 by 150, transparent. *)
Theorem failed_submit_resets_mask (env : SubmitEnv) (s : @Component num Pixels)
    (cv : @Canvas num Pixels) (err : Thrown) (fx : list Effect) :
  drawingCanvas s = Some cv ->
  historyIndex s <> 0 ->
  submitAttempt env cv = (Rejected err, fx) ->
  error (step s (Submit env)) = Some (messageOf err)
  /\ isLoading (step s (Submit env)) = false
  /\ history (step s (Submit env)) = history s
  /\ historyIndex (step s (Submit env)) = historyIndex s
  /\ drawingCanvas (step s (Submit env)) = Some newCanvas
  /\ (forall url, ~ In (OnComplete url) (snd (handleProcessImage env s))).
Proof.
  intros Hc Hi Ha.
  assert (Hfx : forall url, ~ In (OnComplete url) fx).
  { unfold submitAttempt in Ha.
    destruct (composite env cv) as [[marked mime]|t]; injection Ha as _ <-;
      intros url Hin; simpl in Hin; intuition discriminate. }
  simpl. unfold handleProcessImage. rewrite Hc.
  destruct (Z.eqb_spec (historyIndex s) 0) as [E|_]; [contradiction|].
  rewrite Ha. simpl. repeat split.
  intros url Hin. apply in_app_or in Hin as [Hin|Hin]; [now apply (Hfx url)|].
  apply in_app_or in Hin as [Hin|[Hin|[]]]; [|discriminate].
  destruct (is_auth_error (messageOf err)); simpl in Hin; [|contradiction].
  destruct Hin as [Hin|[]]. discriminate.
Qed.

(** The editor after a failed submission: remounted, with the history of
    before. *)
Lemma failed_submit_remounts (env : SubmitEnv) (s : @Component num Pixels)
    (cv : @Canvas num Pixels) (err : Thrown) (fx : list Effect) :
  drawingCanvas s = Some cv ->
  historyIndex s <> 0 ->
  submitAttempt env cv = (Rejected err, fx) ->
  drawingCanvas (step s (Submit env)) = Some newCanvas
  /\ isLoading (step s (Submit env)) = false
  /\ history (step s (Submit env)) = history s
  /\ historyIndex (step s (Submit env)) = historyIndex s.
Proof.
  intros Hc Hi Ha. simpl. unfold handleProcessImage. rewrite Hc.
  destruct (Z.eqb_spec (historyIndex s) 0) as [E|_]; [contradiction|].
  rewrite Ha. simpl. auto.
Qed.

(** C5 (as the code behaves after a failed submission).  A failed
    submission leaves the history and the index as they were but the mask
    canvas newly created, 300 by 150 and transparent (see C7).  With the
    index strictly between 0 and the last position, undo followed by redo
    then restores the index, but paints the entries below and at the index
    onto that canvas: the mask shown is no longer the one shown before the
    undo. *)
Theorem undo_redo_after_failed_submit (env : SubmitEnv) (s : @Component num Pixels)
    (cv : @Canvas num Pixels) (err : Thrown) (fx : list Effect) :
  drawingCanvas s = Some cv ->
  0 < historyIndex s < Z.of_nat (List.length (history s)) - 1 ->
  submitAttempt env cv = (Rejected err, fx) ->
  exists d0 d1,
    at_index (history s) (historyIndex s - 1) = Some d0
    /\ at_index (history s) (historyIndex s) = Some d1
    /\ drawingCanvas (step s (Submit env)) = Some newCanvas
    /\ historyIndex (step s (Submit env)) = historyIndex s
    /\ drawingCanvas (run (step s (Submit env)) [Undo; Redo])
       = Some (putImageData d1 (putImageData d0 newCanvas))
    /\ historyIndex (run (step s (Submit env)) [Undo; Redo]) = historyIndex s.
Proof.
  intros Hc Hi Ha.
  destruct (failed_submit_remounts env s cv err fx Hc ltac:(lia) Ha)
    as (Hc1 & Hv1 & Hh1 & Hi1).
  destruct (at_index_in_range (history s) (historyIndex s - 1)) as [d0 Hd0]; [lia|].
  destruct (at_index_in_range (history s) (historyIndex s)) as [d1 Hd1]; [lia|].
  exists d0, d1. split; [exact Hd0|]. split; [exact Hd1|].
  split; [exact Hc1|]. split; [exact Hi1|].
  assert (EU : step (step s (Submit env)) Undo
               = setHistoryIndex (historyIndex s - 1)
                   (withCanvas (Some (putImageData d0 newCanvas)) (step s (Submit env)))).
  { rewrite <- Hi1. apply (mounted_Undo _ _ Hc1 Hv1 d0); rewrite ?Hh1, Hi1;
      [lia | exact Hd0]. }
  cbn [run fold_left]. rewrite EU.
  rewrite (mounted_Redo
             (setHistoryIndex (historyIndex s - 1)
                (withCanvas (Some (putImageData d0 newCanvas)) (step s (Submit env))))
             (putImageData d0 newCanvas) eq_refl Hv1 d1);
    cbn [drawingCanvas historyIndex history setHistoryIndex withCanvas].
  - split; [reflexivity | lia].
  - rewrite Hh1. lia.
  - rewrite Hh1. replace (historyIndex s - 1 + 1) with (historyIndex s) by lia. exact Hd1.
Qed.

End EditorFacts.

(** ** The remote edit clients *)

(** With the client the editor calls (src/services/geminiService.ts), a
    response without an image is reported with the refusal text after the
    common prefix. *)
Lemma removeObject_refusal (sdk : Request -> Settled Response)
    (marked mime : string) (response : Response) :
  sdk (GeminiService.request marked mime) = Resolved response ->
  inlineImage response = None ->
  GeminiService.removeObject (Client sdk) marked mime
  = Rejected (ErrorObject ("Failed to process the image: " ++ refusal_message)%string).
Proof.
  intros Hs Hr. unfold GeminiService.removeObject, GeminiService.attempt.
  now rewrite Hs, Hr.
Qed.

(** C8 (as the code behaves in src/unnamed/part_000, lines 43-55).  With the
    key set and the client constructed, the error thrown at line 50 for a
    response without an image is caught by the function's own [catch]
    (lines 52-55) and replaced by the message used for every failure of the
    call: a refusal and a failed request reject with the same error. *)
Theorem refusal_reported_as_generic (apiKey : option string)
    (refusing failing : Request -> Settled Response)
    (original mask mime : string) (response : Response) (t : Thrown) :
  Part000.key_missing apiKey = false ->
  refusing (Part000.request original mask mime) = Resolved response ->
  inlineImage response = None ->
  failing (Part000.request original mask mime) = Rejected t ->
  Part000.removeObject apiKey (Client refusing) original mask mime
  = Rejected (ErrorObject Part000.generic_message)
  /\ Part000.removeObject apiKey (Client failing) original mask mime
     = Part000.removeObject apiKey (Client refusing) original mask mime.
Proof.
  intros Hk Hs Hr Hf. unfold Part000.removeObject, Part000.attempt.
  now rewrite Hk, Hs, Hr, Hf.
Qed.

(** ** Numbers

    [targetSize] is computed on binary64 numbers.  The lemmas below bound
    the rounding of a division and of a multiplication of normal numbers
    from their specification ([SFdiv], [SFmul] and [binary_round_aux]), and
    follow two of them through [Math.round]. *)

Lemma digits2_pos_bounds (p : positive) :
  2 ^ (Zpos (digits2_pos p) - 1) <= Zpos p < 2 ^ Zpos (digits2_pos p).
Proof.
  induction p as [p IH|p IH|]; cbn [digits2_pos]; [| |cbn; lia];
    rewrite Pos2Z.inj_succ;
    replace (Z.succ (Zpos (digits2_pos p)) - 1) with (Z.succ (Zpos (digits2_pos p) - 1)) by lia;
    rewrite !Z.pow_succ_r by lia; lia.
Qed.

Lemma digits2_pos_unique (p : positive) (d : Z) :
  2 ^ (d - 1) <= Zpos p < 2 ^ d -> Zpos (digits2_pos p) = d.
Proof.
  intros [Hlo Hhi]. pose proof (digits2_pos_bounds p) as [Blo Bhi].
  assert (Hd : 0 < d).
  { destruct (Z.ltb_spec 0 d); [assumption|].
    destruct (Z.eq_dec d 0) as [->|]; [cbn in Hhi; lia|].
    rewrite Z.pow_neg_r in Hhi by lia. lia. }
  destruct (Z.lt_trichotomy (Zpos (digits2_pos p)) d) as [L|[E|G]]; [|exact E|].
  - assert (2 ^ Zpos (digits2_pos p) <= 2 ^ (d - 1)) by (apply Z.pow_le_mono_r; lia). lia.
  - assert (2 ^ d <= 2 ^ (Zpos (digits2_pos p) - 1)) by (apply Z.pow_le_mono_r; lia). lia.
Qed.

Lemma shr_1_m (mrs : shr_record) :
  0 <= shr_m mrs -> shr_m (shr_1 mrs) = shr_m mrs / 2.
Proof.
  destruct mrs as [m r s]. cbn [shr_m]. intros Hm.
  destruct m as [|[p|p|]|p]; cbn [shr_1 shr_m]; try lia; try reflexivity.
  - apply (Z.div_unique _ _ _ 1); lia.
  - apply (Z.div_unique _ _ _ 0); lia.
Qed.

Lemma iter_shr_1_m (p : positive) :
  forall mrs, 0 <= shr_m mrs -> shr_m (iter_pos shr_1 p mrs) = shr_m mrs / 2 ^ Zpos p.
Proof.
  induction p as [p IH|p IH|]; intros mrs Hm; cbn [iter_pos].
  - assert (H1 : 0 <= shr_m (shr_1 mrs)) by (rewrite shr_1_m by lia; apply Z.div_pos; lia).
    assert (H2 : 0 <= shr_m (iter_pos shr_1 p (shr_1 mrs)))
      by (rewrite IH by lia; apply Z.div_pos; [lia | apply Z.pow_pos_nonneg; lia]).
    rewrite IH, IH, shr_1_m by lia.
    rewrite !Z.div_div by (try lia; apply Z.pow_pos_nonneg; lia).
    f_equal. replace (Zpos p~1) with (1 + Zpos p + Zpos p) by lia.
    rewrite !Z.pow_add_r by lia. lia.
  - assert (H2 : 0 <= shr_m (iter_pos shr_1 p mrs))
      by (rewrite IH by lia; apply Z.div_pos; [lia | apply Z.pow_pos_nonneg; lia]).
    rewrite IH, IH by lia.
    rewrite !Z.div_div by (try lia; apply Z.pow_pos_nonneg; lia).
    f_equal. replace (Zpos p~0) with (Zpos p + Zpos p) by lia.
    rewrite !Z.pow_add_r by lia. lia.
  - rewrite shr_1_m by lia. reflexivity.
Qed.

Lemma round_nearest_even_range (m : Z) (l : location) :
  m <= round_nearest_even m l <= m + 1.
Proof.
  destruct l as [|[| |]]; cbn [round_nearest_even]; try lia.
  destruct (Z.even m); lia.
Qed.

Lemma shr_record_of_loc_m (m : Z) (l : location) : shr_m (shr_record_of_loc m l) = m.
Proof. destruct l as [|[| |]]; reflexivity. Qed.

Lemma fexp_normal (x : Z) : -1021 <= x -> fexp prec emax x = x - 53.
Proof. intros Hx. unfold fexp, emin, prec, emax. lia. Qed.

(** The first component of [shr_fexp] in the normal range. *)
Lemma shr_fexp_normal (p : positive) (e : Z) (l : location) :
  -1021 <= Zpos (digits2_pos p) + e ->
  53 <= Zpos (digits2_pos p) ->
  shr_m (fst (shr_fexp prec emax (Zpos p) e l)) = Zpos p / 2 ^ (Zpos (digits2_pos p) - 53)
  /\ snd (shr_fexp prec emax (Zpos p) e l) = e + (Zpos (digits2_pos p) - 53).
Proof.
  intros Hr Hd. unfold shr_fexp. cbn [Zdigits2].
  rewrite fexp_normal by exact Hr.
  replace (Zpos (digits2_pos p) + e - 53 - e) with (Zpos (digits2_pos p) - 53) by lia.
  destruct (Zpos (digits2_pos p) - 53) as [|n|n] eqn:En; try lia; cbn [shr fst snd].
  - rewrite shr_record_of_loc_m, Z.div_1_r. split; [reflexivity | lia].
  - rewrite iter_shr_1_m by (rewrite shr_record_of_loc_m; lia).
    rewrite shr_record_of_loc_m. split; reflexivity.
Qed.

Lemma binary_round_aux_coarse (p : positive) (ex : Z) (lx : location) :
  2 ^ 52 <= Zpos p ->
  -1021 <= Zpos (digits2_pos p) + ex ->
  ex + (Zpos (digits2_pos p) - 53) + 1 <= 971 ->
  exists m e,
    binary_round_aux prec emax false (Zpos p) ex lx = S754_finite false m e
    /\ 2 ^ 52 <= Zpos m < 2 ^ 53
    /\ ex <= e <= ex + (Zpos (digits2_pos p) - 53) + 1
    /\ Zpos p / 2 ^ (Zpos (digits2_pos p) - 53) * 2 ^ (Zpos (digits2_pos p) - 53)
       <= Zpos m * 2 ^ (e - ex)
       <= (Zpos p / 2 ^ (Zpos (digits2_pos p) - 53) + 1) * 2 ^ (Zpos (digits2_pos p) - 53)
    /\ 2 ^ 52 <= Zpos p / 2 ^ (Zpos (digits2_pos p) - 53).
Proof.
  intros Hp Hr He.
  pose proof (digits2_pos_bounds p) as [Blo Bhi].
  set (d := Zpos (digits2_pos p)) in *.
  assert (Hd : 53 <= d).
  { destruct (Z.ltb_spec d 53) as [L|]; [|assumption].
    assert (2 ^ d <= 2 ^ 52) by (apply Z.pow_le_mono_r; lia). lia. }
  set (n := d - 53) in *.
  assert (Hn : 0 <= n) by (unfold n; lia).
  assert (P2n : 0 < 2 ^ n) by (apply Z.pow_pos_nonneg; lia).
  set (fl := Zpos p / 2 ^ n).
  assert (Hfl : 2 ^ 52 <= fl < 2 ^ 53).
  { unfold fl. split.
    - apply Z.div_le_lower_bound; [exact P2n|].
      rewrite <- Z.pow_add_r by lia. replace (n + 52) with (d - 1) by (unfold n; lia).
      exact Blo.
    - apply Z.div_lt_upper_bound; [exact P2n|].
      rewrite <- Z.pow_add_r by lia. replace (n + 53) with d by (unfold n; lia).
      exact Bhi. }
  unfold binary_round_aux.
  destruct (shr_fexp_normal p ex lx Hr Hd) as [Hm1 He1]. fold d n fl in Hm1, He1.
  destruct (shr_fexp prec emax (Zpos p) ex lx) as [mrs' e'] eqn:E1.
  cbn [fst snd] in Hm1, He1. rewrite Hm1.
  pose proof (round_nearest_even_range fl (loc_of_shr_record mrs')) as Hrn.
  set (m1 := round_nearest_even fl (loc_of_shr_record mrs')) in *.
  destruct m1 as [|p1|p1] eqn:Em1; try lia.
  destruct (Z.ltb_spec (Zpos p1) (2 ^ 53)) as [Lt53|Ge53].
  - (* no carry *)
    assert (Hd1 : Zpos (digits2_pos p1) = 53) by (apply digits2_pos_unique; lia).
    destruct (shr_fexp_normal p1 e' loc_Exact) as [Hm2 He2]; [lia | lia |].
    rewrite Hd1 in Hm2, He2. replace (53 - 53) with 0 in Hm2, He2 by lia.
    rewrite Z.div_1_r in Hm2.
    destruct (shr_fexp prec emax (Zpos p1) e' loc_Exact) as [mrs'' e''] eqn:E2.
    cbn [fst snd] in Hm2, He2. rewrite Hm2.
    destruct (Z.leb_spec e'' (emax - prec)) as [_|Bad]; [|unfold emax, prec in Bad; lia].
    exists p1, e''. split; [reflexivity|]. split; [lia|]. split; [unfold n in *; lia|].
    replace (e'' - ex) with n by lia. split; [nia | exact (proj1 Hfl)].
  - (* the mantissa was rounded up to 2^53 *)
    assert (Ep1 : Zpos p1 = 2 ^ 53) by lia.
    assert (Hd1 : Zpos (digits2_pos p1) = 54) by (apply digits2_pos_unique; rewrite Ep1; lia).
    destruct (shr_fexp_normal p1 e' loc_Exact) as [Hm2 He2]; [lia | lia |].
    rewrite Hd1 in Hm2, He2. replace (54 - 53) with 1 in Hm2, He2 by lia.
    replace (Zpos p1 / 2 ^ 1) with (2 ^ 52) in Hm2 by (rewrite Ep1; reflexivity).
    destruct (shr_fexp prec emax (Zpos p1) e' loc_Exact) as [mrs'' e''] eqn:E2.
    cbn [fst snd] in Hm2, He2. rewrite Hm2.
    change (2 ^ 52) with (Zpos (Pos.pow 2 52)). cbv iota.
    destruct (Z.leb_spec e'' (emax - prec)) as [_|Bad]; [|unfold emax, prec in Bad; lia].
    exists (Pos.pow 2 52), e''. split; [reflexivity|].
    change (Zpos (Pos.pow 2 52)) with (2 ^ 52).
    split; [lia|]. split; [unfold n in *; lia|].
    replace (e'' - ex) with (n + 1) by lia. rewrite Z.pow_add_r by lia.
    change (2 ^ 1) with 2. split; [nia | exact (proj1 Hfl)].
Qed.

(** Division of two positive normal numbers, away from the ends of the
    exponent range: the quotient is a normal number within a relative
    distance of 2^-52 of the exact one.  [A] is the mantissa of the result
    at the exponent [e1 - e2 - 53]. *)
Lemma SFdiv_coarse (m1 m2 : positive) (e1 e2 : Z) :
  2 ^ 52 <= Zpos m1 < 2 ^ 53 -> 2 ^ 52 <= Zpos m2 < 2 ^ 53 ->
  -900 <= e1 - e2 <= 900 ->
  exists m e,
    SFdiv prec emax (S754_finite false m1 e1) (S754_finite false m2 e2)
    = S754_finite false m e
    /\ 2 ^ 52 <= Zpos m < 2 ^ 53
    /\ e1 - e2 - 53 <= e <= e1 - e2 - 51
    /\ 2 ^ 52 * (Zpos m * 2 ^ (e - (e1 - e2 - 53)) * Zpos m2)
       <= (2 ^ 52 + 1) * (Zpos m1 * 2 ^ 53)
    /\ 2 ^ 52 * (Zpos m1 * 2 ^ 53)
       <= (2 ^ 52 + 1) * (Zpos m * 2 ^ (e - (e1 - e2 - 53)) * Zpos m2).
Proof.
  intros H1 H2 He.
  assert (D1 : Zpos (digits2_pos m1) = 53) by (apply digits2_pos_unique; lia).
  assert (D2 : Zpos (digits2_pos m2) = 53) by (apply digits2_pos_unique; lia).
  unfold SFdiv, SFdiv_core_binary. cbn [Zdigits2 xorb]. rewrite D1, D2.
  replace (53 + e1 - (53 + e2)) with (e1 - e2) by lia.
  rewrite fexp_normal by lia.
  rewrite Z.min_l by lia.
  replace (e1 - e2 - (e1 - e2 - 53)) with 53 by lia.
  rewrite Z.shiftl_mul_pow2 by lia.
  pose proof (Z_div_mod (Zpos m1 * 2 ^ 53) (Zpos m2) ltac:(lia)) as Hdm.
  destruct (Z.div_eucl (Zpos m1 * 2 ^ 53) (Zpos m2)) as [q r].
  destruct Hdm as [Hq Hr].
  assert (Hq52 : 2 ^ 52 <= q) by nia.
  assert (Hq54 : q < 2 ^ 54) by nia.
  destruct q as [|pq|pq]; try lia.
  pose proof (digits2_pos_bounds pq) as [Blo Bhi].
  assert (Hdq : 53 <= Zpos (digits2_pos pq) <= 54).
  { split.
    - destruct (Z.ltb_spec (Zpos (digits2_pos pq)) 53) as [L|]; [|assumption].
      assert (2 ^ Zpos (digits2_pos pq) <= 2 ^ 52) by (apply Z.pow_le_mono_r; lia). lia.
    - destruct (Z.ltb_spec 54 (Zpos (digits2_pos pq))) as [L|]; [|assumption].
      assert (2 ^ 54 <= 2 ^ (Zpos (digits2_pos pq) - 1)) by (apply Z.pow_le_mono_r; lia).
      lia. }
  destruct (binary_round_aux_coarse pq (e1 - e2 - 53) (new_location (Zpos m2) r))
    as (m & e & E & Hm & Hee & [Hlo Hhi] & Hfl); [lia | lia | lia |].
  exists m, e. split; [exact E|]. split; [exact Hm|]. split; [lia|].
  set (n := Zpos (digits2_pos pq) - 53) in *.
  assert (P2n : 0 < 2 ^ n) by (apply Z.pow_pos_nonneg; unfold n; lia).
  set (fl := Zpos pq / 2 ^ n) in *.
  set (A := Zpos m * 2 ^ (e - (e1 - e2 - 53))) in *.
  assert (Hfq : fl * 2 ^ n <= Zpos pq < (fl + 1) * 2 ^ n).
  { unfold fl. pose proof (Z.mul_div_le (Zpos pq) (2 ^ n) P2n).
    pose proof (Z.mul_succ_div_gt (Zpos pq) (2 ^ n) P2n). lia. }
  assert (Hrel : 2 ^ 52 * ((fl + 1) * 2 ^ n) <= (2 ^ 52 + 1) * (fl * 2 ^ n)) by nia.
  set (lo := fl * 2 ^ n) in *. set (hi := (fl + 1) * 2 ^ n) in *.
  split.
  - apply Z.le_trans with (2 ^ 52 * (hi * Zpos m2)); [nia|].
    apply Z.le_trans with ((2 ^ 52 + 1) * (lo * Zpos m2)); nia.
  - apply Z.le_trans with (2 ^ 52 * (hi * Zpos m2)); [nia|].
    apply Z.le_trans with ((2 ^ 52 + 1) * (lo * Zpos m2)); nia.
Qed.

(** Multiplication of two positive normal numbers, away from the ends of
    the exponent range. *)
Lemma SFmul_coarse (m1 m2 : positive) (e1 e2 : Z) :
  2 ^ 52 <= Zpos m1 < 2 ^ 53 -> 2 ^ 52 <= Zpos m2 < 2 ^ 53 ->
  -900 <= e1 + e2 <= 800 ->
  exists m e,
    SFmul prec emax (S754_finite false m1 e1) (S754_finite false m2 e2)
    = S754_finite false m e
    /\ 2 ^ 52 <= Zpos m < 2 ^ 53
    /\ e1 + e2 + 52 <= e <= e1 + e2 + 54
    /\ 2 ^ 52 * (Zpos m * 2 ^ (e - (e1 + e2))) <= (2 ^ 52 + 1) * (Zpos m1 * Zpos m2)
    /\ 2 ^ 52 * (Zpos m1 * Zpos m2) <= (2 ^ 52 + 1) * (Zpos m * 2 ^ (e - (e1 + e2))).
Proof.
  intros H1 H2 He.
  unfold SFmul. cbn [xorb].
  assert (Hp : 2 ^ 104 <= Zpos (m1 * m2) < 2 ^ 106) by (rewrite Pos2Z.inj_mul; nia).
  pose proof (digits2_pos_bounds (m1 * m2)) as [Blo Bhi].
  assert (Hdq : 105 <= Zpos (digits2_pos (m1 * m2)) <= 106).
  { split.
    - destruct (Z.ltb_spec (Zpos (digits2_pos (m1 * m2))) 105) as [L|]; [|assumption].
      assert (2 ^ Zpos (digits2_pos (m1 * m2)) <= 2 ^ 104) by (apply Z.pow_le_mono_r; lia).
      lia.
    - destruct (Z.ltb_spec 106 (Zpos (digits2_pos (m1 * m2)))) as [L|]; [|assumption].
      assert (2 ^ 106 <= 2 ^ (Zpos (digits2_pos (m1 * m2)) - 1))
        by (apply Z.pow_le_mono_r; lia).
      lia. }
  destruct (binary_round_aux_coarse (m1 * m2) (e1 + e2) loc_Exact)
    as (m & e & E & Hm & Hee & [Hlo Hhi] & Hfl); [lia | lia | lia |].
  exists m, e. split; [exact E|]. split; [exact Hm|].
  set (n := Zpos (digits2_pos (m1 * m2)) - 53) in *.
  assert (Hn : 52 <= n <= 53) by (unfold n; lia).
  assert (P2n : 0 < 2 ^ n) by (apply Z.pow_pos_nonneg; lia).
  set (fl := Zpos (m1 * m2) / 2 ^ n) in *.
  set (A := Zpos m * 2 ^ (e - (e1 + e2))) in *.
  assert (Hfq : fl * 2 ^ n <= Zpos (m1 * m2) < (fl + 1) * 2 ^ n).
  { unfold fl. pose proof (Z.mul_div_le (Zpos (m1 * m2)) (2 ^ n) P2n).
    pose proof (Z.mul_succ_div_gt (Zpos (m1 * m2)) (2 ^ n) P2n). lia. }
  assert (Hrel : 2 ^ 52 * ((fl + 1) * 2 ^ n) <= (2 ^ 52 + 1) * (fl * 2 ^ n)) by nia.
  rewrite Pos2Z.inj_mul in Hfq.
  set (lo := fl * 2 ^ n) in *. set (hi := (fl + 1) * 2 ^ n) in *.
  assert (Hek : 52 <= e - (e1 + e2)).
  { (* the result has a 53-bit mantissa and is at least [lo] *)
    destruct (Z.ltb_spec (e - (e1 + e2)) 52) as [L|]; [|assumption]. exfalso.
    assert (Hpow : 2 ^ (e - (e1 + e2)) <= 2 ^ 51) by (apply Z.pow_le_mono_r; lia).
    assert (0 < 2 ^ (e - (e1 + e2))) by (apply Z.pow_pos_nonneg; lia).
    assert (A < 2 ^ 53 * 2 ^ 51) by (unfold A; nia).
    assert (2 ^ 52 * 2 ^ 52 <= lo).
    { unfold lo. apply Z.mul_le_mono_nonneg; try lia.
      apply Z.pow_le_mono_r; lia. }
    lia. }
  split; [lia|].
  split; lia.
Qed.

Lemma binary_round_aux_exact (p : positive) (e : Z) :
  2 ^ 52 <= Zpos p < 2 ^ 53 -> -1074 <= e <= 971 ->
  binary_round_aux prec emax false (Zpos p) e loc_Exact = S754_finite false p e.
Proof.
  intros Hp He.
  assert (D : Zpos (digits2_pos p) = 53) by (apply digits2_pos_unique; lia).
  unfold binary_round_aux, shr_fexp. cbn [Zdigits2]. rewrite D.
  rewrite fexp_normal by lia. replace (53 + e - 53 - e) with 0 by lia.
  cbn [shr shr_record_of_loc shr_m loc_of_shr_record round_nearest_even Zdigits2].
  rewrite D, fexp_normal by lia. replace (53 + e - 53 - e) with 0 by lia.
  cbn [shr shr_record_of_loc shr_m].
  destruct (Z.leb_spec e (emax - prec)) as [_|Bad]; [reflexivity|].
  unfold emax, prec in Bad. lia.
Qed.

Lemma iter_xO (k p : positive) : Zpos (Pos.iter xO p k) = Zpos p * 2 ^ Zpos k.
Proof.
  change (Pos.iter xO p k) with (shift_pos k p).
  rewrite shift_pos_correct, Z.pow_pos_fold. lia.
Qed.

(** An integer below 2^53 is converted without rounding. *)
Lemma float_of_Z_exact (z : Z) :
  0 < z < 2 ^ 53 ->
  exists m e,
    Prim2SF (float_of_Z z) = S754_finite false m e
    /\ 2 ^ 52 <= Zpos m < 2 ^ 53
    /\ -52 <= e <= 0
    /\ Zpos m = z * 2 ^ (- e).
Proof.
  intros Hz. unfold float_of_Z.
  destruct (Z.ltb_spec z 0) as [Neg|_]; [lia|].
  rewrite of_uint63_spec, Uint63.of_Z_spec.
  rewrite Z.mod_small by (change Uint63.wB with (2 ^ 63); lia).
  destruct z as [|p|p]; try lia.
  cbn [binary_normalize]. unfold binary_round.
  pose proof (digits2_pos_bounds p) as [Blo Bhi].
  set (d := Zpos (digits2_pos p)) in *.
  assert (Hd : 1 <= d <= 53).
  { split; [unfold d; lia|].
    destruct (Z.ltb_spec 53 d) as [L|]; [|assumption].
    assert (2 ^ 53 <= 2 ^ (d - 1)) by (apply Z.pow_le_mono_r; lia). lia. }
  rewrite fexp_normal by lia. unfold shl_align.
  replace (d + 0 - 53 - 0) with (d - 53) by lia.
  destruct (d - 53) as [|k|k] eqn:Ek; try lia.
  - rewrite binary_round_aux_exact.
    + exists p, 0. split; [reflexivity|]. replace d with 53 in * by lia.
      split; [lia|]. split; [lia|]. cbn. lia.
    + replace d with 53 in * by lia. lia.
    + lia.
  - assert (Hk : Zpos k = 53 - d) by lia.
    assert (Hm : 2 ^ 52 <= Zpos (Pos.iter xO p k) < 2 ^ 53).
    { rewrite iter_xO, Hk.
      assert (E52 : 2 ^ 52 = 2 ^ (d - 1) * 2 ^ (53 - d))
        by (rewrite <- Z.pow_add_r by lia; f_equal; lia).
      assert (E53 : 2 ^ 53 = 2 ^ d * 2 ^ (53 - d))
        by (rewrite <- Z.pow_add_r by lia; f_equal; lia).
      assert (0 < 2 ^ (53 - d)) by (apply Z.pow_pos_nonneg; lia).
      rewrite E52, E53. nia. }
    replace (d + 0 - 53) with (d - 53) by lia.
    rewrite binary_round_aux_exact by (try exact Hm; lia).
    exists (Pos.iter xO p k), (d - 53). split; [reflexivity|].
    split; [exact Hm|]. split; [lia|].
    rewrite iter_xO, Hk. f_equal. f_equal. lia.
Qed.

(** Rounding a value [mv * 2^-E] that is within two relative errors of
    2^-52 of [1024 * x / y]: the result is a nearest integer to
    [1024 * x / y]. *)
Lemma round_near_quotient (mv E x y : Z) :
  0 < E -> 0 < x < 2 ^ 32 -> 0 < y -> 0 < mv ->
  mv * y * 2 ^ 94 <= (2 ^ 52 + 1) * (2 ^ 52 + 1) * (x * 2 ^ E) ->
  2 ^ 114 * (x * 2 ^ E) <= (2 ^ 52 + 1) * (2 ^ 52 + 1) * (mv * y) ->
  - y <= 2 * ((2 * mv + 2 ^ E) / 2 ^ (E + 1) * y - 1024 * x) <= y.
Proof.
  intros HE Hx Hy Hmv Hup Hlow.
  assert (PE : 0 < 2 ^ E) by (apply Z.pow_pos_nonneg; lia).
  assert (PE1 : 2 ^ (E + 1) = 2 * 2 ^ E) by (rewrite Z.pow_add_r by lia; lia).
  set (R := (2 * mv + 2 ^ E) / 2 ^ (E + 1)).
  assert (HR : 2 ^ (E + 1) * R <= 2 * mv + 2 ^ E < 2 ^ (E + 1) * (R + 1)).
  { unfold R. split.
    - apply Z.mul_div_le. lia.
    - replace (2 ^ (E + 1) * ((2 * mv + 2 ^ E) / 2 ^ (E + 1) + 1))
        with (2 ^ (E + 1) * Z.succ ((2 * mv + 2 ^ E) / 2 ^ (E + 1))) by lia.
      apply Z.mul_succ_div_gt. lia. }
  rewrite PE1 in HR. destruct HR as [HR1 HR2].
  split.
  - (* 2048 x <= 2 R y + y *)
    assert (K : 2 ^ 115 * (x * 2 ^ E) + (2 ^ 52 + 1) * (2 ^ 52 + 1) * (y * 2 ^ E)
                < (2 ^ 52 + 1) * (2 ^ 52 + 1) * (2 * ((R + 1) * y) * 2 ^ E)) by nia.
    assert (K' : 2 ^ 115 * x + (2 ^ 52 + 1) * (2 ^ 52 + 1) * y
                 < (2 ^ 52 + 1) * (2 ^ 52 + 1) * (2 * ((R + 1) * y))) by nia.
    nia.
  - assert (K : 2 ^ 95 * (R * y) * 2 ^ E
                <= 2 * ((2 ^ 52 + 1) * (2 ^ 52 + 1)) * x * 2 ^ E + 2 ^ 94 * y * 2 ^ E) by nia.
    assert (K' : 2 ^ 95 * (R * y) <= 2 * ((2 ^ 52 + 1) * (2 ^ 52 + 1)) * x + 2 ^ 94 * y) by nia.
    nia.
Qed.

(** The two relative errors of [1024 / (w / h)], with the powers of two
    that relate the mantissas: [Pa], [Pb] scale [w], [h] to 53 bits, [P1],
    [P2] shift the results of the two divisions, [PE] is the weight of the
    last result. *)
Lemma chain_div_div (mr mv w h P1 P2 Pa Pb PE : Z) :
  0 < mr -> 0 < mv -> 0 < w -> 0 < h ->
  0 < P1 -> 0 < P2 -> 0 < Pa -> 0 < Pb -> 0 < PE ->
  P1 * Pb * 2 ^ 42 = PE * (P2 * Pa) ->
  2 ^ 52 * (mr * P1 * (h * Pb)) <= (2 ^ 52 + 1) * (w * Pa * 2 ^ 53) ->
  2 ^ 52 * (w * Pa * 2 ^ 53) <= (2 ^ 52 + 1) * (mr * P1 * (h * Pb)) ->
  2 ^ 52 * (mv * P2 * mr) <= (2 ^ 52 + 1) * (2 ^ 52 * 2 ^ 53) ->
  2 ^ 52 * (2 ^ 52 * 2 ^ 53) <= (2 ^ 52 + 1) * (mv * P2 * mr) ->
  mv * w * 2 ^ 94 <= (2 ^ 52 + 1) * (2 ^ 52 + 1) * (h * PE)
  /\ 2 ^ 114 * (h * PE) <= (2 ^ 52 + 1) * (2 ^ 52 + 1) * (mv * w).
Proof.
  intros Hmr Hmv Hw Hh H1 H2 Ha Hb HE Rel D1a D1b D2a D2b.
  split.
  - assert (S1 : 2 ^ 52 * (mv * P2) * (2 ^ 52 * (w * Pa * 2 ^ 53))
                 <= 2 ^ 52 * (mv * P2) * ((2 ^ 52 + 1) * (mr * P1 * (h * Pb))))
      by (apply Z.mul_le_mono_nonneg_l; [nia | exact D1b]).
    assert (S2 : (2 ^ 52 * (mv * P2 * mr)) * ((2 ^ 52 + 1) * (P1 * (h * Pb)))
                 <= ((2 ^ 52 + 1) * (2 ^ 52 * 2 ^ 53)) * ((2 ^ 52 + 1) * (P1 * (h * Pb))))
      by (apply Z.mul_le_mono_nonneg_r; [nia | exact D2a]).
    assert (S3 : 2 ^ 52 * (mv * w) * (P2 * Pa)
                 <= (2 ^ 52 + 1) * (2 ^ 52 + 1) * h * (P1 * Pb)) by nia.
    assert (S4 : 2 ^ 94 * (mv * w) * (P2 * Pa)
                 <= (2 ^ 52 + 1) * (2 ^ 52 + 1) * h * PE * (P2 * Pa)) by nia.
    assert (P : 0 < P2 * Pa) by nia.
    apply (Z.mul_le_mono_pos_r _ _ (P2 * Pa) P). nia.
  - assert (S1 : (2 ^ 52 * (2 ^ 52 * 2 ^ 53)) * (2 ^ 52 * (P1 * (h * Pb)))
                 <= ((2 ^ 52 + 1) * (mv * P2 * mr)) * (2 ^ 52 * (P1 * (h * Pb))))
      by (apply Z.mul_le_mono_nonneg_r; [nia | exact D2b]).
    assert (S2 : (2 ^ 52 + 1) * (mv * P2) * (2 ^ 52 * (mr * P1 * (h * Pb)))
                 <= (2 ^ 52 + 1) * (mv * P2) * ((2 ^ 52 + 1) * (w * Pa * 2 ^ 53)))
      by (apply Z.mul_le_mono_nonneg_l; [nia | exact D1a]).
    assert (S3 : 2 ^ 156 * h * (P1 * Pb)
                 <= (2 ^ 52 + 1) * (2 ^ 52 + 1) * (mv * w) * (P2 * Pa)) by nia.
    assert (S4 : 2 ^ 114 * h * PE * (P2 * Pa)
                 <= (2 ^ 52 + 1) * (2 ^ 52 + 1) * (mv * w) * (P2 * Pa)) by nia.
    assert (P : 0 < P2 * Pa) by nia.
    apply (Z.mul_le_mono_pos_r _ _ (P2 * Pa) P). nia.
Qed.

Lemma scaled_exponent (z m e : Z) :
  0 < z < 2 ^ 32 -> 2 ^ 52 <= m < 2 ^ 53 -> -52 <= e <= 0 -> m = z * 2 ^ (- e) ->
  21 <= - e <= 52.
Proof.
  intros Hz Hm He E. split; [|lia].
  destruct (Z.ltb_spec (- e) 21) as [L|]; [|assumption]. exfalso.
  assert (2 ^ (- e) <= 2 ^ 20) by (apply Z.pow_le_mono_r; lia).
  assert (0 < 2 ^ (- e)) by (apply Z.pow_pos_nonneg; lia).
  nia.
Qed.

(** [Math.round(1024 / (w / h))] in binary64 is a nearest integer to
    [1024 * h / w]. *)
Lemma round_div_div (w h : Z) :
  0 < w < 2 ^ 32 -> 0 < h < 2 ^ 32 ->
  - w <= 2 * (float_round (PrimFloat.div (float_of_Z 1024)
                             (PrimFloat.div (float_of_Z w) (float_of_Z h))) * w
              - 1024 * h) <= w.
Proof.
  intros Hw Hh.
  destruct (float_of_Z_exact w) as (mw & ew & Ew & Hmw & Hew & Vw); [lia|].
  destruct (float_of_Z_exact h) as (mh & eh & Eh & Hmh & Heh & Vh); [lia|].
  destruct (scaled_exponent w (Zpos mw) ew Hw Hmw Hew Vw) as [Ha _].
  destruct (scaled_exponent h (Zpos mh) eh Hh Hmh Heh Vh) as [Hb _].
  assert (E1024 : Prim2SF (float_of_Z 1024) = S754_finite false (2 ^ 52) (-42))
    by reflexivity.
  destruct (SFdiv_coarse mw mh ew eh Hmw Hmh) as (mr & er & Er & Hmr & Her & D1a & D1b);
    [lia|].
  destruct (SFdiv_coarse (2 ^ 52) mr (-42) er) as (mv & ev & Ev & Hmv & Hev & D2a & D2b);
    [cbn; lia | exact Hmr | lia |].
  change (Z.pos (2 ^ 52)) with (2 ^ 52) in D2a, D2b.
  set (k1 := er - (ew - eh - 53)) in *.
  set (k2 := ev - (-42 - er - 53)) in *.
  assert (Hk1 : 0 <= k1) by (unfold k1; lia).
  assert (Hk2 : 0 <= k2) by (unfold k2; lia).
  rewrite Vw, Vh in D1a, D1b.
  assert (Neg : ev < 0) by lia.
  destruct (chain_div_div (Zpos mr) (Zpos mv) w h (2 ^ k1) (2 ^ k2) (2 ^ (- ew)) (2 ^ (- eh))
              (2 ^ (- ev))) as [Hup Hlow];
    try lia; try (apply Z.pow_pos_nonneg; lia).
  { rewrite <- !Z.pow_add_r by lia. f_equal. unfold k1, k2. lia. }
  unfold float_round.
  rewrite div_spec, div_spec, E1024, Ew, Eh. unfold SF64div. rewrite Er, Ev.
  cbn [signed_mantissa].
  destruct (Z.leb_spec 0 ev) as [Bad|_]; [lia|].
  apply round_near_quotient; try lia.
Qed.

(** The two relative errors of [1024 * (w / h)]. *)
Lemma chain_div_mul (mr mv w h P1 P2 Pa Pb PE : Z) :
  0 < mr -> 0 < mv -> 0 < w -> 0 < h ->
  0 < P1 -> 0 < P2 -> 0 < Pa -> 0 < Pb -> 0 < PE ->
  PE * (P1 * P2 * Pb) = 2 ^ 95 * Pa ->
  2 ^ 52 * (mr * P1 * (h * Pb)) <= (2 ^ 52 + 1) * (w * Pa * 2 ^ 53) ->
  2 ^ 52 * (w * Pa * 2 ^ 53) <= (2 ^ 52 + 1) * (mr * P1 * (h * Pb)) ->
  2 ^ 52 * (mv * P2) <= (2 ^ 52 + 1) * (2 ^ 52 * mr) ->
  2 ^ 52 * (2 ^ 52 * mr) <= (2 ^ 52 + 1) * (mv * P2) ->
  mv * h * 2 ^ 94 <= (2 ^ 52 + 1) * (2 ^ 52 + 1) * (w * PE)
  /\ 2 ^ 114 * (w * PE) <= (2 ^ 52 + 1) * (2 ^ 52 + 1) * (mv * h).
Proof.
  intros Hmr Hmv Hw Hh H1 H2 Ha Hb HE Rel D1a D1b Ma Mb.
  assert (P : 0 < P1 * P2 * Pb) by nia.
  split.
  - assert (S1 : (2 ^ 52 * (mv * P2)) * (P1 * (h * Pb))
                 <= ((2 ^ 52 + 1) * (2 ^ 52 * mr)) * (P1 * (h * Pb)))
      by (apply Z.mul_le_mono_nonneg_r; [nia | exact Ma]).
    assert (S2 : (2 ^ 52 + 1) * (2 ^ 52 * (mr * P1 * (h * Pb)))
                 <= (2 ^ 52 + 1) * ((2 ^ 52 + 1) * (w * Pa * 2 ^ 53)))
      by (apply Z.mul_le_mono_nonneg_l; [lia | exact D1a]).
    assert (S3 : 2 ^ 52 * (mv * h) * (P1 * P2 * Pb)
                 <= (2 ^ 52 + 1) * (2 ^ 52 + 1) * (w * Pa * 2 ^ 53)) by nia.
    assert (S4 : 2 ^ 52 * (mv * h) * (P1 * P2 * Pb) * PE
                 <= (2 ^ 52 + 1) * (2 ^ 52 + 1) * (w * Pa * 2 ^ 53) * PE)
      by (apply Z.mul_le_mono_nonneg_r; [lia | exact S3]).
    assert (S5 : 2 ^ 52 * (mv * h) * (2 ^ 95 * Pa)
                 <= (2 ^ 52 + 1) * (2 ^ 52 + 1) * (w * Pa * 2 ^ 53) * PE)
      by (rewrite <- Rel; nia).
    apply (Z.mul_le_mono_pos_r _ _ (2 ^ 53 * Pa) ltac:(nia)). nia.
  - assert (S1 : (2 ^ 52 * (2 ^ 52 * mr)) * (2 ^ 52 * (P1 * (h * Pb)))
                 <= ((2 ^ 52 + 1) * (mv * P2)) * (2 ^ 52 * (P1 * (h * Pb))))
      by (apply Z.mul_le_mono_nonneg_r; [nia | exact Mb]).
    assert (S2 : 2 ^ 104 * (2 ^ 52 * (w * Pa * 2 ^ 53))
                 <= 2 ^ 104 * ((2 ^ 52 + 1) * (mr * P1 * (h * Pb))))
      by (apply Z.mul_le_mono_nonneg_l; [lia | exact D1b]).
    assert (S3 : 2 ^ 209 * (w * Pa)
                 <= (2 ^ 52 + 1) * (2 ^ 52 + 1) * (mv * h) * (P1 * P2 * Pb)) by nia.
    assert (S4 : 2 ^ 209 * (w * Pa) * PE
                 <= (2 ^ 52 + 1) * (2 ^ 52 + 1) * (mv * h) * (P1 * P2 * Pb) * PE)
      by (apply Z.mul_le_mono_nonneg_r; [lia | exact S3]).
    assert (S5 : 2 ^ 209 * (w * Pa) * PE
                 <= (2 ^ 52 + 1) * (2 ^ 52 + 1) * (mv * h) * (2 ^ 95 * Pa))
      by (rewrite <- Rel; nia).
    apply (Z.mul_le_mono_pos_r _ _ (2 ^ 95 * Pa) ltac:(nia)). nia.
Qed.

(** [Math.round(1024 * (w / h))] in binary64 is a nearest integer to
    [1024 * w / h]. *)
Lemma round_mul_div (w h : Z) :
  0 < w < 2 ^ 32 -> 0 < h < 2 ^ 32 ->
  - h <= 2 * (float_round (PrimFloat.mul (float_of_Z 1024)
                             (PrimFloat.div (float_of_Z w) (float_of_Z h))) * h
              - 1024 * w) <= h.
Proof.
  intros Hw Hh.
  destruct (float_of_Z_exact w) as (mw & ew & Ew & Hmw & Hew & Vw); [lia|].
  destruct (float_of_Z_exact h) as (mh & eh & Eh & Hmh & Heh & Vh); [lia|].
  destruct (scaled_exponent w (Zpos mw) ew Hw Hmw Hew Vw) as [Ha _].
  destruct (scaled_exponent h (Zpos mh) eh Hh Hmh Heh Vh) as [Hb _].
  assert (E1024 : Prim2SF (float_of_Z 1024) = S754_finite false (2 ^ 52) (-42))
    by reflexivity.
  destruct (SFdiv_coarse mw mh ew eh Hmw Hmh) as (mr & er & Er & Hmr & Her & D1a & D1b);
    [lia|].
  destruct (SFmul_coarse (2 ^ 52) mr (-42) er) as (mv & ev & Ev & Hmv & Hev & Ma & Mb);
    [cbn; lia | exact Hmr | lia |].
  change (Z.pos (2 ^ 52)) with (2 ^ 52) in Ma, Mb.
  set (k1 := er - (ew - eh - 53)) in *.
  set (k2 := ev - (-42 + er)) in *.
  assert (Hk1 : 0 <= k1) by (unfold k1; lia).
  assert (Hk2 : 0 <= k2) by (unfold k2; lia).
  rewrite Vw, Vh in D1a, D1b.
  assert (Neg : ev < 0) by lia.
  destruct (chain_div_mul (Zpos mr) (Zpos mv) w h (2 ^ k1) (2 ^ k2) (2 ^ (- ew)) (2 ^ (- eh))
              (2 ^ (- ev))) as [Hup Hlow];
    try lia; try (apply Z.pow_pos_nonneg; lia).
  { rewrite <- !Z.pow_add_r by lia. f_equal. unfold k1, k2. lia. }
  unfold float_round.
  rewrite mul_spec, div_spec, E1024, Ew, Eh. unfold SF64mul, SF64div. rewrite Er, Ev.
  cbn [signed_mantissa].
  destruct (Z.leb_spec 0 ev) as [Bad|_]; [lia|].
  apply round_near_quotient; try lia.
Qed.


(** ** Coordinate mapper *)


(** ** Worked examples

    The statements above at concrete inputs, with the recording rasteriser
    and exact numbers: a 1000 by 1000 image shown at 540 by 540. *)

Lemma demo_Load : Load 540 540 Demo.loaded.
Proof.
  unfold Demo.loaded. apply load_intro; try reflexivity. discriminate.
Qed.

Lemma demo_Session (evs : list Event) :
  forallb editing evs = true -> Session 540 540 (run Demo.loaded evs).
Proof. intros Hevs. apply Session_run; [apply session_load, demo_Load | exact Hevs]. Qed.

(** One stroke, then clear: three entries, index 2. *)
Lemma clear_keeps_strokes_witness :
  List.length (history (run Demo.loaded (strokeEvents Demo.diagonal ++ [Clear]))) = 3%nat
  /\ historyIndex (run Demo.loaded (strokeEvents Demo.diagonal ++ [Clear])) = 2.
Proof.
  exact (clear_keeps_strokes 540 540 Demo.loaded [Demo.diagonal] demo_Load).
Defined.

(** The strip after the window was narrowed: index 3 of 6 entries and a
    canvas of 800 by 0.  A snapshot changes nothing, and after one more
    stroke the index is still 3 and the history still has 6 entries. *)
Lemma snapshot_on_empty_canvas_keeps_future_witness :
  historyIndex Scenario.narrowed = 3
  /\ List.length (history Scenario.narrowed) = 6%nat
  /\ saveToHistory Scenario.narrowed Scenario.narrowed = Scenario.narrowed
  /\ historyIndex (run Scenario.narrowed (strokeEvents Demo.diagonal)) = 3
  /\ List.length (history (run Scenario.narrowed (strokeEvents Demo.diagonal))) = 6%nat.
Proof.
  destruct (snapshot_on_empty_canvas_keeps_future Scenario.narrowed (sizedCanvas 800 0)
              Demo.diagonal) as [Hsave Hstroke].
  - right. reflexivity.
  - destruct Hstroke as (Hh & Hi & _).
    + vm_compute. reflexivity.
    + vm_compute. reflexivity.
    + split; [vm_compute; reflexivity|]. split; [vm_compute; reflexivity|].
      split; [apply Hsave; vm_compute; reflexivity|].
      rewrite Hi, Hh. split; vm_compute; reflexivity.
Defined.

(** Two strokes, one undone, a refused submission: the mask canvas is the
    new empty one, and undo followed by redo paints two entries of 540 by
    540 onto its 300 by 150 pixels. *)
Lemma undo_redo_after_failed_submit_witness :
  historyIndex Scenario.refused = 1
  /\ List.length (history Scenario.refused) = 3%nat
  /\ option_map bitmap (drawingCanvas Scenario.refused) = Some []
  /\ option_map bitmap (drawingCanvas (run Scenario.refused [Undo; Redo]))
     = Some [Put 540 540; Put 540 540]
  /\ historyIndex (run Scenario.refused [Undo; Redo]) = 1.
Proof.
  edestruct (undo_redo_after_failed_submit Demo.refusing
               (run Demo.loaded
                  (strokeEvents Demo.diagonal ++ strokeEvents Demo.diagonal ++ [Undo])))
    as (d0 & d1 & Hd0 & Hd1 & Hc & Hi & Hc' & Hi').
  - vm_compute. reflexivity.
  - vm_compute. split; reflexivity.
  - vm_compute. reflexivity.
  - vm_compute in Hd0. injection Hd0 as <-.
    vm_compute in Hd1. injection Hd1 as <-.
    split; [vm_compute; reflexivity|]. split; [vm_compute; reflexivity|].
    split; [vm_compute; reflexivity|].
    split; [unfold Scenario.refused; rewrite Hc'; vm_compute; reflexivity|].
    unfold Scenario.refused. rewrite Hi'. vm_compute. reflexivity.
Defined.

(** Two strokes and one undo: index 1 of 3; undo then redo changes nothing. *)
Lemma undo_redo_restores_witness :
  option_map bitmap (drawingCanvas
    (run (run Demo.loaded (strokeEvents Demo.diagonal ++ strokeEvents Demo.diagonal ++ [Undo]))
         [Undo; Redo]))
  = option_map bitmap (drawingCanvas
      (run Demo.loaded (strokeEvents Demo.diagonal ++ strokeEvents Demo.diagonal ++ [Undo])))
  /\ historyIndex
       (run (run Demo.loaded (strokeEvents Demo.diagonal ++ strokeEvents Demo.diagonal ++ [Undo]))
            [Undo; Redo]) = 1.
Proof.
  destruct (undo_redo_restores 540 540
              (run Demo.loaded (strokeEvents Demo.diagonal ++ strokeEvents Demo.diagonal ++ [Undo])))
    as (Hb & Hi & _).
  - apply demo_Session. vm_compute. reflexivity.
  - reflexivity.
  - vm_compute. split; reflexivity.
  - split; [exact Hb | exact Hi].
Defined.

(** A tap on the canvas of 500 by 0 that the sliver gets: no entry. *)
Lemma stroke_on_empty_canvas_adds_no_entry_witness :
  drawingCanvas Scenario.sliver = Some (sizedCanvas 500 0)
  /\ history (run Scenario.sliver (strokeEvents Demo.tap)) = []
  /\ historyIndex (run Scenario.sliver (strokeEvents Demo.tap)) = -1.
Proof.
  split; [vm_compute; reflexivity|].
  destruct (stroke_on_empty_canvas_adds_no_entry Scenario.sliver (sizedCanvas 500 0) Demo.tap)
    as (_ & Hh & Hi).
  - vm_compute. reflexivity.
  - reflexivity.
  - right. reflexivity.
  - rewrite Hh, Hi. split; reflexivity.
Defined.

(** The sliver is loaded; a stroke, a tap, clear, undo and redo follow. *)
Lemma empty_load_leaves_no_baseline_witness :
  history (run Scenario.sliver
             (strokeEvents Demo.diagonal ++ strokeEvents Demo.tap ++ [Clear; Undo; Redo])) = []
  /\ historyIndex (run Scenario.sliver
                     (strokeEvents Demo.diagonal ++ strokeEvents Demo.tap ++ [Clear; Undo; Redo]))
     = -1.
Proof.
  apply (empty_load_leaves_no_baseline (num := Q) (Pixels := list Paint) 10000 1 500 900
           (strokeEvents Demo.diagonal ++ strokeEvents Demo.tap ++ [Clear; Undo; Redo])).
  - right. vm_compute. reflexivity.
  - vm_compute. reflexivity.
Defined.

(** Submitting right after the load. *)
Lemma submit_requires_marks_witness :
  handleProcessImage Demo.refusing Demo.loaded = (Demo.loaded, [Alert validation_message])
  /\ step Demo.loaded (Submit Demo.refusing) = Demo.loaded.
Proof.
  destruct (submit_requires_marks Demo.refusing Demo.loaded) as (He & Hs & _).
  - reflexivity.
  - split; [exact He | exact Hs].
Defined.

(** One stroke, then a submission the service answers without an image:
    the history is kept and the mask canvas is a new, empty one. *)
Lemma failed_submit_resets_mask_witness :
  history (step (run Demo.loaded (strokeEvents Demo.diagonal)) (Submit Demo.refusing))
  = history (run Demo.loaded (strokeEvents Demo.diagonal))
  /\ drawingCanvas (step (run Demo.loaded (strokeEvents Demo.diagonal)) (Submit Demo.refusing))
     = Some newCanvas
  /\ drawingCanvas (step (run Demo.loaded (strokeEvents Demo.diagonal)) (Submit Demo.refusing))
     <> drawingCanvas (run Demo.loaded (strokeEvents Demo.diagonal)).
Proof.
  edestruct (failed_submit_resets_mask Demo.refusing
               (run Demo.loaded (strokeEvents Demo.diagonal)))
    as (_ & _ & Hh & _ & Hc & _).
  - vm_compute. reflexivity.
  - vm_compute. discriminate.
  - vm_compute. reflexivity.
  - split; [exact Hh|]. split; [exact Hc|]. rewrite Hc. vm_compute. discriminate.
Defined.

(** A refusal and a network failure, through src/unnamed/part_000. *)
Lemma refusal_reported_as_generic_witness :
  Part000.removeObject (Some "key"%string) (Client (fun _ => Resolved Demo.refusal))
    "data:image/png;base64,AAAA" "data:image/png;base64,BBBB" "image/png"
  = Rejected (ErrorObject Part000.generic_message)
  /\ Part000.removeObject (Some "key"%string)
       (Client (fun _ => Rejected (ErrorObject "fetch failed")))
       "data:image/png;base64,AAAA" "data:image/png;base64,BBBB" "image/png"
     = Part000.removeObject (Some "key"%string) (Client (fun _ => Resolved Demo.refusal))
         "data:image/png;base64,AAAA" "data:image/png;base64,BBBB" "image/png".
Proof.
  apply (refusal_reported_as_generic (Some "key"%string)
           (fun _ => Resolved Demo.refusal)
           (fun _ => Rejected (ErrorObject "fetch failed"))
           "data:image/png;base64,AAAA" "data:image/png;base64,BBBB" "image/png"
           Demo.refusal (ErrorObject "fetch failed")); reflexivity.
Defined.




(** ** Further evaluations *)

Example targetSize_rounds_binary64 :
  targetSize (num := float) 1025 1000 = (1024, 999)
  /\ targetSize (num := float) 600 3000 = (205, 1024)
  /\ targetSize (num := Q) 600 3000 = (205, 1024)
  /\ targetSize (num := float) 1024 1024 = (1024, 1024).
Proof. vm_compute. repeat split. Qed.

Example float_round_ties :
  float_round 0.5%float = 1 /\ float_round (-0.5)%float = 0
  /\ float_round 2.5%float = 3 /\ float_round 2.25%float = 2.
Proof. vm_compute. repeat split. Qed.

Example split_data_url :
  GeminiService.fileToBase64 "data:image/png;base64,AAAA" = Some "AAAA"%string
  /\ GeminiService.fileToBase64 "AAAA" = Some "AAAA"%string
  /\ Part000.fileToBase64 "AAAA" = None.
Proof. repeat split. Qed.

(** A doubling in binary64. *)
Example getCoordinates_doubled_binary64 :
  getCoordinates (Pixels := list Paint)
    (Some {| cv_width := 771; cv_height := 540; bitmap := []; ctx := defaultCtx |})
    {| left := 10.5; top := 20; width := 385.5; height := 270 |}%float
    (MouseEvt 110 120)%float
  = Some (199, 200)%float
  /\ getCoordinates (Pixels := list Paint)
       (Some {| cv_width := 1542; cv_height := 1080; bitmap := []; ctx := defaultCtx |})
       {| left := 10.5; top := 20; width := 771; height := 540 |}%float
       (MouseEvt 110 120)%float
     = Some (199, 200)%float.
Proof. vm_compute. split; reflexivity. Qed.

(** After the failed submission of the worked example the stroke is still
    the current history entry, while the canvas shows nothing. *)
Example failed_submit_demo :
  let before := run Demo.loaded (strokeEvents Demo.diagonal) in
  let after := step before (Submit Demo.refusing) in
  option_map bitmap (drawingCanvas after) = Some []
  /\ option_map bitmap (drawingCanvas before) <> Some []
  /\ option_map id_data (at_index (history after) (historyIndex after))
     = option_map bitmap (drawingCanvas before)
  /\ error after
     = Some ("Failed to process the image: " ++ refusal_message)%string.
Proof. vm_compute. repeat split. discriminate. Qed.

(** With the client the editor calls, the refusal of the worked example
    keeps its own text. *)
Example removeObject_refusal_demo :
  GeminiService.removeObject (Client (fun _ => Resolved Demo.refusal))
    "data:image/png;base64,AAAA" "image/png"
  = Rejected (ErrorObject ("Failed to process the image: " ++ refusal_message)%string)
  /\ GeminiService.removeObject (Client (fun _ => Rejected (ErrorObject "fetch failed")))
       "data:image/png;base64,AAAA" "image/png"
     = Rejected (ErrorObject "Failed to process the image: fetch failed").
Proof. split; reflexivity. Qed.

(** * Further properties of the code *)

(** ** Strings *)

Lemma prefix_comma (c : ascii) (rest : string) :
  String.prefix "," (String c rest) = Ascii.eqb "," c.
Proof.
  change (String.prefix "," (String c rest))
    with (if ascii_dec "," c then String.prefix "" rest else false).
  destruct (ascii_dec "," c) as [E|E].
  - subst c. now destruct rest.
  - symmetry. now apply Ascii.eqb_neq.
Qed.

Lemma includes_comma_cons (c : ascii) (rest : string) :
  includes (String c rest) "," = Ascii.eqb c "," || includes rest ",".
Proof.
  unfold includes. cbn [includes_from]. rewrite prefix_comma.
  rewrite (Ascii.eqb_sym "," c). now destruct (Ascii.eqb c ",").
Qed.

Lemma includes_comma_app (a b : string) :
  includes (a ++ b) "," = includes a "," || includes b ",".
Proof.
  induction a as [|c a IH]; [reflexivity|].
  cbn [append]. rewrite !includes_comma_cons, IH. now rewrite orb_assoc.
Qed.

Lemma split_comma_nonempty (s : string) : split_comma s <> [].
Proof.
  destruct s as [|c s]; [discriminate|].
  simpl. destruct (Ascii.eqb c ","); [discriminate|].
  destruct (split_comma s); discriminate.
Qed.

Lemma split_comma_free (s : string) :
  includes s "," = false -> split_comma s = [s].
Proof.
  induction s as [|c s IH]; [reflexivity|].
  rewrite includes_comma_cons. intros Hn. apply orb_false_elim in Hn as [Hc Hs].
  simpl. rewrite Hc, (IH Hs). reflexivity.
Qed.

Lemma split_comma_first (p q : string) :
  includes p "," = false ->
  split_comma (p ++ "," ++ q) = p :: split_comma q.
Proof.
  induction p as [|c p IH]; [reflexivity|].
  rewrite includes_comma_cons. intros Hn. apply orb_false_elim in Hn as [Hc Hp].
  cbn [append]. cbn [split_comma]. rewrite Hc.
  change (String "," q) with ("," ++ q)%string. rewrite (IH Hp). reflexivity.
Qed.

Lemma prefix_append (needle post : string) : String.prefix needle (needle ++ post) = true.
Proof.
  induction needle as [|c n IH]; [now destruct post|].
  change (String.prefix (String c n) (String c n ++ post))
    with (if ascii_dec c c then String.prefix n (n ++ post) else false).
  destruct (ascii_dec c c); [exact IH | congruence].
Qed.

Lemma prefix_split (needle hay : string) :
  String.prefix needle hay = true -> exists post, hay = (needle ++ post)%string.
Proof.
  revert hay. induction needle as [|c n IH]; intros hay Hp.
  - exists hay. reflexivity.
  - destruct hay as [|d hay]; [discriminate|].
    change (String.prefix (String c n) (String d hay))
      with (if ascii_dec c d then String.prefix n hay else false) in Hp.
    destruct (ascii_dec c d) as [->|]; [|discriminate].
    destruct (IH _ Hp) as [post ->]. exists post. reflexivity.
Qed.

(** [includes] finds exactly the substrings. *)
Lemma includes_substring (hay needle : string) :
  includes hay needle = true <-> exists pre post, hay = (pre ++ needle ++ post)%string.
Proof.
  unfold includes. split.
  - induction hay as [|c hay IH]; cbn [includes_from]; intros Hi.
    + destruct (String.prefix needle "") eqn:Hp; [|discriminate].
      destruct (prefix_split _ _ Hp) as [post E]. exists ""%string, post. exact E.
    + destruct (String.prefix needle (String c hay)) eqn:Hp.
      * destruct (prefix_split _ _ Hp) as [post E]. exists ""%string, post. exact E.
      * destruct (IH Hi) as (pre & post & ->). exists (String c pre), post. reflexivity.
  - intros (pre & post & ->). induction pre as [|c pre IH].
    + cbn [append]. destruct (needle ++ post)%string eqn:E; cbn [includes_from];
        rewrite <- E, prefix_append; reflexivity.
    + cbn [append includes_from]. rewrite IH.
      now destruct (String.prefix needle (String c (pre ++ needle ++ post))).
Qed.

(** ** The remote edit clients, continued *)

(** X1.  [fileToBase64] of the client the editor calls
    (src/services/geminiService.ts, lines 4-9): from a data URL it takes the
    text after the comma, and a string without a comma is passed through
    unchanged. *)
Theorem fileToBase64_payload (header payload : string) :
  includes header "," = false -> includes payload "," = false ->
  GeminiService.fileToBase64 (header ++ "," ++ payload) = Some payload
  /\ GeminiService.fileToBase64 payload = Some payload.
Proof.
  intros Hh Hp. unfold GeminiService.fileToBase64. split.
  - rewrite !includes_comma_app, Hh. cbn [orb].
    change (includes "," ",") with true. cbn [orb].
    rewrite (split_comma_first _ _ Hh), (split_comma_free _ Hp). reflexivity.
  - now rewrite Hp.
Qed.

(** X2.  [fileToBase64] of src/unnamed/part_000 (lines 3-5): the text after
    the comma of a data URL, but [undefined] for a string without a comma, so
    that a bare base64 string is sent as a missing [data] field. *)
Theorem part000_fileToBase64_needs_comma (header payload mask mime : string) :
  includes header "," = false -> includes payload "," = false ->
  Part000.fileToBase64 (header ++ "," ++ payload) = Some payload
  /\ Part000.fileToBase64 payload = None
  /\ In (InlineDataPart None mime)
        (request_parts (Part000.request payload mask mime)).
Proof.
  intros Hh Hp. unfold Part000.request, Part000.fileToBase64.
  rewrite (split_comma_first _ _ Hh), (split_comma_free _ Hp).
  repeat split. simpl. auto.
Qed.

(** X3.  The data URL built from a response is read back by the
    [fileToBase64] of either client: for a blob with a mime type and data,
    neither containing a comma. *)
Theorem fileToBase64_dataUrl (mime data : string) :
  includes mime "," = false -> includes data "," = false ->
  GeminiService.fileToBase64
    (dataUrl {| blob_data := Some data; blob_mimeType := Some mime |}) = Some data
  /\ Part000.fileToBase64
       (dataUrl {| blob_data := Some data; blob_mimeType := Some mime |}) = Some data.
Proof.
  intros Hm Hd. unfold dataUrl. cbn [interpolate blob_data blob_mimeType].
  assert (E : ("data:" ++ mime ++ ";base64," ++ data)%string
              = (("data:" ++ mime ++ ";base64") ++ "," ++ data)%string).
  { cbn [append]. f_equal. f_equal. f_equal. f_equal. f_equal.
    induction mime as [|c m IH]; [reflexivity|].
    cbn [append]. f_equal. apply IH.
    rewrite includes_comma_cons in Hm. now apply orb_false_elim in Hm. }
  assert (Hh : includes ("data:" ++ mime ++ ";base64") "," = false).
  { rewrite !includes_comma_app, Hm. reflexivity. }
  rewrite E. clear E. revert Hh.
  generalize ("data:" ++ mime ++ ";base64")%string. intros header Hh. split.
  - unfold GeminiService.fileToBase64.
    rewrite !includes_comma_app, Hh. cbn [orb].
    change (includes "," ",") with true. cbn [orb].
    now rewrite (split_comma_first _ _ Hh), (split_comma_free _ Hd).
  - unfold Part000.fileToBase64.
    now rewrite (split_comma_first _ _ Hh), (split_comma_free _ Hd).
Qed.

(** X4.  The client the editor calls (src/services/geminiService.ts,
    lines 11-53) has three kinds of outcome.  What the constructor of line
    15 throws is outside the [try] and rejects the call as it is.  With the
    client constructed, the call resolves with the data URL of the inline
    image of the first part of the first candidate, or rejects with an
    [Error] whose message is "Failed to process the image: " followed by the
    message of what was thrown, by "Unknown error" for a value that is no
    [Error], or by the refusal text when there is no image. *)
Theorem removeObject_outcomes (ai : GoogleGenAI) (marked mime : string) :
  (exists t, ai = ConstructorThrows t
             /\ GeminiService.removeObject ai marked mime = Rejected t)
  \/ (exists sdk, ai = Client sdk
       /\ ((exists response b,
               sdk (GeminiService.request marked mime) = Resolved response
               /\ inlineImage response = Some b
               /\ GeminiService.removeObject ai marked mime = Resolved (dataUrl b))
           \/ (exists m,
                  GeminiService.removeObject ai marked mime
                  = Rejected (ErrorObject ("Failed to process the image: " ++ m)%string)
                  /\ (sdk (GeminiService.request marked mime) = Rejected (ErrorObject m)
                      \/ (sdk (GeminiService.request marked mime) = Rejected OtherValue
                          /\ m = "Unknown error"%string)
                      \/ (exists response,
                             sdk (GeminiService.request marked mime) = Resolved response
                             /\ inlineImage response = None /\ m = refusal_message))))).
Proof.
  destruct ai as [t|sdk]; [left; now exists t|].
  right. exists sdk. split; [reflexivity|].
  unfold GeminiService.removeObject, GeminiService.attempt.
  destruct (sdk (GeminiService.request marked mime)) as [response|[m|]] eqn:Es.
  - destruct (inlineImage response) as [b|] eqn:Ei.
    + left. eauto.
    + right. exists refusal_message. split; [reflexivity|]. right. right. eauto.
  - right. exists m. auto.
  - right. exists "Unknown error"%string. auto.
Qed.

(** X5.  src/unnamed/part_000 (lines 7-56): without a key (unset or empty)
    the call rejects with the configuration message, whatever the
    constructor or the service would do.  With a key, what the constructor
    of line 12 throws is outside the [try] and rejects the call as it is;
    with the client constructed the call resolves exactly when the service
    answers with an inline image in the first part, and every other outcome
    is the same generic error. *)
Theorem part000_removeObject_outcomes (apiKey : option string)
    (ai : GoogleGenAI) (original mask mime : string) :
  ((apiKey = None \/ apiKey = Some ""%string) ->
   Part000.removeObject apiKey ai original mask mime
   = Rejected (ErrorObject Part000.missing_key_message))
  /\ (forall c k, apiKey = Some (String c k) ->
      (exists t, ai = ConstructorThrows t
                 /\ Part000.removeObject apiKey ai original mask mime = Rejected t)
      \/ (exists sdk, ai = Client sdk
           /\ ((exists response b,
                   sdk (Part000.request original mask mime) = Resolved response
                   /\ inlineImage response = Some b
                   /\ Part000.removeObject apiKey ai original mask mime
                      = Resolved (dataUrl b))
               \/ ((forall response, sdk (Part000.request original mask mime)
                                     = Resolved response -> inlineImage response = None)
                   /\ Part000.removeObject apiKey ai original mask mime
                      = Rejected (ErrorObject Part000.generic_message))))).
Proof.
  split.
  - intros [-> | ->]; reflexivity.
  - intros c k ->. destruct ai as [t|sdk]; [left; now exists t|].
    right. exists sdk. split; [reflexivity|].
    unfold Part000.removeObject, Part000.attempt.
    cbn [Part000.key_missing].
    destruct (sdk (Part000.request original mask mime)) as [response|t] eqn:Es.
    + destruct (inlineImage response) as [b|] eqn:Ei.
      * left. eauto.
      * right. split; [|reflexivity]. intros r Hr. injection Hr as <-. exact Ei.
    + right. split; [|reflexivity]. intros r Hr. discriminate.
Qed.

(** X6.  Only the first part of the first candidate is looked at: when it
    carries no inline data, an image in a later part or candidate is not
    found, and both clients reject. *)
Theorem image_must_come_first (first : Part) (later : list Part)
    (others : list Candidate) (a b mime : string) (k : string) :
  (part_inlineData first = None \/ part_inlineData first = Some None) ->
  k <> ""%string ->
  let response :=
    {| candidates := Some ({| content := Some {| parts := Some (first :: later) |} |}
                             :: others) |} in
  inlineImage response = None
  /\ GeminiService.removeObject (Client (fun _ => Resolved response)) a mime
     = Rejected (ErrorObject ("Failed to process the image: " ++ refusal_message)%string)
  /\ Part000.removeObject (Some k) (Client (fun _ => Resolved response)) a b mime
     = Rejected (ErrorObject Part000.generic_message).
Proof.
  intros Hf Hk response.
  assert (Hi : inlineImage response = None).
  { unfold inlineImage, firstPart. simpl. now destruct Hf as [-> | ->]. }
  split; [exact Hi|]. split.
  - unfold GeminiService.removeObject, GeminiService.attempt. now rewrite Hi.
  - unfold Part000.removeObject, Part000.attempt.
    destruct k; [congruence|]. cbn [Part000.key_missing]. now rewrite Hi.
Qed.

(** ** The editor, continued *)

Section EditorMore.

Context {num Pixels : Type} `{Number num} `{Raster num Pixels}.

(** X7.  Loading an image into the visible editor, during a session too (a
    window resize runs the same code), starts over: the canvas is
    transparent at its new size, the history is the single capture of it and
    the index is 0. *)
Theorem reload_discards_history w h (s : @Component num Pixels) (iw ih cw wh w' h' : Z) :
  Session w h s ->
  canvasSize iw ih cw wh = (w', h') -> 0 < w' -> 0 < h' ->
  history (step s (ImageLoaded iw ih cw wh)) = [baseline w' h']
  /\ historyIndex (step s (ImageLoaded iw ih cw wh)) = 0
  /\ drawingCanvas (step s (ImageLoaded iw ih cw wh)) = Some (sizedCanvas w' h')
  /\ Session w' h' (step s (ImageLoaded iw ih cw wh)).
Proof.
  intros S Hsize Hw Hh. destruct (Session_Loaded _ _ _ S) as [cv L].
  assert (HL : Load w' h' (step s (ImageLoaded iw ih cw wh))).
  { apply load_intro; try assumption; [apply L|].
    rewrite (loaded_canvas _ _ _ _ L). discriminate. }
  destruct (Load_Loaded _ _ _ HL) as (L' & Hhist & Hidx).
  split; [exact Hhist|]. split; [exact Hidx|]. split; [apply L'|].
  now apply session_load.
Qed.

(** X8.  When the display size truncates to a zero width or height, the
    capture of the empty mask fails: the canvas is resized and cleared, but
    the history and its index stay what they were (empty and -1 on a first
    load). *)
Theorem load_zero_size_keeps_history (s : @Component num Pixels) (c0 : @Canvas num Pixels)
    (iw ih cw wh w' h' : Z) :
  drawingCanvas s = Some c0 -> isLoading s = false ->
  canvasSize iw ih cw wh = (w', h') -> (w' = 0 \/ h' = 0) ->
  step s (ImageLoaded iw ih cw wh) = withCanvas (Some (sizedCanvas w' h')) s.
Proof.
  intros Hc Hv Hsize Hz. simpl. unfold dispatch, onload. rewrite Hc.
  unfold canvasSize in Hsize. destruct (displaySize iw ih cw wh) as [wd ht].
  injection Hsize as Ew Eh. rewrite Ew, Eh.
  assert (E : getImageData (sizedCanvas w' h') = None).
  { unfold getImageData. cbn [cv_width cv_height sizedCanvas].
    destruct Hz as [E0|E0]; rewrite E0; [reflexivity|]. now rewrite orb_true_r. }
  rewrite E. apply commit_visible; [exact Hv | exact Hv].
Qed.

(** X9.  In a session the undo and redo buttons are disabled exactly when
    the handler would do nothing: a disabled undo or redo leaves the
    component as it is, an enabled one moves the index by one. *)
Theorem undo_redo_buttons w h (s : @Component num Pixels) :
  Session w h s ->
  (undoDisabled s = true -> step s Undo = s)
  /\ (undoDisabled s = false -> historyIndex (step s Undo) = historyIndex s - 1)
  /\ (redoDisabled s = true -> step s Redo = s)
  /\ (redoDisabled s = false -> historyIndex (step s Redo) = historyIndex s + 1).
Proof.
  intros S. destruct (Session_Loaded _ _ _ S) as [cv L].
  unfold undoDisabled, redoDisabled. repeat split.
  - intros Hd. apply Z.leb_le in Hd. now apply (step_Undo_none _ _ _ _ L).
  - intros Hd. apply Z.leb_gt in Hd.
    destruct (step_Undo_some _ _ _ _ L Hd) as (d & _ & ->). reflexivity.
  - intros Hd. apply Z.geb_le in Hd. now apply (step_Redo_none _ _ _ _ L).
  - intros Hd. rewrite Z.geb_leb in Hd. apply Z.leb_gt in Hd.
    destruct (step_Redo_some _ _ _ _ L Hd) as (d & _ & ->). reflexivity.
Qed.

(** X10.  In a session with no stroke in progress and the index below the
    last entry, redo followed by undo leaves the component as it was. *)
Theorem redo_undo_identity w h (s : @Component num Pixels) :
  Session w h s -> isDrawing s = false ->
  historyIndex s < Z.of_nat (List.length (history s)) - 1 ->
  run s [Redo; Undo] = s.
Proof.
  intros S D Hi. destruct (Session_Loaded _ _ _ S) as [cv L].
  pose proof (loaded_index _ _ _ _ L) as Hr.
  cbn [run fold_left].
  destruct (step_Redo_some _ _ _ _ L Hi) as (d1 & Hd1 & E1).
  destruct (step_Loaded _ _ _ _ Redo L eq_refl) as [cv1 L1].
  assert (C1 : cv1 = putImageData d1 cv).
  { pose proof (loaded_canvas _ _ _ _ L1) as C. rewrite E1 in C. simpl in C. congruence. }
  subst cv1.
  assert (Habove : 0 < historyIndex (step s Redo)) by (rewrite E1; simpl; lia).
  destruct (step_Undo_some _ _ _ _ L1 Habove) as (d2 & Hd2 & E2).
  rewrite E2. rewrite E1 in Hd2 |- *. simpl in Hd2 |- *.
  replace (historyIndex s + 1 - 1) with (historyIndex s) in * by lia.
  rewrite (loaded_synced _ _ _ _ L D) in Hd2.
  destruct (Loaded_dims _ _ _ _ L) as [Hw Hh].
  rewrite getImageData_snapshot in Hd2 by assumption. injection Hd2 as <-.
  destruct (at_index_Forall _ _ _ _ (loaded_fits _ _ _ _ L) Hd1) as [Hw1 Hh1].
  rewrite <- (loaded_width _ _ _ _ L) in Hw1. rewrite <- (loaded_height _ _ _ _ L) in Hh1.
  rewrite (putImageData_fits d1 cv) by assumption.
  rewrite putImageData_fits by reflexivity.
  pose proof (loaded_canvas _ _ _ _ L) as C.
  destruct s, cv. simpl in *. unfold setHistoryIndex, withCanvas. simpl.
  rewrite C. reflexivity.
Qed.

(** Undo right after an entry was appended brings back the pixels the
    mask had before. *)
Lemma undo_after_append w h (s s1 : @Component num Pixels) (cv cv1 : @Canvas num Pixels)
    (x : ImageData Pixels) :
  Loaded w h s cv -> isDrawing s = false ->
  Loaded w h s1 cv1 ->
  history s1 = firstn (Z.to_nat (historyIndex s + 1)) (history s) ++ [x] ->
  historyIndex s1 = historyIndex s + 1 ->
  option_map bitmap (drawingCanvas (step s1 Undo)) = Some (bitmap cv)
  /\ historyIndex (step s1 Undo) = historyIndex s
  /\ history (step s1 Undo) = history s1.
Proof.
  intros L D L1 Hh Hi.
  pose proof (loaded_index _ _ _ _ L) as Hr.
  assert (Hpos : 0 < historyIndex s1) by lia.
  destruct (step_Undo_some _ _ _ _ L1 Hpos) as (d & Hd & E).
  rewrite Hh, Hi in Hd. replace (historyIndex s + 1 - 1) with (historyIndex s) in Hd by lia.
  rewrite at_index_prefix in Hd by lia.
  rewrite (loaded_synced _ _ _ _ L D) in Hd.
  destruct (Loaded_dims _ _ _ _ L) as [Hw Hhh].
  rewrite getImageData_snapshot in Hd by assumption. injection Hd as <-.
  rewrite E. cbn [drawingCanvas historyIndex history setHistoryIndex withCanvas option_map].
  rewrite putImageData_fits.
  - split; [reflexivity|]. split; [lia | reflexivity].
  - cbn [id_width snapshot].
    now rewrite (loaded_width _ _ _ _ L), (loaded_width _ _ _ _ L1).
  - cbn [id_height snapshot].
    now rewrite (loaded_height _ _ _ _ L), (loaded_height _ _ _ _ L1).
Qed.

(** X11.  In a session with no stroke in progress, undo after a completed
    stroke shows the mask as it was before the stroke, with the index back
    where it was; the stroke stays in the history, and redo shows it again. *)
Theorem undo_reverts_stroke w h (s : @Component num Pixels) (st : Stroke) :
  Session w h s -> isDrawing s = false ->
  option_map bitmap (drawingCanvas (run s (strokeEvents st ++ [Undo])))
  = option_map bitmap (drawingCanvas s)
  /\ historyIndex (run s (strokeEvents st ++ [Undo])) = historyIndex s
  /\ history (run s (strokeEvents st ++ [Undo])) = history (run s (strokeEvents st))
  /\ run s (strokeEvents st ++ [Undo; Redo]) = run s (strokeEvents st).
Proof.
  intros S D. destruct (Session_Loaded _ _ _ S) as [cv L].
  destruct (stroke_run _ _ _ _ st L) as (cv1 & L1 & D1 & Hh & Hi & _).
  rewrite !run_app. cbn [run fold_left].
  change (fold_left step (strokeEvents st) s) with (run s (strokeEvents st)).
  destruct (undo_after_append _ _ _ _ _ _ _ L D L1 Hh Hi) as (Hb & Hi' & Hh').
  rewrite Hb, (loaded_canvas _ _ _ _ L). repeat split; try assumption.
  pose proof (loaded_index _ _ _ _ L) as Hr.
  apply (undo_redo_identity w h); [ | exact D1 | lia].
  apply Session_run; [exact S | apply editing_strokeEvents].
Qed.

(** X12.  In a session with no stroke in progress, Clear empties the mask
    and remains undoable: undo after Clear shows the mask as it was before
    the Clear, with the index back where it was. *)
Theorem clear_then_undo w h (s : @Component num Pixels) :
  Session w h s -> isDrawing s = false ->
  option_map bitmap (drawingCanvas (step s Clear)) = Some (transparent w h)
  /\ option_map bitmap (drawingCanvas (run s [Clear; Undo]))
     = option_map bitmap (drawingCanvas s)
  /\ historyIndex (run s [Clear; Undo]) = historyIndex s.
Proof.
  intros S D. destruct (Session_Loaded _ _ _ S) as [cv L].
  pose proof (step_Clear _ _ _ _ L) as E.
  destruct (step_Loaded _ _ _ _ Clear L eq_refl) as [cv1 L1].
  split.
  - rewrite E. cbn [drawingCanvas setHistoryIndex setHistory withCanvas option_map].
    rewrite putImageData_fits; [reflexivity | | ]; cbn [id_width id_height baseline];
      symmetry; apply L.
  - cbn [run fold_left].
    destruct (undo_after_append w h s (step s Clear) cv cv1
                (snapshot (putImageData (baseline w h) cv)) L D L1) as (Hb & Hi & _);
      [rewrite E; reflexivity | rewrite E; reflexivity | ].
    rewrite Hb, (loaded_canvas _ _ _ _ L). auto.
Qed.

(** Past the guard of lines 179-182 a submission raises no alert. *)
Lemma alert_means_refused (env : SubmitEnv) (s : @Component num Pixels) (m : string) :
  In (Alert m) (snd (handleProcessImage env s)) ->
  drawingCanvas s = None \/ historyIndex s = 0.
Proof.
  unfold handleProcessImage. intros Hin.
  destruct (drawingCanvas s) as [cv|]; [|auto].
  destruct (Z.eqb_spec (historyIndex s) 0) as [E|E]; [auto|]. exfalso.
  unfold submitAttempt in Hin.
  destruct (composite env cv) as [[marked mime]|t].
  - destruct (GeminiService.removeObject (ai env) marked mime) as [url|err];
      cbn in Hin.
    + intuition discriminate.
    + destruct (is_auth_error (messageOf err)); cbn in Hin; intuition discriminate.
  - cbn in Hin.
    destruct (is_auth_error (messageOf t)); cbn in Hin; intuition discriminate.
Qed.

(** X13.  A submission is refused with the validation alert exactly when the
    canvas is not mounted or the history index is 0.  In particular it is
    not refused at index -1, before any image was captured. *)
Theorem submit_refused_iff (env : SubmitEnv) (s : @Component num Pixels) :
  (exists m, In (Alert m) (snd (handleProcessImage env s)))
  <-> drawingCanvas s = None \/ historyIndex s = 0.
Proof.
  split.
  - intros [m Hin]. exact (alert_means_refused env s m Hin).
  - unfold handleProcessImage. intros [Hc|Hi]; exists validation_message.
    + rewrite Hc. simpl. auto.
    + destruct (drawingCanvas s); [rewrite Hi|]; simpl; auto.
Qed.

(** X14.  After Clear in a session the index is positive: the Remove Object
    button is enabled and a submission is not refused, although the mask is
    empty. *)
Theorem submit_after_clear_not_refused w h (s : @Component num Pixels) (env : SubmitEnv) :
  Session w h s ->
  option_map bitmap (drawingCanvas (step s Clear)) = Some (transparent w h)
  /\ submitDisabled (step s Clear) = false
  /\ forall m, ~ In (Alert m) (snd (handleProcessImage env (step s Clear))).
Proof.
  intros S. destruct (Session_Loaded _ _ _ S) as [cv L].
  pose proof (step_Clear _ _ _ _ L) as E.
  pose proof (loaded_index _ _ _ _ L) as Hr.
  assert (Hi : historyIndex (step s Clear) = historyIndex s + 1) by (rewrite E; reflexivity).
  split; [|split].
  - rewrite E. cbn [drawingCanvas setHistoryIndex setHistory withCanvas option_map].
    rewrite putImageData_fits; [reflexivity | | ]; cbn [id_width id_height baseline];
      symmetry; apply L.
  - unfold submitDisabled. rewrite Hi. apply Z.leb_gt. lia.
  - intros m Hin.
    destruct (alert_means_refused env (step s Clear) m Hin) as [Hc|Hz].
    + rewrite E in Hc. discriminate.
    + lia.
Qed.

(** X15.  When the image cannot be decoded, the submission ends with the
    message "Failed to load image for processing." on display and without a
    call of the remote client. *)
Theorem submit_undecodable_image (env : SubmitEnv) (s : @Component num Pixels)
    (cv : @Canvas num Pixels) :
  drawingCanvas s = Some cv -> historyIndex s <> 0 ->
  loadImage env = None ->
  snd (handleProcessImage env s) = [ConsoleError]
  /\ error (step s (Submit env)) = Some "Failed to load image for processing."%string
  /\ isLoading (step s (Submit env)) = false.
Proof.
  intros Hc Hi Hl. simpl. unfold handleProcessImage. rewrite Hc.
  destruct (Z.eqb_spec (historyIndex s) 0) as [E|_]; [contradiction|].
  unfold submitAttempt, composite. rewrite Hl. cbn. auto.
Qed.

(** X16.  When the composite is produced, the client is constructed and
    the service answers with an inline image in its first part, the
    submission has exactly two effects: one call of the client with the
    composite, then [onComplete] with the data URL of that image. *)
Theorem submit_success (env : SubmitEnv) (s : @Component num Pixels)
    (cv : @Canvas num Pixels) (marked mime : string)
    (generateContent : Request -> Settled Response) (response : Response) (b : Blob) :
  drawingCanvas s = Some cv -> historyIndex s <> 0 ->
  composite env cv = Resolved (marked, mime) ->
  ai env = Client generateContent ->
  generateContent (GeminiService.request marked mime) = Resolved response ->
  inlineImage response = Some b ->
  snd (handleProcessImage env s) = [RemoteCall marked mime; OnComplete (dataUrl b)].
Proof.
  intros Hc Hi Hcomp Hai Hs Hb. unfold handleProcessImage. rewrite Hc.
  destruct (Z.eqb_spec (historyIndex s) 0) as [E|_]; [contradiction|].
  unfold submitAttempt. rewrite Hcomp, Hai.
  unfold GeminiService.removeObject, GeminiService.attempt. rewrite Hs, Hb.
  reflexivity.
Qed.

(** X17.  The payload of a submission is encoded as PNG when the file is a
    PNG and as JPEG for every other type, at the size [targetSize] computes
    from the natural size of the image. *)
Theorem composite_encoding (env : SubmitEnv) (cv : @Canvas num Pixels)
    (marked mime : string) :
  composite env cv = Resolved (marked, mime) ->
  (imageFile_type env = "image/png"%string -> mime = "image/png"%string)
  /\ (imageFile_type env <> "image/png"%string -> mime = "image/jpeg"%string)
  /\ exists image bitmap,
       loadImage env = Some image
       /\ marked = toDataURL bitmap
                     (fst (targetSize (naturalWidth image) (naturalHeight image)))
                     (snd (targetSize (naturalWidth image) (naturalHeight image))) mime.
Proof.
  unfold composite. intros Hcomp.
  destruct (loadImage env) as [image|]; [|discriminate].
  destruct (targetSize (naturalWidth image) (naturalHeight image)) as [tw th] eqn:T.
  destruct (compositeContext env); [|discriminate]. cbn [negb] in Hcomp.
  destruct ((cv_width cv =? 0) || (cv_height cv =? 0)); [discriminate|].
  injection Hcomp as <- <-.
  destruct (String.eqb_spec (imageFile_type env) "image/png") as [E|E].
  - split; [reflexivity|]. split; [congruence|].
    exists image. eexists. rewrite T. split; reflexivity.
  - split; [congruence|]. split; [reflexivity|].
    exists image. eexists. rewrite T. split; reflexivity.
Qed.

(** X18.  A submission calls the remote client at most once, as its first
    effect, and only when the image was decoded and composited. *)
Theorem submit_calls_remote_once (env : SubmitEnv) (s : @Component num Pixels) :
  (forall marked mime, ~ In (RemoteCall marked mime) (snd (handleProcessImage env s)))
  \/ (exists cv marked mime rest,
        drawingCanvas s = Some cv
        /\ composite env cv = Resolved (marked, mime)
        /\ snd (handleProcessImage env s) = RemoteCall marked mime :: rest
        /\ forall marked' mime', ~ In (RemoteCall marked' mime') rest).
Proof.
  unfold handleProcessImage.
  destruct (drawingCanvas s) as [cv|];
    [|left; intros ? ? Hin; simpl in Hin; intuition discriminate].
  destruct (historyIndex s =? 0);
    [left; intros ? ? Hin; simpl in Hin; intuition discriminate|].
  unfold submitAttempt.
  destruct (composite env cv) as [[marked mime]|t] eqn:Hcomp.
  - right. exists cv, marked, mime.
    destruct (GeminiService.removeObject (ai env) marked mime) as [url|err].
    + eexists. split; [reflexivity|]. split; [exact Hcomp|]. split; [reflexivity|].
      intros ? ? Hin. simpl in Hin. intuition discriminate.
    + eexists. split; [reflexivity|]. split; [exact Hcomp|]. split; [reflexivity|].
      intros ? ? Hin. cbn in Hin.
      destruct (is_auth_error (messageOf err)); cbn in Hin; intuition discriminate.
  - left. intros ? ? Hin. cbn in Hin.
    destruct (is_auth_error (messageOf t)); cbn in Hin; intuition discriminate.
Qed.

(** X19.  With the client constructed: when the service rejects the call
    with an error whose message mentions "API key", "403" or "Requested
    entity was not found", the submission shows the message and calls
    [onAuthError]; when the service answers without an image it shows the
    refusal and does not. *)
Theorem submit_auth_error (env : SubmitEnv) (s : @Component num Pixels)
    (cv : @Canvas num Pixels) (marked mime : string)
    (generateContent : Request -> Settled Response) :
  drawingCanvas s = Some cv -> historyIndex s <> 0 ->
  composite env cv = Resolved (marked, mime) ->
  ai env = Client generateContent ->
  (forall m needle pre post,
      generateContent (GeminiService.request marked mime) = Rejected (ErrorObject m) ->
      In needle ["Requested entity was not found"; "API key"; "403"]%string ->
      m = (pre ++ needle ++ post)%string ->
      snd (handleProcessImage env s) = [RemoteCall marked mime; OnAuthError; ConsoleError]
      /\ error (step s (Submit env)) = Some ("Failed to process the image: " ++ m)%string)
  /\ (forall response,
      generateContent (GeminiService.request marked mime) = Resolved response ->
      inlineImage response = None ->
      snd (handleProcessImage env s) = [RemoteCall marked mime; ConsoleError]
      /\ error (step s (Submit env))
         = Some ("Failed to process the image: " ++ refusal_message)%string).
Proof.
  intros Hc Hi Hcomp Hai.
  assert (Hsub : forall result,
            GeminiService.removeObject (ai env) marked mime = result ->
            handleProcessImage env s
            = match result with
              | Resolved url =>
                  (commit (commit s (setError None (setIsLoading true s)))
                     (setIsLoading false (commit s (setError None (setIsLoading true s)))),
                   [RemoteCall marked mime] ++ [OnComplete url])
              | Rejected err =>
                  (commit (commit s (setError None (setIsLoading true s)))
                     (setIsLoading false
                        (setError (Some (messageOf err))
                           (commit s (setError None (setIsLoading true s))))),
                   [RemoteCall marked mime]
                     ++ (if is_auth_error (messageOf err) then [OnAuthError] else [])
                     ++ [ConsoleError])
              end).
  { intros result <-. unfold handleProcessImage. rewrite Hc.
    destruct (Z.eqb_spec (historyIndex s) 0) as [E|_]; [contradiction|].
    unfold submitAttempt. rewrite Hcomp.
    now destruct (GeminiService.removeObject (ai env) marked mime). }
  split.
  - intros m needle pre post Hs Hn ->.
    assert (Ha : is_auth_error ("Failed to process the image: " ++ pre ++ needle ++ post)
                 = true).
    { unfold is_auth_error.
      assert (Hinc : includes ("Failed to process the image: " ++ pre ++ needle ++ post) needle
                     = true).
      { apply includes_substring.
        exists ("Failed to process the image: " ++ pre)%string, post.
        clear. induction "Failed to process the image: "%string as [|c t IH];
          [reflexivity | cbn [append]; now rewrite IH]. }
      destruct Hn as [<-|[<-|[<-|[]]]]; rewrite Hinc;
        rewrite ?orb_true_r; reflexivity. }
    cbn [step]. rewrite (Hsub _ eq_refl).
    unfold GeminiService.removeObject, GeminiService.attempt. rewrite Hai, Hs.
    cbn [messageOf]. rewrite Ha. split; reflexivity.
  - intros response Hs Hr. cbn [step]. rewrite (Hsub _ eq_refl).
    unfold GeminiService.removeObject, GeminiService.attempt. rewrite Hai, Hs, Hr.
    cbn [messageOf]. split; reflexivity.
Qed.

(** X20.  Changing the brush size touches neither the mask nor the
    history, and the next stroke is drawn with the new width (a value that is
    not positive is ignored by the canvas, which keeps its width). *)
Theorem brush_applies_to_next_stroke w h (s : @Component num Pixels) (v : Z)
    (rect : DOMRect) (e : PointerEvt) :
  Session w h s ->
  drawingCanvas (step s (BrushChange v)) = drawingCanvas s
  /\ history (step s (BrushChange v)) = history s
  /\ historyIndex (step s (BrushChange v)) = historyIndex s
  /\ (0 < v ->
      option_map (fun cv => lineWidth (ctx cv))
        (drawingCanvas (run s [BrushChange v; PointerDown rect e])) = Some v)
  /\ (v <= 0 ->
      option_map (fun cv => lineWidth (ctx cv))
        (drawingCanvas (run s [BrushChange v; PointerDown rect e]))
      = option_map (fun cv => lineWidth (ctx cv)) (drawingCanvas s)).
Proof.
  intros S. destruct (Session_Loaded _ _ _ S) as [cv L].
  assert (E : step s (BrushChange v) = setBrushSize v s).
  { simpl. apply (dispatch_visible _ _ _ _ L). apply L. }
  rewrite E. split; [reflexivity|]. split; [reflexivity|]. split; [reflexivity|].
  cbn [run fold_left]. rewrite E.
  assert (E2 : step (setBrushSize v s) (PointerDown rect e)
               = startDrawing rect e (setBrushSize v s) (setBrushSize v s)).
  { simpl. unfold dispatch. apply commit_visible; [apply L|].
    unfold startDrawing, getCoordinates. cbn [drawingCanvas setBrushSize].
    rewrite (loaded_canvas _ _ _ _ L). apply L. }
  rewrite E2. unfold startDrawing, getCoordinates. cbn [drawingCanvas setBrushSize brushSize].
  rewrite (loaded_canvas _ _ _ _ L). cbn.
  split; intros Hv.
  - destruct (Z.ltb_spec 0 v); [reflexivity | lia].
  - destruct (Z.ltb_spec 0 v); [lia | reflexivity].
Qed.

(** X21.  With no stroke in progress, pointer moves over the canvas paint
    nothing and change nothing, however many there are. *)
Theorem idle_moves_change_nothing w h (s : @Component num Pixels)
    (moves : list (DOMRect * PointerEvt)) :
  Session w h s -> isDrawing s = false ->
  run s (map (fun m => PointerMove (fst m) (snd m)) moves) = s.
Proof.
  intros S D. destruct (Session_Loaded _ _ _ S) as [cv L].
  induction moves as [|[rect e] moves IH]; [reflexivity|].
  cbn [map fst snd]. rewrite run_cons.
  rewrite (step_PointerMove_idle _ _ _ _ L rect e D). exact IH.
Qed.

(** X28.  On a mounted canvas with pixels, and with the index of the render
    within its history, [saveToHistory] keeps the entries at positions 0 to
    the index, drops the later ones and appends the capture of the canvas:
    its size and its pixels as they are at the call.  The index moves onto
    the new entry, and nothing else of the component changes. *)
Theorem snapshot_appends_capture (r c : @Component num Pixels) (cv : @Canvas num Pixels) :
  drawingCanvas c = Some cv ->
  cv_width cv <> 0 -> cv_height cv <> 0 ->
  0 <= historyIndex r < Z.of_nat (List.length (history r)) ->
  saveToHistory r c
  = setHistoryIndex (historyIndex r + 1)
      (setHistory
         (firstn (Z.to_nat (historyIndex r + 1)) (history r)
          ++ [{| id_width := cv_width cv; id_height := cv_height cv;
                 id_data := bitmap cv |}]) c)
  /\ Z.of_nat (List.length (history (saveToHistory r c))) = historyIndex r + 2
  /\ at_index (history (saveToHistory r c)) (historyIndex (saveToHistory r c))
     = Some {| id_width := cv_width cv; id_height := cv_height cv; id_data := bitmap cv |}
  /\ forall i, 0 <= i <= historyIndex r ->
       at_index (history (saveToHistory r c)) i = at_index (history r) i.
Proof.
  intros Hc Hw Hh Hi.
  assert (E : saveToHistory r c
              = setHistoryIndex (historyIndex r + 1)
                  (setHistory
                     (firstn (Z.to_nat (historyIndex r + 1)) (history r)
                      ++ [{| id_width := cv_width cv; id_height := cv_height cv;
                             id_data := bitmap cv |}]) c)).
  { unfold saveToHistory. rewrite Hc, getImageData_nonzero by assumption.
    rewrite slice0_firstn by lia.
    rewrite length_firstn, Nat.min_l by lia.
    now rewrite Z2Nat.id by lia. }
  assert (Hlen : List.length (firstn (Z.to_nat (historyIndex r + 1)) (history r))
                 = Z.to_nat (historyIndex r + 1))
    by (rewrite length_firstn; lia).
  split; [exact E|]. rewrite E.
  cbn [history historyIndex setHistoryIndex setHistory].
  split; [|split].
  - rewrite length_app, Hlen. cbn [List.length]. lia.
  - replace (historyIndex r + 1)
      with (Z.of_nat (List.length (firstn (Z.to_nat (historyIndex r + 1)) (history r))))
      at 2 by (rewrite Hlen; lia).
    apply at_index_last.
  - intros i Hr. apply at_index_prefix; lia.
Qed.

(** X29.  On a mounted, visible canvas with pixels, whatever the history:
    a completed stroke, with or without moves, keeps
    [history.slice(0, index + 1)] and appends exactly one entry, the capture
    of the canvas at its size; for a tap the captured pixels are those the
    mask had before.  The index is moved onto the new entry, and a second
    end event changes nothing. *)
Theorem stroke_appends_one_capture (s : @Component num Pixels) (cv : @Canvas num Pixels)
    (st : Stroke) :
  drawingCanvas s = Some cv -> isLoading s = false ->
  cv_width cv <> 0 -> cv_height cv <> 0 ->
  exists d,
    history (run s (strokeEvents st)) = slice0 (history s) (historyIndex s + 1) ++ [d]
    /\ historyIndex (run s (strokeEvents st))
       = Z.of_nat (List.length (slice0 (history s) (historyIndex s + 1)))
    /\ id_width d = cv_width cv /\ id_height d = cv_height cv
    /\ option_map bitmap (drawingCanvas (run s (strokeEvents st))) = Some (id_data d)
    /\ (stroke_moves st = [] -> id_data d = bitmap cv)
    /\ step (run s (strokeEvents st)) PointerEnd = run s (strokeEvents st).
Proof.
  intros Hc Hv Hw Hh.
  destruct (stroke_released s cv st Hc Hv)
    as (s2 & cv2 & E & Hc2 & Hv2 & D2 & Hh2 & Hi2 & Hw2 & Hht2 & Hb).
  rewrite E, (mounted_PointerEnd_capture _ _ Hc2 Hv2 D2) by congruence.
  eexists. split; [|split; [|split; [|split; [|split; [|split]]]]].
  - cbn [history setHistoryIndex setHistory]. rewrite Hh2, Hi2. reflexivity.
  - cbn [historyIndex setHistoryIndex]. rewrite Hh2, Hi2. reflexivity.
  - exact Hw2.
  - exact Hht2.
  - reflexivity.
  - exact Hb.
  - apply mounted_PointerEnd_idle; reflexivity || exact Hv2.
Qed.

Lemma saveToHistory_in_range (r c : @Component num Pixels) :
  0 <= historyIndex r < Z.of_nat (List.length (history r)) ->
  0 <= historyIndex c < Z.of_nat (List.length (history c)) ->
  at_index (history c) 0 = at_index (history r) 0 ->
  0 <= historyIndex (saveToHistory r c)
    < Z.of_nat (List.length (history (saveToHistory r c)))
  /\ at_index (history (saveToHistory r c)) 0 = at_index (history r) 0.
Proof.
  intros Hr Hcr Hb. unfold saveToHistory.
  destruct (drawingCanvas c) as [cv|]; [|auto].
  destruct (getImageData cv) as [d|]; [|auto].
  rewrite slice0_firstn by lia.
  cbn [history historyIndex setHistoryIndex setHistory].
  rewrite length_app, length_firstn. cbn [List.length].
  split; [lia|]. apply at_index_prefix; lia.
Qed.

(** One event, from a state whose index is within its history. *)
Lemma step_in_range (s : @Component num Pixels) (ev : Event) :
  0 <= historyIndex s < Z.of_nat (List.length (history s)) ->
  0 <= historyIndex (step s ev) < Z.of_nat (List.length (history (step s ev)))
  /\ (is_load ev = false -> at_index (history (step s ev)) 0 = at_index (history s) 0).
Proof.
  intros Hr.
  destruct ev as [iw ih cw wh|rect e|rect e| |v| | | |env];
    cbn [step is_load]; unfold dispatch;
    try (destruct (commit_history s (onload iw ih cw wh s)) as [-> ->]);
    try (destruct (commit_history s (startDrawing rect e s s)) as [-> ->]);
    try (destruct (commit_history s (draw rect e s s)) as [-> ->]);
    try (destruct (commit_history s (stopDrawing s s)) as [-> ->]);
    try (destruct (commit_history s (setBrushSize v s)) as [-> ->]);
    try (destruct (commit_history s (handleUndo s s)) as [-> ->]);
    try (destruct (commit_history s (handleRedo s s)) as [-> ->]);
    try (destruct (commit_history s (handleClear s s)) as [-> ->]).
  - split; [|discriminate]. unfold onload.
    destruct (drawingCanvas s); [|exact Hr].
    destruct (displaySize iw ih cw wh) as [dw dh].
    destruct (getImageData (sizedCanvas (to_long dw) (to_long dh))); [|exact Hr].
    cbn. lia.
  - unfold startDrawing.
    destruct (getCoordinates (drawingCanvas s) rect e) as [[x y]|]; [|auto].
    destruct (drawingCanvas s); auto.
  - unfold draw. destruct (isDrawing s); [|auto]. cbn [negb].
    destruct (getCoordinates (drawingCanvas s) rect e) as [[x y]|]; [|auto].
    destruct (drawingCanvas s); auto.
  - unfold stopDrawing. destruct (isDrawing s); [|auto]. cbn [negb].
    destruct (drawingCanvas s) as [cv|]; [|auto].
    destruct (saveToHistory_in_range s
                (setIsDrawing false
                   (withCanvas (Some (with_ctx (with_path (path (ctx cv) ++ [ClosePath])
                                                  (ctx cv)) cv)) s)) Hr Hr eq_refl); auto.
  - auto.
  - unfold handleUndo. destruct (Z.gtb_spec (historyIndex s) 0); [|auto].
    destruct (drawingCanvas s); [|auto].
    destruct (at_index (history s) (historyIndex s - 1)); [|auto].
    cbn. split; [lia | auto].
  - unfold handleRedo.
    destruct (Z.ltb_spec (historyIndex s) (Z.of_nat (List.length (history s)) - 1)); [|auto].
    destruct (drawingCanvas s); [|auto].
    destruct (at_index (history s) (historyIndex s + 1)); [|auto].
    cbn. split; [lia | auto].
  - unfold handleClear. destruct (drawingCanvas s) as [cv|]; [|auto].
    destruct (history s) as [|h0 hs] eqn:Eh; [cbn in Hr; lia|]. cbv zeta.
    destruct (saveToHistory_in_range s
                (setHistoryIndex 0 (setHistory [h0]
                   (withCanvas (Some (putImageData h0 cv)) s)))) as [H1 H2];
      [rewrite Eh; exact Hr | cbn; lia | rewrite Eh; reflexivity |].
    rewrite Eh in H2. auto.
  - destruct (submit_keeps_history env s) as [Hh Hi]. cbn [step] in Hh, Hi.
    rewrite Hh, Hi. auto.
Qed.

(** X30.  From any state whose index is within its history, any sequence
    of events (pointer events, brush changes, undo, redo, clear,
    submissions, and loads too) leaves the index within the history; and
    when none of them is a load, entry 0 is what it was. *)
Theorem history_invariant_kept (s : @Component num Pixels) (evs : list Event) :
  0 <= historyIndex s < Z.of_nat (List.length (history s)) ->
  0 <= historyIndex (run s evs) < Z.of_nat (List.length (history (run s evs)))
  /\ (forallb (fun ev => negb (is_load ev)) evs = true ->
      at_index (history (run s evs)) 0 = at_index (history s) 0).
Proof.
  revert s. induction evs as [|ev evs IH]; intros s Hr; [auto|].
  rewrite run_cons. destruct (step_in_range s ev Hr) as [Hr' Hb'].
  destruct (IH (step s ev) Hr') as [Hr'' Hb''].
  split; [exact Hr''|].
  cbn [forallb]. intros Hevs. apply andb_prop in Hevs as [Hev Hevs].
  rewrite (Hb'' Hevs). apply Hb'. now destruct (is_load ev).
Qed.

(** X32.  After a load that captured the empty mask of a [w] by [h] canvas,
    and whatever follows except another load (strokes, undo, redo, clear,
    brush changes, and submissions with their remounting), the index is
    within the history and entry 0 is that capture. *)
Theorem baseline_kept (w h : Z) (s0 : @Component num Pixels) (evs : list Event) :
  Load w h s0 ->
  forallb (fun ev => negb (is_load ev)) evs = true ->
  0 <= historyIndex (run s0 evs) < Z.of_nat (List.length (history (run s0 evs)))
  /\ at_index (history (run s0 evs)) 0 = Some (baseline w h).
Proof.
  intros HL Hevs. destruct (Load_Loaded _ _ _ HL) as (L0 & Hh0 & Hi0).
  assert (Hstart : 0 <= historyIndex s0 < Z.of_nat (List.length (history s0))
                   /\ at_index (history s0) 0 = Some (baseline w h))
    by (rewrite Hh0, Hi0; cbn; split; [lia | reflexivity]).
  clear HL L0 Hh0 Hi0. revert s0 Hstart.
  induction evs as [|ev evs IH]; intros s0 Hstart; [exact Hstart|].
  rewrite run_cons. cbn [forallb] in Hevs. apply andb_prop in Hevs as [Hev Hevs].
  apply (IH Hevs). destruct Hstart as [Hr Hb].
  destruct (step_in_range s0 ev Hr) as [Hr' Hb'].
  split; [exact Hr'|]. rewrite Hb'; [exact Hb|].
  now destruct (is_load ev).
Qed.

End EditorMore.

(** ** The application shell *)

Section ShellFacts.

Variable File : Type.

(** What renderStep needs of the state. *)
Lemma app_images_present (s : App.AppState File) :
  App.Reachable File s ->
  (App.step File s = App.EDIT -> App.originalImage File s <> None)
  /\ (App.step File s = App.RESULT ->
      App.originalImage File s <> None /\ App.editedImage File s <> None).
Proof.
  induction 1 as [|s ev _ [IHe IHr] Hev].
  - split; discriminate.
  - unfold App.render in Hev.
    destruct ev as [k|d|file|o e|a|]; cbn [App.app_step].
    + destruct k; cbn; auto.
    + destruct d; cbn; auto.
    + cbn. split; [discriminate | discriminate].
    + destruct (App.checkingKey File s); [discriminate|].
      destruct (negb (App.hasKey File s)); [discriminate|].
      unfold App.renderStep in Hev.
      destruct (App.step File s) eqn:Es; try discriminate.
      * cbn. split; [discriminate|]. intros _. split; [now apply IHe | discriminate].
      * destruct (App.originalImage File s), (App.editedImage File s); discriminate.
    + destruct a; cbn; auto.
    + cbn. split; discriminate.
Qed.

(** X24.  In every state the application reaches (each callback being
    called from the screen it was given to), the editor step has its image
    and the download step has both images: renderStep never takes the branch
    that starts over and renders nothing. *)
Theorem app_never_falls_back (s : App.AppState File) :
  App.Reachable File s ->
  App.renderStep File s <> App.StartOverFallback File
  /\ App.render File s <> App.StartOverFallback File.
Proof.
  intros R. destruct (app_images_present s R) as [He Hr].
  assert (Hs : App.renderStep File s <> App.StartOverFallback File).
  { unfold App.renderStep. destruct (App.step File s) eqn:Es.
    - discriminate.
    - destruct (App.originalImage File s); [discriminate|]. now destruct (He eq_refl).
    - destruct (Hr eq_refl) as [Ho Hd].
      destruct (App.originalImage File s); [|congruence].
      destruct (App.editedImage File s); [discriminate|congruence]. }
  split; [exact Hs|]. unfold App.render.
  destruct (App.checkingKey File s); [discriminate|].
  destruct (negb (App.hasKey File s)); [discriminate | exact Hs].
Qed.

(** X25.  An authentication error reported by the editor replaces it by the
    key screen only where [window.aistudio] exists, and is ignored elsewhere;
    a closed key dialog brings the editor back with the same file, any other
    outcome of the dialog leaves the key screen up. *)
Theorem app_auth_error_round_trip (s : App.AppState File) (file : File) :
  App.render File s = App.EditorView File file ->
  App.app_step File s (App.AuthError File false) = s
  /\ App.render File (App.app_step File s (App.AuthError File true)) = App.KeyScreenView File
  /\ App.render File
       (App.app_step File (App.app_step File s (App.AuthError File true))
          (App.SelectKey File App.DialogClosed))
     = App.EditorView File file
  /\ (forall d, d <> App.DialogClosed ->
      App.render File
        (App.app_step File (App.app_step File s (App.AuthError File true))
           (App.SelectKey File d))
      = App.KeyScreenView File).
Proof.
  unfold App.render. intros Hv.
  destruct (App.checkingKey File s) eqn:Ec; [discriminate|].
  destruct (App.hasKey File s) eqn:Ek; [|discriminate].
  cbn [negb] in Hv. cbn. rewrite Ec. cbn. repeat split.
  - exact Hv.
  - intros d Hd. destruct d; cbn; rewrite ?Ec; try reflexivity. congruence.
Qed.

(** X26.  From the upload screen, an uploaded file is the one the editor
    gets; when the editor completes, the download screen shows that file
    with the edited image; starting over returns to the upload screen with
    both images dropped. *)
Theorem app_upload_edit_download (s : App.AppState File) (file : File)
    (originalUrl editedUrl : string) :
  App.render File s = App.UploadView File ->
  App.render File (App.app_step File s (App.ImageUpload File file))
  = App.EditorView File file
  /\ App.render File
       (App.app_step File (App.app_step File s (App.ImageUpload File file))
          (App.ProcessingComplete File originalUrl editedUrl))
     = App.DownloadView File file editedUrl
  /\ App.render File
       (App.app_step File
          (App.app_step File (App.app_step File s (App.ImageUpload File file))
             (App.ProcessingComplete File originalUrl editedUrl))
          (App.StartOver File))
     = App.UploadView File
  /\ App.originalImage File
       (App.app_step File
          (App.app_step File (App.app_step File s (App.ImageUpload File file))
             (App.ProcessingComplete File originalUrl editedUrl))
          (App.StartOver File)) = None
  /\ App.editedImage File
       (App.app_step File
          (App.app_step File (App.app_step File s (App.ImageUpload File file))
             (App.ProcessingComplete File originalUrl editedUrl))
          (App.StartOver File)) = None.
Proof.
  unfold App.render. intros Hv.
  destruct (App.checkingKey File s) eqn:Ec; [discriminate|].
  destruct (App.hasKey File s) eqn:Ek; [|discriminate].
  cbn. rewrite Ec, Ek. cbn. auto.
Qed.

(** X27.  The key check that ends the initial spinner: without
    [window.aistudio] the key is taken as present, with it the answer of
    [hasSelectedApiKey] decides between the key screen and the application,
    and when that call fails the spinner stays.  No later event brings the
    spinner back. *)
Theorem app_key_check (s : App.AppState File) :
  App.checkingKey File s = true ->
  App.render File (App.checkKey File App.NoStudio s) = App.renderStep File s
  /\ App.render File (App.checkKey File (App.Selected true) s) = App.renderStep File s
  /\ App.render File (App.checkKey File (App.Selected false) s) = App.KeyScreenView File
  /\ App.render File (App.checkKey File App.CheckThrows s) = App.SpinnerView File
  /\ (forall s' ev, App.checkingKey File s' = false ->
      App.checkingKey File (App.app_step File s' ev) = false).
Proof.
  intros Hc. unfold App.render. cbn. rewrite Hc. repeat split.
  intros s' ev Hs'. destruct ev as [k|d|file|o e|a|]; cbn; try assumption.
  - now destruct k.
  - now destruct d.
  - now destruct a.
Qed.

End ShellFacts.

(** ** Worked examples, continued *)

Lemma fileToBase64_payload_witness :
  GeminiService.fileToBase64 "data:image/png;base64,AAAA" = Some "AAAA"%string
  /\ GeminiService.fileToBase64 "AAAA" = Some "AAAA"%string.
Proof.
  exact (fileToBase64_payload "data:image/png;base64" "AAAA" eq_refl eq_refl).
Defined.

Lemma part000_fileToBase64_needs_comma_witness :
  Part000.fileToBase64 "data:image/png;base64,AAAA" = Some "AAAA"%string
  /\ Part000.fileToBase64 "AAAA" = None
  /\ In (InlineDataPart None "image/jpeg")
        (request_parts (Part000.request "AAAA" "data:image/png;base64,BBBB"
                          "image/jpeg")).
Proof.
  exact (part000_fileToBase64_needs_comma "data:image/png;base64" "AAAA"
           "data:image/png;base64,BBBB" "image/jpeg" eq_refl eq_refl).
Defined.

Lemma fileToBase64_dataUrl_witness :
  GeminiService.fileToBase64 (dataUrl Scenario.picture) = Some "iVBORw0KGgo="%string
  /\ Part000.fileToBase64 (dataUrl Scenario.picture) = Some "iVBORw0KGgo="%string.
Proof.
  exact (fileToBase64_dataUrl "image/png" "iVBORw0KGgo=" eq_refl eq_refl).
Defined.

Lemma part000_removeObject_outcomes_witness :
  Part000.removeObject (Some ""%string) (Client (fun _ => Resolved Scenario.answer))
    "data:image/png;base64,AAAA" "data:image/png;base64,BBBB" "image/png"
  = Rejected (ErrorObject Part000.missing_key_message).
Proof.
  apply (part000_removeObject_outcomes (Some ""%string)
           (Client (fun _ => Resolved Scenario.answer))).
  right. reflexivity.
Defined.

Lemma image_must_come_first_witness :
  inlineImage Scenario.image_second = None
  /\ GeminiService.removeObject (Client (fun _ => Resolved Scenario.image_second))
       "data:image/png;base64,AAAA" "image/png"
     = Rejected (ErrorObject ("Failed to process the image: " ++ refusal_message)%string)
  /\ Part000.removeObject (Some "key"%string)
       (Client (fun _ => Resolved Scenario.image_second))
       "data:image/png;base64,AAAA" "data:image/png;base64,BBBB" "image/png"
     = Rejected (ErrorObject Part000.generic_message).
Proof.
  apply (image_must_come_first
           {| part_text := Some "Here is the edited image."%string; part_inlineData := None |}
           [ {| part_text := None; part_inlineData := Some (Some Scenario.picture) |} ] []
           "data:image/png;base64,AAAA" "data:image/png;base64,BBBB" "image/png" "key").
  - left. reflexivity.
  - discriminate.
Defined.

(** The window is resized after one stroke: the canvas becomes 400 by 400
    and the stroke is gone from the history. *)
Lemma reload_discards_history_witness :
  history (step (run Demo.loaded (strokeEvents Demo.diagonal)) (ImageLoaded 1000 1000 400 900))
  = [baseline 400 400]
  /\ historyIndex
       (step (run Demo.loaded (strokeEvents Demo.diagonal)) (ImageLoaded 1000 1000 400 900))
     = 0.
Proof.
  destruct (reload_discards_history 540 540 (run Demo.loaded (strokeEvents Demo.diagonal))
              1000 1000 400 900 400 400) as (Hh & Hi & _).
  - apply demo_Session. vm_compute. reflexivity.
  - vm_compute. reflexivity.
  - lia.
  - lia.
  - split; [exact Hh | exact Hi].
Defined.

(** A 10000 by 1 image in a 500 pixel wide container: the canvas is 500 by
    0 and the history stays empty, with the index at -1. *)
Lemma load_zero_size_keeps_history_witness :
  step (mounted (num := Q) (Pixels := list Paint)) (ImageLoaded 10000 1 500 900)
  = withCanvas (Some (sizedCanvas 500 0)) mounted.
Proof.
  apply (load_zero_size_keeps_history mounted newCanvas 10000 1 500 900 500 0).
  - reflexivity.
  - reflexivity.
  - vm_compute. reflexivity.
  - right. reflexivity.
Defined.

Lemma undo_redo_buttons_witness :
  step Demo.loaded Undo = Demo.loaded
  /\ step Demo.loaded Redo = Demo.loaded.
Proof.
  destruct (undo_redo_buttons 540 540 Demo.loaded) as (Hu & _ & Hr & _).
  - apply session_load, demo_Load.
  - split; [apply Hu | apply Hr]; reflexivity.
Defined.

Lemma redo_undo_identity_witness :
  run (run Demo.loaded (strokeEvents Demo.diagonal ++ [Undo])) [Redo; Undo]
  = run Demo.loaded (strokeEvents Demo.diagonal ++ [Undo]).
Proof.
  apply (redo_undo_identity 540 540).
  - apply demo_Session. vm_compute. reflexivity.
  - vm_compute. reflexivity.
  - vm_compute. reflexivity.
Defined.

Lemma undo_reverts_stroke_witness :
  option_map bitmap (drawingCanvas (run Demo.loaded (strokeEvents Demo.diagonal ++ [Undo])))
  = option_map bitmap (drawingCanvas Demo.loaded)
  /\ historyIndex (run Demo.loaded (strokeEvents Demo.diagonal ++ [Undo])) = 0.
Proof.
  destruct (undo_reverts_stroke 540 540 Demo.loaded Demo.diagonal) as (Hb & Hi & _).
  - apply session_load, demo_Load.
  - reflexivity.
  - split; [exact Hb | exact Hi].
Defined.

Lemma clear_then_undo_witness :
  option_map bitmap
    (drawingCanvas (run (run Demo.loaded (strokeEvents Demo.diagonal)) [Clear; Undo]))
  = option_map bitmap (drawingCanvas (run Demo.loaded (strokeEvents Demo.diagonal)))
  /\ historyIndex (run (run Demo.loaded (strokeEvents Demo.diagonal)) [Clear; Undo]) = 1.
Proof.
  destruct (clear_then_undo 540 540 (run Demo.loaded (strokeEvents Demo.diagonal)))
    as (_ & Hb & Hi).
  - apply demo_Session. vm_compute. reflexivity.
  - vm_compute. reflexivity.
  - split; [exact Hb | exact Hi].
Defined.

(** Before any image is loaded the index is -1 and the guard lets a
    submission through. *)
Lemma submit_refused_iff_witness :
  ~ exists m, In (Alert m)
                (snd (handleProcessImage Scenario.serving
                        (mounted (num := Q) (Pixels := list Paint)))).
Proof.
  intros Hm. apply (submit_refused_iff Scenario.serving mounted) in Hm.
  destruct Hm as [Hc|Hi]; discriminate.
Defined.

Lemma submit_after_clear_not_refused_witness :
  submitDisabled (step (run Demo.loaded (strokeEvents Demo.diagonal)) Clear) = false
  /\ option_map bitmap
       (drawingCanvas (step (run Demo.loaded (strokeEvents Demo.diagonal)) Clear))
     = Some [].
Proof.
  destruct (submit_after_clear_not_refused 540 540
              (run Demo.loaded (strokeEvents Demo.diagonal)) Scenario.serving)
    as (Hb & Hd & _).
  - apply demo_Session. vm_compute. reflexivity.
  - split; [exact Hd | exact Hb].
Defined.

Lemma submit_undecodable_image_witness :
  snd (handleProcessImage Scenario.undecodable (run Demo.loaded (strokeEvents Demo.diagonal)))
  = [ConsoleError]
  /\ error (step (run Demo.loaded (strokeEvents Demo.diagonal)) (Submit Scenario.undecodable))
     = Some "Failed to load image for processing."%string.
Proof.
  edestruct (submit_undecodable_image Scenario.undecodable
               (run Demo.loaded (strokeEvents Demo.diagonal))) as (Hf & He & _).
  - vm_compute. reflexivity.
  - vm_compute. discriminate.
  - reflexivity.
  - split; [exact Hf | exact He].
Defined.

(** A 4000 by 2000 WebP photo with one stroke: one call with a JPEG
    payload, and the PNG of the answer handed on. *)
Lemma submit_success_witness :
  exists marked,
    snd (handleProcessImage Scenario.serving (run Demo.loaded (strokeEvents Demo.diagonal)))
    = [RemoteCall marked "image/jpeg"; OnComplete "data:image/png;base64,iVBORw0KGgo="].
Proof.
  eexists.
  eapply (submit_success Scenario.serving (run Demo.loaded (strokeEvents Demo.diagonal))
            _ _ _ (fun _ => Resolved Scenario.answer) Scenario.answer Scenario.picture).
  - vm_compute. reflexivity.
  - vm_compute. discriminate.
  - vm_compute. reflexivity.
  - reflexivity.
  - reflexivity.
  - reflexivity.
Defined.

Lemma composite_encoding_witness :
  exists marked mime,
    composite Scenario.serving (sizedCanvas (num := Q) 540 540) = Resolved (marked, mime)
    /\ mime = "image/jpeg"%string.
Proof.
  destruct (composite Scenario.serving (sizedCanvas (num := Q) 540 540))
    as [[marked mime]|t] eqn:Hc.
  - exists marked, mime. split; [reflexivity|].
    destruct (composite_encoding Scenario.serving (sizedCanvas 540 540) marked mime Hc)
      as (_ & Hj & _).
    apply Hj. discriminate.
  - vm_compute in Hc. discriminate.
Defined.

Lemma submit_auth_error_witness :
  exists marked,
    snd (handleProcessImage Scenario.unauthorized
           (run Demo.loaded (strokeEvents Demo.diagonal)))
    = [RemoteCall marked "image/png"; OnAuthError; ConsoleError].
Proof.
  eexists.
  edestruct (submit_auth_error Scenario.unauthorized
               (run Demo.loaded (strokeEvents Demo.diagonal))) as (Ha & _).
  - vm_compute. reflexivity.
  - vm_compute. discriminate.
  - vm_compute. reflexivity.
  - reflexivity.
  - edestruct (Ha "API key not valid. Please pass a valid API key."%string
                  "API key"%string ""%string
                  " not valid. Please pass a valid API key."%string) as (Hf & _).
    + reflexivity.
    + right. left. reflexivity.
    + reflexivity.
    + exact Hf.
Defined.

Lemma brush_applies_to_next_stroke_witness :
  option_map (fun cv => lineWidth (ctx cv))
    (drawingCanvas (run Demo.loaded [BrushChange 80; PointerDown Demo.rect (MouseEvt 110%Q 120%Q)]))
  = Some 80.
Proof.
  destruct (brush_applies_to_next_stroke 540 540 Demo.loaded 80 Demo.rect (MouseEvt 110%Q 120%Q))
    as (_ & _ & _ & Hv & _).
  - apply session_load, demo_Load.
  - apply Hv. lia.
Defined.

Lemma idle_moves_change_nothing_witness :
  run Demo.loaded [PointerMove Demo.rect (MouseEvt 110%Q 120%Q);
                   PointerMove Demo.rect (MouseEvt 210%Q 220%Q)]
  = Demo.loaded.
Proof.
  apply (idle_moves_change_nothing 540 540 Demo.loaded
           [(Demo.rect, MouseEvt 110%Q 120%Q); (Demo.rect, MouseEvt 210%Q 220%Q)]).
  - apply session_load, demo_Load.
  - reflexivity.
Defined.

(** Five strokes, two undos (index 3 of 6 entries), then a snapshot: the
    history has 3 + 2 = 5 entries and ends with the capture of the canvas. *)
Lemma snapshot_appends_capture_witness :
  Z.of_nat (List.length
    (history (saveToHistory (run Demo.loaded (Demo.five_strokes ++ [Undo; Undo]))
                            (run Demo.loaded (Demo.five_strokes ++ [Undo; Undo]))))) = 5.
Proof.
  edestruct (snapshot_appends_capture
               (run Demo.loaded (Demo.five_strokes ++ [Undo; Undo]))
               (run Demo.loaded (Demo.five_strokes ++ [Undo; Undo])))
    as (_ & Hlen & _).
  - vm_compute. reflexivity.
  - vm_compute. discriminate.
  - vm_compute. discriminate.
  - vm_compute. split; [discriminate | reflexivity].
  - exact Hlen.
Defined.

(** Five strokes, two undos, one more stroke: the index was 3, the history
    now has 3 + 2 = 5 entries, not 6, and the index is 4. *)
Lemma stroke_appends_one_capture_witness :
  historyIndex (run (run Demo.loaded (Demo.five_strokes ++ [Undo; Undo]))
                    (strokeEvents Demo.diagonal)) = 4
  /\ List.length (history (run (run Demo.loaded (Demo.five_strokes ++ [Undo; Undo]))
                               (strokeEvents Demo.diagonal))) = 5%nat.
Proof.
  edestruct (fun cv => stroke_appends_one_capture
                         (run Demo.loaded (Demo.five_strokes ++ [Undo; Undo]))
                         cv Demo.diagonal) as (d & Hh & Hi & _).
  - vm_compute. reflexivity.
  - reflexivity.
  - vm_compute. discriminate.
  - vm_compute. discriminate.
  - rewrite Hi, Hh, length_app. split; vm_compute; reflexivity.
Defined.

(** One stroke, then a refused submission and an undo: the index stays
    within the history. *)
Lemma history_invariant_kept_witness :
  0 <= historyIndex (run (run Demo.loaded (strokeEvents Demo.diagonal))
                         [Submit Demo.refusing; Undo])
    < Z.of_nat (List.length
        (history (run (run Demo.loaded (strokeEvents Demo.diagonal))
                      [Submit Demo.refusing; Undo]))).
Proof.
  destruct (history_invariant_kept (run Demo.loaded (strokeEvents Demo.diagonal))
              [Submit Demo.refusing; Undo]) as [Hr _].
  - vm_compute. split; [discriminate | reflexivity].
  - exact Hr.
Defined.

(** A stroke, two clears, an undo, a refused submission and another undo. *)
Lemma baseline_kept_witness :
  at_index (history (run Demo.loaded
                       (strokeEvents Demo.diagonal
                        ++ [Clear; Clear; Undo; Submit Demo.refusing; Undo]))) 0
  = Some (baseline 540 540).
Proof.
  apply (baseline_kept 540 540 Demo.loaded
           (strokeEvents Demo.diagonal ++ [Clear; Clear; Undo; Submit Demo.refusing; Undo])).
  - exact demo_Load.
  - vm_compute. reflexivity.
Defined.

(** The key is taken as present, a file is uploaded and edited. *)
Lemma app_never_falls_back_witness :
  App.render string
    (App.app_step string
       (App.app_step string
          (App.app_step string (App.initial string) (App.KeyChecked string App.NoStudio))
          (App.ImageUpload string "photo.png"%string))
       (App.ProcessingComplete string "blob:original"%string "data:image/png;base64,AAAA"%string))
  <> App.StartOverFallback string.
Proof.
  apply (app_never_falls_back string).
  apply App.reach_step; [|reflexivity].
  apply App.reach_step; [|reflexivity].
  apply App.reach_step; [|reflexivity].
  apply App.reach_initial.
Defined.

Lemma app_auth_error_round_trip_witness :
  App.render string
    (App.app_step string
       (App.app_step string
          (App.handleImageUpload string "photo.png"%string
             (App.checkKey string (App.Selected true) (App.initial string)))
          (App.AuthError string true))
       (App.SelectKey string App.DialogClosed))
  = App.EditorView string "photo.png"%string.
Proof.
  apply (app_auth_error_round_trip string
           (App.handleImageUpload string "photo.png"%string
              (App.checkKey string (App.Selected true) (App.initial string)))
           "photo.png"%string).
  reflexivity.
Defined.

Lemma app_upload_edit_download_witness :
  App.render string
    (App.app_step string
       (App.app_step string (App.checkKey string App.NoStudio (App.initial string))
          (App.ImageUpload string "photo.png"%string))
       (App.ProcessingComplete string "blob:original"%string "data:image/png;base64,AAAA"%string))
  = App.DownloadView string "photo.png"%string "data:image/png;base64,AAAA"%string.
Proof.
  apply (app_upload_edit_download string
           (App.checkKey string App.NoStudio (App.initial string))
           "photo.png"%string "blob:original"%string "data:image/png;base64,AAAA"%string).
  reflexivity.
Defined.

Lemma app_key_check_witness :
  App.render string (App.checkKey string App.NoStudio (App.initial string))
  = App.UploadView string
  /\ App.render string (App.checkKey string App.CheckThrows (App.initial string))
     = App.SpinnerView string.
Proof.
  destruct (app_key_check string (App.initial string)) as (Hn & _ & _ & Ht & _).
  - reflexivity.
  - split; [exact Hn | exact Ht].
Defined.
